(** * Shift-rota scheduler: a shallow embedding of [schedule.py],
      [models.py] and the usage governor of [routes.py].

    The development follows the Python sources function by function.
    Database tables are lists of rows, Python dictionaries whose order of
    insertion is observable (the schedule that is serialised to JSON) are
    association lists, lookup tables are [gmap]s, and code that commits to
    the database or may raise runs in a small state-and-exception monad.
    Python floats and the values of a [Float] column are IEEE 754 doubles
    ([PrimFloat]). *)

From Stdlib Require Import Floats.PrimFloat.
From Stdlib Require Import ZArith Lia String Ascii.
From Stdlib Require Floats.SpecFloat Floats.FloatOps.
From stdpp Require Import base option list strings gmap pretty sorting.

(** Decimal literals denote the nearest double, as they do in Python. *)
#[local] Set Warnings "-inexact-float".

Local Open Scope Z_scope.

(** ** Rows of [models.py] *)

Record Designation := mkDesignation {
  d_title : string;
  hierarchy_level : Z
}.

Record Employee := mkEmployee {
  e_id : Z;
  e_name : string;
  e_designation : Designation;
  e_is_active : bool
}.

Record Team := mkTeam {
  t_id : Z;
  t_name : string;
  shift_template : string;
  people_per_shift : Z;
  members : list Employee          (* [m.employee for m in team.members] *)
}.

Record EmployeeHistory := mkEmployeeHistory {
  h_employee_id : Z;
  h_team_id : Z;
  month_year : string;
  shift_assigned : option string;
  was_floater : bool;
  floater_for_shift : option string;
  h_created_at : Z
}.

#[global] Instance Designation_eq_dec : EqDecision Designation.
Proof. solve_decision. Defined.
#[global] Instance Employee_eq_dec : EqDecision Employee.
Proof. solve_decision. Defined.
#[global] Instance EmployeeHistory_eq_dec : EqDecision EmployeeHistory.
Proof. solve_decision. Defined.

(** ** The generated schedule

    A staff entry is the dictionary [{'name': ..., 'designation': ...}];
    [MonthlyAssignment] and [Schedule] are Python dictionaries, kept in
    insertion order. *)

Record StaffEntry := mkStaffEntry {
  se_name : string;
  se_designation : string
}.

Record ShiftData := mkShiftData {
  assigned_staff : list StaffEntry;
  floaters : list StaffEntry
}.

#[global] Instance StaffEntry_eq_dec : EqDecision StaffEntry.
Proof. solve_decision. Defined.
#[global] Instance ShiftData_eq_dec : EqDecision ShiftData.
Proof. solve_decision. Defined.

Abbreviation MonthlyAssignment := (list (string * ShiftData)).
Abbreviation Schedule := (list (string * list (string * ShiftData))).

(** [d[k] = v] on an insertion-ordered dictionary. *)
Fixpoint dict_set {V} (k : string) (v : V) (d : list (string * V)) : list (string * V) :=
  match d with
  | [] => [(k, v)]
  | (k', v') :: d' =>
      if decide (k = k') then (k, v) :: d' else (k', v') :: dict_set k v d'
  end.

(** [d.get(k)] *)
Fixpoint dict_get {V} (k : string) (d : list (string * V)) : option V :=
  match d with
  | [] => None
  | (k', v') :: d' => if decide (k = k') then Some v' else dict_get k d'
  end.

(** [d[k]] read, modified in place by [f], as in [d[k]['floaters'].append(x)]. *)
Fixpoint dict_update {V} (k : string) (f : V → V) (d : list (string * V)) : list (string * V) :=
  match d with
  | [] => []
  | (k', v') :: d' =>
      if decide (k = k') then (k', f v') :: d' else (k', v') :: dict_update k f d'
  end.

(** [enumerate(l)] *)
Fixpoint enumerate_from {A} (i : nat) (l : list A) : list (nat * A) :=
  match l with
  | [] => []
  | x :: l' => (i, x) :: enumerate_from (S i) l'
  end.

Definition enumerate {A} (l : list A) : list (nat * A) := enumerate_from 0 l.

(** [sorted(l, key=...)]: Python's sort is stable, so is insertion from the
    right that places an element before the first one that is not smaller. *)
Fixpoint insert_by {A} (le : A → A → bool) (x : A) (l : list A) : list A :=
  match l with
  | [] => [x]
  | y :: l' => if le x y then x :: l else y :: insert_by le x l'
  end.

Definition sorted {A} (le : A → A → bool) (l : list A) : list A :=
  foldr (insert_by le) [] l.

(** ** [StateManager] (history side) *)

Record EmployeeContext := mkEmployeeContext {
  last_shifts : list string;
  floater_history : list bool;
  months_since_floater : nat;
  consecutive_shift_count : nat
}.

#[global] Instance EmployeeContext_inhabited : Inhabited EmployeeContext :=
  populate (mkEmployeeContext [] [] 0 0).

(** Truthiness of a nullable string column. *)
Definition truthy_str (o : option string) : bool :=
  match o with
  | Some s => negb (String.eqb s EmptyString)
  | None => false
  end.

(** [_calculate_months_since_floater] *)
Fixpoint months_since_floater_from (i : nat) (history : list EmployeeHistory) : option nat :=
  match history with
  | [] => None
  | record :: rest =>
      if was_floater record then Some i else months_since_floater_from (S i) rest
  end.

Definition _calculate_months_since_floater (history : list EmployeeHistory) : nat :=
  match months_since_floater_from 0 history with
  | Some i => i
  | None => length history          (* Never been floater *)
  end.

(** [_calculate_consecutive_shifts] *)
Fixpoint count_leading (current_shift : option string) (rest : list EmployeeHistory)
    (count : nat) : nat :=
  match rest with
  | [] => count
  | record :: rest' =>
      if decide (shift_assigned record = current_shift)
      then count_leading current_shift rest' (S count)
      else count
  end.

Definition _calculate_consecutive_shifts (history : list EmployeeHistory) : nat :=
  match history with
  | [] => 0%nat
  | first :: rest => count_leading (shift_assigned first) rest 1
  end.

(** The query of [get_employee_context]:
    [filter_by(employee_id, team_id).order_by(created_at.desc()).limit(n)]. *)
Definition newer_first (a b : EmployeeHistory) : bool :=
  h_created_at b <=? h_created_at a.

Definition history_query (table : list EmployeeHistory) (employee_id team_id : Z)
    (months_back : nat) : list EmployeeHistory :=
  take months_back
    (sorted newer_first
       (filter (λ h, h_employee_id h = employee_id ∧ h_team_id h = team_id) table)).

Definition get_employee_context_n (table : list EmployeeHistory) (team_id employee_id : Z)
    (months_back : nat) : EmployeeContext :=
  let history := history_query table employee_id team_id months_back in
  {| last_shifts :=
       omap (λ h, if truthy_str (shift_assigned h) then shift_assigned h else None) history;
     floater_history := was_floater <$> history;
     months_since_floater := _calculate_months_since_floater history;
     consecutive_shift_count := _calculate_consecutive_shifts history |}.

(** [months_back=3] is the default and the only value the callers use. *)
Definition get_employee_context (table : list EmployeeHistory) (team_id employee_id : Z)
    : EmployeeContext :=
  get_employee_context_n table team_id employee_id 3.

(** ** The generator of one month: [_generate_month_with_constraints] *)

Definition _get_stability_months (level : Z) : Z :=
  if level =? 1 then 3 else if level =? 2 then 2 else 1.

Definition level_of (e : Employee) : Z := hierarchy_level (e_designation e).

Definition staff_entry (e : Employee) : StaffEntry :=
  {| se_name := e_name e; se_designation := d_title (e_designation e) |}.

(** The sort key [(-months_since_floater, hierarchy_level)], compared as
    Python compares tuples. *)
Definition floater_key (contexts : gmap Z EmployeeContext) (e : Employee) : Z * Z :=
  (- Z.of_nat (months_since_floater (contexts !!! e_id e)), level_of e).

Definition key_le (a b : Z * Z) : bool :=
  (a.1 <? b.1) || ((a.1 =? b.1) && (a.2 <=? b.2)).

Definition select_floaters (employees : list Employee) (contexts : gmap Z EmployeeContext)
    (num_floaters : Z) : list Employee :=
  if 0 <? num_floaters then
    let eligible_for_floater := filter (λ e, 1 < level_of e) employees in
    take (Z.to_nat num_floaters)
      (sorted (λ a b, key_le (floater_key contexts a) (floater_key contexts b))
         eligible_for_floater)
  else [].

(** [shift_teams[i % len(shifts)].append(emp)] over [enumerate(fixed_staff)] *)
Definition group_fixed_staff (num_shifts : nat) (fixed_staff : list Employee)
    : list (list Employee) :=
  foldl (λ teams '(i, emp), alter (λ t, t ++ [emp]) (i mod num_shifts)%nat teams)
    (replicate num_shifts []) (enumerate fixed_staff).

(** [l[i], l[j] = l[j], l[i]] *)
Definition swap_slots {A} (i j : nat) (l : list A) : list A :=
  match l !! i, l !! j with
  | Some a, Some b => <[i := b]> (<[j := a]> l)
  | _, _ => l
  end.

(** The test of the rotation rule for one member of the team that is being
    written under [shift_name]. *)
Definition must_rotate (contexts : gmap Z EmployeeContext) (shift_name : string)
    (emp : Employee) : bool :=
  let context := contexts !!! e_id emp in
  (_get_stability_months (level_of emp) <=? 1)
  && match last_shifts context with
     | [] => false
     | last :: _ => String.eqb last shift_name
     end.

(** The inner loop [for emp in team]: [team] is the list object read from
    slot [i] when the iteration started; every member that must rotate
    exchanges slots [i] and [i + 1] of [shift_teams]. *)
Definition rotate_members (contexts : gmap Z EmployeeContext) (i : nat)
    (shift_name : string) (team : list Employee) (shift_teams : list (list Employee))
    : list (list Employee) :=
  foldl (λ teams emp,
           if must_rotate contexts shift_name emp && (i + 1 <? length teams)%nat
           then swap_slots i (i + 1) teams else teams)
    shift_teams team.

(** The outer loop [for i, (shift_name, team) in enumerate(zip(shifts,
    shift_teams))]. The list iterator reads slot [i] of the list as it is
    when step [i] starts; the entry written for [shift_name] is built from the
    variable [team], whatever the slots hold by then. *)
Fixpoint apply_rotation (contexts : gmap Z EmployeeContext) (i : nat)
    (shifts : list string) (shift_teams : list (list Employee))
    (monthly_assignments : MonthlyAssignment) : MonthlyAssignment :=
  match shifts with
  | [] => monthly_assignments
  | shift_name :: rest =>
      match shift_teams !! i with
      | None => monthly_assignments
      | Some team =>
          let shift_teams' := rotate_members contexts i shift_name team shift_teams in
          apply_rotation contexts (S i) rest shift_teams'
            (dict_set shift_name
               {| assigned_staff := staff_entry <$> team; floaters := [] |}
               monthly_assignments)
      end
  end.

(** [monthly_assignments[shifts[i % len(shifts)]]['floaters'].append(...)] *)
Definition distribute_floaters (shifts : list string) (floater_candidates : list Employee)
    (monthly_assignments : MonthlyAssignment) : MonthlyAssignment :=
  foldl (λ ma '(i, floater),
           match shifts !! (i mod length shifts)%nat with
           | Some shift_name =>
               dict_update shift_name
                 (λ sd, {| assigned_staff := assigned_staff sd;
                           floaters := floaters sd ++ [staff_entry floater] |}) ma
           | None => ma
           end)
    monthly_assignments (enumerate floater_candidates).

Definition _generate_month_with_constraints (employees : list Employee)
    (contexts : gmap Z EmployeeContext) (shifts : list string)
    (people_per_shift required_fixed : Z) (month_index : nat) : MonthlyAssignment :=
  let num_floaters := Z.of_nat (length employees) - required_fixed in
  let floater_candidates := select_floaters employees contexts num_floaters in
  let fixed_staff := filter (λ e, e ∉ floater_candidates) employees in
  let shift_teams := group_fixed_staff (length shifts) fixed_staff in
  let monthly_assignments := apply_rotation contexts 0 shifts shift_teams [] in
  distribute_floaters shifts floater_candidates monthly_assignments.

(** ** Exceptions *)

(** A raised Python exception: its class and [str(e)]. *)
Record exn := mkExn {
  exn_class : string;
  exn_str : string
}.

Inductive result (A : Type) :=
  | Ok (a : A)
  | Raise (e : exn).
Arguments Ok {A} a.
Arguments Raise {A} e.

(** ** The multi-month generator: [_generate_with_constraints] *)

Definition SHIFT_DESIRABILITY_ORDER : list string :=
  ["Morning"; "Afternoon"; "Evening"; "Night"; "Early Morning"]%string.

Definition team_shifts_map : gmap string (list string) :=
  list_to_map
    [("3-shift", ["Morning"; "Afternoon"; "Night"]);
     ("4-shift", ["Morning"; "Afternoon"; "Evening"; "Night"]);
     ("5-shift", ["Early Morning"; "Morning"; "Afternoon"; "Evening"; "Night"])]%string.

(** [desirable_shifts], the template's shifts in desirability order. *)
Definition desirable_shifts (template : string) : list string :=
  let shifts_in_template := default [] (team_shifts_map !! template) in
  filter (λ s, s ∈ shifts_in_template) SHIFT_DESIRABILITY_ORDER.

(** [employee_contexts[emp.id] = state_manager.get_employee_context(emp.id)] *)
Definition employee_contexts (table : list EmployeeHistory) (team_id : Z)
    (all_employees : list Employee) : gmap Z EmployeeContext :=
  foldl (λ ctxs emp, <[e_id emp := get_employee_context table team_id (e_id emp)]> ctxs)
    ∅ all_employees.

Definition month_names : list string :=
  ["January"; "February"; "March"; "April"; "May"; "June"; "July"; "August";
   "September"; "October"; "November"; "December"]%string.

(** [strftime('%B %Y')] of a date in the given year and month. *)
Definition strftime_B_Y (year month : Z) : string :=
  default EmptyString (month_names !! Z.to_nat (month - 1)) +:+ " " +:+ pretty year.

(** The years that [datetime] accepts. *)
Definition MINYEAR : Z := 1.
Definition MAXYEAR : Z := 9999.

(** [datetime(year, month, 1).strftime('%B %Y')] for a month in 1..12: the
    constructor raises [ValueError] for a year outside [MINYEAR..MAXYEAR]
    (the text of the message is CPython's). *)
Definition datetime_strftime_B_Y (year month : Z) : result string :=
  if (MINYEAR <=? year) && (year <=? MAXYEAR)
  then Ok (strftime_B_Y year month)
  else Raise (mkExn "ValueError" ("year " +:+ pretty year +:+ " is out of range")).

(** The year and the month of the month [month_index] months after the
    month of [today], with the arithmetic of the source ([//] and [%] round
    down). *)
Definition current_year (start_year start_month : Z) (month_index : nat) : Z :=
  start_year + (start_month + Z.of_nat month_index - 1) / 12.

Definition current_month (start_month : Z) (month_index : nat) : Z :=
  (start_month + Z.of_nat month_index - 1) mod 12 + 1.

(** [month_name], the label of that month. *)
Definition month_name_at (start_year start_month : Z) (month_index : nat) : result string :=
  datetime_strftime_B_Y (current_year start_year start_month month_index)
    (current_month start_month month_index).

(** The loop [for month_index in range(months)]; an empty month aborts the
    run with [{}], a month whose date cannot be built aborts it with the
    exception. *)
Fixpoint generate_months (all_employees : list Employee) (contexts : gmap Z EmployeeContext)
    (shifts : list string) (people_per_shift required_for_fixed : Z)
    (start_year start_month : Z) (indices : list nat)
    (all_months_assignments : Schedule) : result Schedule :=
  match indices with
  | [] => Ok all_months_assignments
  | month_index :: rest =>
      match month_name_at start_year start_month month_index with
      | Raise e => Raise e
      | Ok month_name =>
          let month_assignment :=
            _generate_month_with_constraints all_employees contexts shifts
              people_per_shift required_for_fixed month_index in
          match month_assignment with
          | [] => Ok []
          | _ :: _ =>
              generate_months all_employees contexts shifts people_per_shift
                required_for_fixed start_year start_month rest
                (dict_set month_name month_assignment all_months_assignments)
          end
      end
  end.

(** [today] is the pair (year, month) of [datetime.today()]. *)
Definition _generate_with_constraints (table : list EmployeeHistory) (today : Z * Z)
    (team : Team) (all_employees : list Employee) (months : Z) : result Schedule :=
  let shifts := desirable_shifts (shift_template team) in
  let num_shifts := length shifts in
  if (num_shifts =? 0)%nat then Ok []
  else
    let required_for_fixed := Z.of_nat num_shifts * people_per_shift team in
    let contexts := employee_contexts table (t_id team) all_employees in
    generate_months all_employees contexts shifts (people_per_shift team)
      required_for_fixed today.1 today.2 (seq 0 (Z.to_nat months)) [].

(** ** The database and the monad of code that commits or raises *)

Record ScheduleCache := mkScheduleCache {
  cache_key : string;               (* unique=True, nullable=False *)
  cached_data : Schedule;           (* json.dumps(data), read back with json.loads *)
  cache_type : string;
  c_created_at : Z;
  expires_at : Z;
  hit_count : Z
}.

Record APIUsageLog := mkAPIUsageLog {
  u_user_id : Z;
  u_team_id : Z;
  api_type : string;
  tokens_used : Z;
  cost_estimate : float;
  u_timestamp : Z;
  u_success : bool
}.

(** JSON values: what [json.loads] returns and what a validation report is. *)
#[local] Set Warnings "-register-all".
Inductive json :=
  | JNull
  | JBool (b : bool)
  | JNum (n : Z)
  | JFloat (x : float)
  | JStr (s : string)
  | JList (l : list json)
  | JDict (d : list (string * json)).

Record ScheduleValidationLog := mkScheduleValidationLog {
  v_team_id : Z;
  validation_result : json;         (* json.dumps(validation_result) *)
  violations_found : json;
  v_is_valid : json;
  validated_at : Z
}.

Record RuleViolation := mkRuleViolation {
  r_team_id : Z;
  rule_number : Z;
  rule_description : string;
  violation_detail : string;
  r_month_year : string
}.

Record SavedSchedule := mkSavedSchedule {
  s_team_id : Z;                    (* unique=True *)
  schedule_data : Schedule          (* json.dumps(schedule) *)
}.

Record Db := mkDb {
  employee_table : list Employee;
  team_table : list Team;
  saved_schedule_table : list SavedSchedule;
  history_table : list EmployeeHistory;
  cache_table : list ScheduleCache;
  usage_table : list APIUsageLog;
  validation_log_table : list ScheduleValidationLog;
  rule_violation_table : list RuleViolation
}.

Definition set_saved_schedules (f : list SavedSchedule → list SavedSchedule) (db : Db) : Db :=
  mkDb (employee_table db) (team_table db) (f (saved_schedule_table db)) (history_table
    db) (cache_table db) (usage_table db) (validation_log_table db)
    (rule_violation_table db).

Definition set_history (f : list EmployeeHistory → list EmployeeHistory) (db : Db) : Db :=
  mkDb (employee_table db) (team_table db) (saved_schedule_table db) (f (history_table
    db)) (cache_table db) (usage_table db) (validation_log_table db)
    (rule_violation_table db).

Definition set_cache (f : list ScheduleCache → list ScheduleCache) (db : Db) : Db :=
  mkDb (employee_table db) (team_table db) (saved_schedule_table db) (history_table db)
    (f (cache_table db)) (usage_table db) (validation_log_table db)
    (rule_violation_table db).

Definition set_usage (f : list APIUsageLog → list APIUsageLog) (db : Db) : Db :=
  mkDb (employee_table db) (team_table db) (saved_schedule_table db) (history_table db)
    (cache_table db) (f (usage_table db)) (validation_log_table db)
    (rule_violation_table db).

Definition set_validation_log (f : list ScheduleValidationLog → list ScheduleValidationLog) (db : Db) : Db :=
  mkDb (employee_table db) (team_table db) (saved_schedule_table db) (history_table db)
    (cache_table db) (usage_table db) (f (validation_log_table db))
    (rule_violation_table db).

Definition set_rule_violations (f : list RuleViolation → list RuleViolation) (db : Db) : Db :=
  mkDb (employee_table db) (team_table db) (saved_schedule_table db) (history_table db)
    (cache_table db) (usage_table db) (validation_log_table db) (f (rule_violation_table
    db)).

(** A computation reads and commits to the database and returns or raises;
    what was committed before an exception stays committed. *)
Definition M (A : Type) : Type := Db → result A * Db.

#[global] Instance M_ret : MRet M := λ A a db, (Ok a, db).

#[global] Instance M_bind : MBind M := λ A B f m db,
  match m db with
  | (Ok a, db') => f a db'
  | (Raise e, db') => (Raise e, db')
  end.

Definition raise {A} (e : exn) : M A := λ db, (Raise e, db).
Definition get_db : M Db := λ db, (Ok db, db).
Definition commit (f : Db → Db) : M unit := λ db, (Ok tt, f db).

(** A function that returns or raises without touching the database. *)
Definition lift {A} (r : result A) : M A := λ db, (r, db).

(** [try: body except Exception as e: handler(e)] *)
Definition try_except {A} (body : M A) (handler : exn → M A) : M A := λ db,
  match body db with
  | (Ok a, db') => (Ok a, db')
  | (Raise e, db') => handler e db'
  end.

(** [for x in l: body(x)] *)
Fixpoint for_each {A} (l : list A) (body : A → M unit) : M unit :=
  match l with
  | [] => mret tt
  | x :: l' => body x ;; for_each l' body
  end.

(** Time is the number of microseconds since the epoch, in UTC. *)
Definition timedelta_hours (h : Z) : Z := h * 3600 * 1000000.
Definition timedelta_seconds (s : Z) : Z := s * 1000000.

(** ** [CacheManager] *)

(** [ScheduleCache.query.filter_by(cache_key=..., cache_type='schedule').first()] *)
Definition cache_first (table : list ScheduleCache) (key : string) : option ScheduleCache :=
  head (filter (λ c, cache_key c = key ∧ cache_type c = "schedule"%string) table).

Definition bump_hit_count (c : ScheduleCache) : ScheduleCache :=
  mkScheduleCache (cache_key c) (cached_data c) (cache_type c) (c_created_at c)
    (expires_at c) (hit_count c + 1).

(** The row returned by [first()] is the one that is modified. *)
Fixpoint bump_first (key : string) (table : list ScheduleCache) : list ScheduleCache :=
  match table with
  | [] => []
  | c :: rest =>
      if decide (cache_key c = key ∧ cache_type c = "schedule"%string)
      then bump_hit_count c :: rest
      else c :: bump_first key rest
  end.

(** [get_cached_schedule]; [None] is Python's [None]. *)
Definition get_cached_schedule (now : Z) (key : string) : M (option Schedule) :=
  db ← get_db;
  match cache_first (cache_table db) key with
  | Some cache_entry =>
      if expires_at cache_entry >? now then
        commit (set_cache (bump_first key)) ;;
        mret (Some (cached_data cache_entry))
      else mret None
  | None => mret None
  end.

(** [save_to_cache]: the row is always inserted; the commit is refused by the
    unique index on [cache_key] when the key is already there. *)
Definition save_to_cache (now : Z) (key : string) (data : Schedule) (type : string)
    (expire_hours : Z) : M unit :=
  let expire_time := now + timedelta_hours expire_hours in
  let cache_entry := mkScheduleCache key data type now expire_time 0 in
  db ← get_db;
  if decide (key ∈ cache_key <$> cache_table db)
  then raise (mkExn "IntegrityError" "Duplicate entry for key cache_key")
  else commit (set_cache (λ t, t ++ [cache_entry])).

(** ** [StateManager] (writing side) and the entry point of generation *)

(** [s.zfill(n)] for the digits printed by [strftime]. *)
Definition zfill (n : nat) (s : string) : string :=
  string_of_list_ascii (replicate (n - String.length s)%nat "0"%char) +:+ s.

(** [strftime('%Y-%m')]: the month has two digits, the year is printed as
    the C library prints it, without padding. *)
Definition strftime_Y_m (year month : Z) : string :=
  pretty year +:+ "-" +:+ zfill 2 (pretty month).

(** The existing row of the key (employee, team, month) is updated in place,
    otherwise the new row is added. *)
Fixpoint history_upsert (new : EmployeeHistory) (table : list EmployeeHistory)
    : list EmployeeHistory :=
  match table with
  | [] => [new]
  | existing :: rest =>
      if decide (h_employee_id existing = h_employee_id new
                 ∧ h_team_id existing = h_team_id new
                 ∧ month_year existing = month_year new)
      then mkEmployeeHistory (h_employee_id existing) (h_team_id existing)
             (month_year existing) (shift_assigned new) (was_floater new)
             (floater_for_shift new) (h_created_at existing) :: rest
      else existing :: history_upsert new rest
  end.

(** [Employee.query.filter_by(name=employee_name).first()] *)
Definition employee_by_name (table : list Employee) (employee_name : string)
    : option Employee :=
  head (filter (λ e, e_name e = employee_name) table).

Definition _save_employee_history (team_id now : Z) (employee_name month_key : string)
    (shift : option string) (floater : bool) (floater_for : option string) : M unit :=
  db ← get_db;
  match employee_by_name (employee_table db) employee_name with
  | None => mret tt
  | Some employee =>
      commit (set_history (history_upsert
                {| h_employee_id := e_id employee; h_team_id := team_id;
                   month_year := month_key; shift_assigned := shift;
                   was_floater := floater; floater_for_shift := floater_for;
                   h_created_at := now |}))
  end.

(** A Python integer as the float of the same value, when it has one. *)
Definition Z2SF (z : Z) : SpecFloat.spec_float :=
  match z with
  | Z0 => SpecFloat.S754_zero false
  | Zpos p => SpecFloat.S754_finite false p 0
  | Zneg p => SpecFloat.S754_finite true p 0
  end.

(** [a / b] on Python integers, [b] not 0: the double nearest to the
    quotient, ties to even. The token counts divided here are lengths of
    strings, far from the quotients that are too large for a double. *)
Definition int_true_div (a b : Z) : float :=
  FloatOps.SF2Prim (SpecFloat.SFdiv FloatOps.prec FloatOps.emax (Z2SF a) (Z2SF b)).

(** [_log_api_usage]: the cost is the float [(tokens_estimate / 1000) * 0.002]. *)
Definition _log_api_usage (now user_id team_id : Z) (type : string) (tokens_estimate : Z)
    : M unit :=
  let cost_per_1k_tokens := 0.002%float in
  let estimated_cost := (int_true_div tokens_estimate 1000 * cost_per_1k_tokens)%float in
  commit (set_usage (λ t, t ++ [mkAPIUsageLog user_id team_id type tokens_estimate
                                   estimated_cost now true])).

Section Generation.

(** Library functions the generator calls:
    [strptime(month_name, '%B %Y')] as (year, month), [None] when it raises;
    the MD5 digest of [f"{team_id}_{months}_{json.dumps(team_config,
    sort_keys=True)}"], as a function of the five values it is made of;
    and [len(str(schedule))]. *)
Variable strptime_B_Y : string → option (Z * Z).
Variable generate_cache_key : Z → Z → nat → string → Z → string.
Variable str_len : Schedule → Z.

Definition _parse_month_key (month_name : string) : string :=
  match strptime_B_Y month_name with
  | Some (year, month) => strftime_Y_m year month
  | None => month_name
  end.

Definition save_assignment_history (team_id now : Z) (schedule : Schedule) : M unit :=
  for_each schedule (λ '(month_name, shifts),
    let month_key := _parse_month_key month_name in
    for_each shifts (λ '(shift_name, shift_data),
      for_each (assigned_staff shift_data) (λ staff,
        _save_employee_history team_id now (se_name staff) month_key
          (Some shift_name) false None) ;;
      for_each (floaters shift_data) (λ floater,
        _save_employee_history team_id now (se_name floater) month_key
          None true (Some shift_name)))).

(** [generate_monthly_assignments_enhanced]. [now] is [datetime.utcnow()],
    [today] the (year, month) of [datetime.today()]; [user_id] is falsy
    when it is [None] or 0. *)
Definition generate_monthly_assignments_enhanced (now : Z) (today : Z * Z)
    (team : Team) (months : Z) (user_id : option Z) : M Schedule :=
  let active := filter (λ e, e_is_active e = true) (members team) in
  let key := generate_cache_key (t_id team) months (length active)
               (shift_template team) (people_per_shift team) in
  cached_schedule ← get_cached_schedule now key;
  match cached_schedule with
  | Some (m :: ms) => mret (m :: ms)
  | _ =>
      let all_employees := sorted (λ a b, level_of a <=? level_of b) active in
      match all_employees with
      | [] => mret []
      | _ :: _ =>
          db ← get_db;
          schedule_result ←
            lift (_generate_with_constraints (history_table db) today team
                    all_employees months);
          match schedule_result with
          | [] => mret []
          | _ :: _ =>
              save_assignment_history (t_id team) now schedule_result ;;
              save_to_cache now key schedule_result "schedule" 24 ;;
              match user_id with
              | Some uid =>
                  if uid =? 0 then mret tt
                  else _log_api_usage now uid (t_id team) "generate"
                         (str_len schedule_result)
              | None => mret tt
              end ;;
              mret schedule_result
          end
      end
  end.

End Generation.

(** ** [EnhancedScheduleValidator] and the oracle-backed validation *)

(** Python string operations used on violation texts. *)

(** [s.partition(needle)] at the first occurrence: what is before and after. *)
Fixpoint find_sub (needle s : string) : option (string * string) :=
  if String.prefix needle s
  then Some (EmptyString, String.substring (String.length needle)
                            (String.length s - String.length needle) s)
  else match s with
       | EmptyString => None
       | String c s' =>
           match find_sub needle s' with
           | Some (before, after) => Some (String c before, after)
           | None => None
           end
       end.

(** [needle in s] *)
Definition contains (needle s : string) : bool :=
  match find_sub needle s with Some _ => true | None => false end.

(** ASCII white space as [str.split()] and [str.strip()] see it. *)
Definition is_space (c : ascii) : bool :=
  let n := nat_of_ascii c in
  ((9 <=? n) && (n <=? 13) || (28 <=? n) && (n <=? 32))%nat.

Fixpoint lstrip (s : string) : string :=
  match s with
  | EmptyString => EmptyString
  | String c s' => if is_space c then lstrip s' else s
  end.

Definition string_rev (s : string) : string :=
  string_of_list_ascii (rev (list_ascii_of_string s)).

Definition strip (s : string) : string :=
  string_rev (lstrip (string_rev (lstrip s))).

Fixpoint take_word (s : string) : string :=
  match s with
  | EmptyString => EmptyString
  | String c s' => if is_space c then EmptyString else String c (take_word s')
  end.

(** [s.split()[0]], [None] when the list is empty (IndexError). *)
Definition first_word (s : string) : option string :=
  match take_word (lstrip s) with
  | EmptyString => None
  | w => Some w
  end.

(** [s.split('RULE')[1]], for [s] that contains the separator. *)
Definition after_RULE (s : string) : option string :=
  match find_sub "RULE" s with
  | Some (_, after) =>
      match find_sub "RULE" after with
      | Some (segment, _) => Some segment
      | None => Some after
      end
  | None => None
  end.

Definition json_strings (l : list json) : list string :=
  omap (λ j, match j with JStr s => Some s | _ => None end) l.

Section Validation.

(** The world outside: [strptime], the builtin [int] ([None] when it
    raises), the call of the advisory model (configure, generate_content on
    the prompt built from the rule text, the schedule and the JSON of the
    local violations, then [response.text]) and [json.loads]. *)
Variable strptime_B_Y : string → option (Z * Z).
Variable py_int : string → option Z.
Variable ask_oracle : string → Schedule → list string → result string.
Variable json_loads : string → result json.

Definition _check_employee_rules (db : Db) (team_id : Z)
    (employee_name shift_name month_key : string) (is_floater : bool) : list string :=
  match employee_by_name (employee_table db) employee_name with
  | None => ["Employee " +:+ employee_name +:+ " not found in database"]
  | Some employee =>
      let history := history_query (history_table db) (e_id employee) team_id 3 in
      (* Rule 2: Check floater exemption *)
      (if is_floater && (level_of employee =? 1)
       then ["RULE 2 VIOLATION: " +:+ employee_name
             +:+ " (top hierarchy) cannot be assigned as floater in " +:+ month_key]
       else [])
      (* Rule 3: Check consecutive floater assignment *)
      ++ (match history with
          | last_month :: _ =>
              if is_floater && was_floater last_month
              then ["RULE 3 VIOLATION: " +:+ employee_name
                    +:+ " was floater last month, cannot be floater again in "
                    +:+ month_key]
              else []
          | [] => []
          end)
      (* Rule 4: Check shift rotation for non-stable employees *)
      ++ (match history with
          | last_assignment :: _ =>
              if negb is_floater
                 && (_get_stability_months (level_of employee) <=? 1)
                 && bool_decide (shift_assigned last_assignment = Some shift_name)
              then ["RULE 4 VIOLATION: " +:+ employee_name +:+ " had " +:+ shift_name
                    +:+ " shift last month, must rotate in " +:+ month_key]
              else []
          | [] => []
          end)
  end.

Definition validate_against_history (db : Db) (team_id : Z) (schedule : Schedule)
    : list string :=
  mjoin ((λ '(month_name, shifts),
    let month_key := _parse_month_key strptime_B_Y month_name in
    mjoin ((λ '(shift_name, shift_data),
      mjoin ((λ staff, _check_employee_rules db team_id (se_name staff) shift_name
                         month_key false) <$> assigned_staff shift_data)
      ++ mjoin ((λ floater, _check_employee_rules db team_id (se_name floater)
                              shift_name month_key true) <$> floaters shift_data))
      <$> (shifts : MonthlyAssignment)))
    <$> schedule).

(** [type(j).__name__] of a value that [json.loads] returned. *)
Definition py_type_name (j : json) : string :=
  match j with
  | JNull => "NoneType"
  | JBool _ => "bool"
  | JNum _ => "int"
  | JFloat _ => "float"
  | JStr _ => "str"
  | JList _ => "list"
  | JDict _ => "dict"
  end.

(** [_log_validation_result]: [validation_result.get] raises on anything
    that is not a dictionary. *)
Definition _log_validation_result (team_id now : Z) (validation_result : json) : M unit :=
  match validation_result with
  | JDict d =>
      commit (set_validation_log (λ t, t ++
        [mkScheduleValidationLog team_id validation_result
           (default (JNum 0) (dict_get "total_violations" d))
           (default (JBool false) (dict_get "is_valid" d)) now]))
  | _ => raise (mkExn "AttributeError"
                  ("'" +:+ py_type_name validation_result
                   +:+ "' object has no attribute 'get'"))
  end.

(** One row of [_save_rule_violations], for a string that mentions RULE and
    has a colon. *)
Definition rule_violation_row (team_id : Z) (today : Z * Z) (violation : string)
    : option RuleViolation :=
  if contains "RULE" violation then
    match find_sub ":" violation with
    | Some (rule_part, rest) =>
        let detail_part := strip rest in
        let rule_number :=
          if contains "RULE" rule_part then
            match after_RULE rule_part with
            | Some segment =>
                match first_word segment with
                | Some word => default 0 (py_int word)
                | None => 0
                end
            | None => 0
            end
          else 0 in
        Some (mkRuleViolation team_id rule_number rule_part detail_part
                (strftime_Y_m today.1 today.2))
    | None => None
    end
  else None.

(** [_save_rule_violations]: the loop only adds rows, the one commit is at
    the end; iterating a string yields its characters, none of which
    mentions RULE; iterating a dictionary yields its keys. *)
Definition _save_rule_violations (team_id : Z) (today : Z * Z) (violations : json)
    : M unit :=
  let save (strings : list string) : M unit :=
    commit (set_rule_violations (λ t, t ++ omap (rule_violation_row team_id today) strings)) in
  match violations with
  | JList l => save (json_strings l)
  | JDict d => save (d.*1)
  | JStr _ => save []
  | _ => raise (mkExn "TypeError"
                  ("'" +:+ py_type_name violations +:+ "' object is not iterable"))
  end.

Definition error_result (rule_violations : list string) (e : exn) : json :=
  JDict [("is_valid"%string, JBool false);
         ("total_violations"%string, JNum (Z.of_nat (length rule_violations)));
         ("violations"%string,
          JList (JStr <$> rule_violations ++ ["AI validation error: " +:+ exn_str e]));
         ("severity"%string, JStr "high");
         ("recommendations"%string,
          JList [JStr "Manual review required due to AI validation failure"])].

Definition validate_schedule_with_enhanced_ai (now : Z) (today : Z * Z)
    (schedule_data : Schedule) (team_id : Z) (api_key : string) : M json :=
  db ← get_db;
  (* First, validate against historical rules *)
  let rule_violations := validate_against_history db team_id schedule_data in
  (* Then validate with AI *)
  try_except
    (text ← lift (ask_oracle api_key schedule_data rule_violations);
     result ← lift (json_loads text);
     _log_validation_result team_id now result ;;
     _save_rule_violations team_id today
       (match result with
        | JDict d => default (JList []) (dict_get "violations" d)
        | _ => JList []
        end) ;;
     mret result)
    (λ e,
       _log_validation_result team_id now (error_result rule_violations e) ;;
       mret (error_result rule_violations e)).

End Validation.

(** ** The usage governor of [routes.py] *)

(** Rate limiting configuration: (limit, window in seconds). *)
Definition RATE_LIMITS : gmap string (Z * Z) :=
  list_to_map
    [("schedule_generation", (10, 3600));
     ("ai_validation", (20, 3600));
     ("schedule_fixes", (5, 3600))]%string.

(** Cost control thresholds. *)
Definition daily_limit : float := 10.0.
Definition monthly_limit : float := 100.0.
Definition warning_threshold : float := 0.8.

Definition check_rate_limit (usage : list APIUsageLog) (now user_id : Z)
    (action_type : string) : bool * string :=
  match RATE_LIMITS !! action_type with
  | None => (true, "Unknown action type"%string)
  | Some (limit, window) =>
      let window_start := now - timedelta_seconds window in
      (* Count recent API calls *)
      let recent_calls :=
        Z.of_nat (length (filter (λ u, u_user_id u = user_id
                                       ∧ api_type u = action_type
                                       ∧ window_start ≤ u_timestamp u) usage)) in
      if limit <=? recent_calls
      then (false, "Rate limit exceeded. Maximum " +:+ pretty limit +:+ " "
                     +:+ action_type +:+ " calls per hour.")
      else (true, pretty recent_calls +:+ "/" +:+ pretty limit
                    +:+ " calls used in current window")
  end.

Definition usec_per_day : Z := 86400 * 1000000.

(** [now.replace(hour=0, minute=0, second=0, microsecond=0)] *)
Definition day_start (now : Z) : Z := now - now mod usec_per_day.

(** The day of the month of the civil date that is [days] days after
    1970-01-01 (proleptic Gregorian calendar, as [datetime] has it). *)
Definition day_of_month (days : Z) : Z :=
  let z := days + 719468 in
  let era := z / 146097 in
  let doe := z - era * 146097 in
  let yoe := (doe - doe / 1460 + doe / 36524 - doe / 146096) / 365 in
  let doy := doe - (365 * yoe + yoe / 4 - yoe / 100) in
  let mp := (5 * doy + 2) / 153 in
  doy - (153 * mp + 2) / 5 + 1.

(** [now.replace(day=1, hour=0, minute=0, second=0, microsecond=0)] *)
Definition month_start (now : Z) : Z :=
  day_start now - (day_of_month (now / usec_per_day) - 1) * usec_per_day.

Section Governor.

(** The aggregate [SUM] of the database engine over the values of a [Float]
    column, for at least one row: a double, computed in the engine's own
    floating-point arithmetic and order. *)
Variable sql_sum : list float → float.

(** The rows that a cost query selects:
    [filter(user_id == ..., timestamp >= since)]. *)
Definition cost_rows (usage : list APIUsageLog) (user_id since : Z) : list APIUsageLog :=
  filter (λ u, u_user_id u = user_id ∧ since ≤ u_timestamp u) usage.

(** [db.session.query(db.func.sum(APIUsageLog.cost_estimate)).filter(
    user_id == ..., timestamp >= since).scalar()]: SQL's SUM of no row is
    NULL. *)
Definition sum_cost (usage : list APIUsageLog) (user_id since : Z) : option float :=
  match cost_rows usage user_id since with
  | [] => None
  | rows => Some (sql_sum (cost_estimate <$> rows))
  end.

(** [x or 0.0]: a float is falsy when it compares equal to zero. *)
Definition or_zero (x : option float) : float :=
  match x with
  | Some q => if (q =? 0)%float then 0.0%float else q
  | None => 0.0%float
  end.

(** The text [f"{label}: ${cost:.2f}/${limit:.2f}"] of a cost message, kept as
    the values it is formatted from. *)
Record CostText := mkCostText {
  ct_label : string;
  ct_cost : float;
  ct_limit : float
}.

(** The second component of what [check_cost_limits] returns: a string when
    a limit blocks, a list of warnings otherwise. *)
Inductive CostMessage :=
  | Blocked (text : CostText)
  | Warnings (texts : list CostText).

Definition check_cost_limits (usage : list APIUsageLog) (now user_id : Z)
    : bool * CostMessage :=
  (* Check daily costs *)
  let daily_cost := or_zero (sum_cost usage user_id (day_start now)) in
  (* Check monthly costs *)
  let monthly_cost := or_zero (sum_cost usage user_id (month_start now)) in
  (* Check limits *)
  if (daily_limit <=? daily_cost)%float
  then (false, Blocked (mkCostText "Daily cost limit exceeded" daily_cost daily_limit))
  else if (monthly_limit <=? monthly_cost)%float
  then (false, Blocked (mkCostText "Monthly cost limit exceeded" monthly_cost monthly_limit))
  else
    (* Warning thresholds *)
    (true, Warnings (
       (if (daily_limit * warning_threshold <=? daily_cost)%float
        then [mkCostText "Daily cost warning" daily_cost daily_limit] else [])
       ++ (if (monthly_limit * warning_threshold <=? monthly_cost)%float
           then [mkCostText "Monthly cost warning" monthly_cost monthly_limit] else []))).

End Governor.

(** ** The routes that gate generation *)

(** Why [batch_generate] lists a team in [failed_teams]; the entry is the text
    [f"{team.name} ({reason})"]. *)
Inductive FailReason := ScheduleExists | RateLimited | GenerationFailedFor.

Definition fail_reason_text (r : FailReason) : string :=
  match r with
  | ScheduleExists => "schedule exists"
  | RateLimited => "rate limited"
  | GenerationFailedFor => "generation failed"
  end.

Definition failed_team_text (entry : string * FailReason) : string :=
  entry.1 +:+ " (" +:+ fail_reason_text entry.2 +:+ ")".

Inductive GenerateOutcome :=
  | RateDenied (message : string)
  | CostDenied (message : CostMessage)
  | AlreadyExists
  | Saved (schedule : Schedule)
  | GenerationFailed.

Section Routes.

Variable strptime_B_Y : string → option (Z * Z).
Variable generate_cache_key : Z → Z → nat → string → Z → string.
Variable str_len : Schedule → Z.
Variable sql_sum : list float → float.

(** [Team.query.get(team_id)] *)
Definition team_get (db : Db) (team_id : Z) : option Team :=
  head (filter (λ t, t_id t = team_id) (team_table db)).

Definition has_saved_schedule (db : Db) (team_id : Z) : bool :=
  bool_decide (team_id ∈ s_team_id <$> saved_schedule_table db).

(** The POST branch of [generate_schedule]. A team id that names no team
    makes the generator raise on [team.id]. *)
Definition generate_schedule_post (now : Z) (today : Z * Z) (current_user : Z)
    (team_id months : Z) : M GenerateOutcome :=
  db ← get_db;
  (* Check rate limits *)
  let '(rate_ok, rate_message) := check_rate_limit (usage_table db) now current_user "generate" in
  if negb rate_ok then mret (RateDenied rate_message)
  else
    (* Check cost limits *)
    let '(cost_ok, cost_message) := check_cost_limits sql_sum (usage_table db) now current_user in
    if negb cost_ok then mret (CostDenied cost_message)
    else if has_saved_schedule db team_id then mret AlreadyExists
    else
      match team_get db team_id with
      | None => raise (mkExn "AttributeError" "'NoneType' object has no attribute 'id'")
      | Some selected_team =>
          schedule_by_month ←
            generate_monthly_assignments_enhanced strptime_B_Y generate_cache_key str_len
              now today selected_team months (Some current_user);
          match schedule_by_month with
          | [] => mret GenerationFailed
          | _ :: _ =>
              commit (set_saved_schedules
                        (λ t, t ++ [mkSavedSchedule team_id schedule_by_month])) ;;
              mret (Saved schedule_by_month)
          end
      end.

(** The loop of [batch_generate] over the selected team ids, after the
    cost check: the number of schedules saved and the list [failed_teams].
    [break] leaves the loop, [continue] goes to the next id. *)
Fixpoint batch_loop (now : Z) (today : Z * Z) (current_user months : Z)
    (selected_team_ids : list Z) (success_count : Z)
    (failed_teams : list (string * FailReason)) : M (Z * list (string * FailReason)) :=
  match selected_team_ids with
  | [] => mret (success_count, failed_teams)
  | team_id :: rest =>
      db ← get_db;
      match team_get db team_id with
      | None => batch_loop now today current_user months rest success_count failed_teams
      | Some team =>
          if has_saved_schedule db (t_id team) then
            batch_loop now today current_user months rest success_count
              (failed_teams ++ [(t_name team, ScheduleExists)])
          else
            (* Check rate limits for each generation *)
            let '(rate_ok, rate_message) :=
              check_rate_limit (usage_table db) now current_user "generate" in
            if negb rate_ok then
              mret (success_count, failed_teams ++ [(t_name team, RateLimited)])
            else
              schedule_result ←
                generate_monthly_assignments_enhanced strptime_B_Y generate_cache_key
                  str_len now today team months (Some current_user);
              match schedule_result with
              | [] =>
                  batch_loop now today current_user months rest success_count
                    (failed_teams ++ [(t_name team, GenerationFailedFor)])
              | _ :: _ =>
                  commit (set_saved_schedules
                            (λ t, t ++ [mkSavedSchedule (t_id team) schedule_result])) ;;
                  batch_loop now today current_user months rest (success_count + 1)
                    failed_teams
              end
      end
  end.

(** [batch_generate] (POST with at least one team selected); [None] when
    the cost check blocks the whole batch. *)
Definition batch_generate (now : Z) (today : Z * Z) (current_user months : Z)
    (selected_team_ids : list Z) : M (option (Z * list (string * FailReason))) :=
  db ← get_db;
  let '(cost_ok, cost_message) := check_cost_limits sql_sum (usage_table db) now current_user in
  if negb cost_ok then mret None
  else
    r ← batch_loop now today current_user months selected_team_ids 0 [];
    mret (Some r).

End Routes.

(** ** The routes that store and delete schedules without the generator *)

Inductive EmergencyOutcome :=
  | TeamNotFound                    (* get_or_404 *)
  | NotEnoughEmployees
  | EmergencySaved (schedule : Schedule).

(** The fallback template of [emergency_schedule]. *)
Definition emergency_shifts (template : string) : list string :=
  default ["Morning"; "Afternoon"; "Night"]%string (team_shifts_map !! template).

(** [l[i]] for a Python index: a negative index counts from the end. *)
Definition py_index {A} (l : list A) (i : Z) : result A :=
  let k := if i <? 0 then Z.of_nat (length l) + i else i in
  if k <? 0 then Raise (mkExn "IndexError" "list index out of range")
  else match l !! Z.to_nat k with
       | Some x => Ok x
       | None => Raise (mkExn "IndexError" "list index out of range")
       end.

(** The fixed members of shift number [i]: [people_per_shift] employees
    taken round the list of active employees. An index taken modulo the
    length of a list that is not empty is in range. *)
Definition emergency_shift_team (active_employees : list Employee) (people_per_shift : Z)
    (i : nat) : list StaffEntry :=
  omap (λ j : nat,
          let emp_index := (Z.of_nat i * people_per_shift + Z.of_nat j)
                           `mod` Z.of_nat (length active_employees) in
          staff_entry <$> active_employees !! Z.to_nat emp_index)
    (seq 0 (Z.to_nat people_per_shift)).

(** The entry of shift number [i]: its fixed members and, as floater, the
    employee at position [len(shifts) * people_per_shift + i] when that is
    less than the number of active employees. *)
Definition emergency_shift_data (active_employees : list Employee) (num_shifts : nat)
    (people_per_shift : Z) (i : nat) : result ShiftData :=
  let shift_team := emergency_shift_team active_employees people_per_shift i in
  let remaining_start := Z.of_nat num_shifts * people_per_shift in
  let floater_index := remaining_start + Z.of_nat i in
  if (remaining_start <? Z.of_nat (length active_employees))
     && (floater_index <? Z.of_nat (length active_employees))
  then
    match py_index active_employees floater_index with
    | Ok floater =>
        Ok {| assigned_staff := shift_team; floaters := [staff_entry floater] |}
    | Raise e => Raise e
    end
  else Ok {| assigned_staff := shift_team; floaters := [] |}.

(** The loop [for i, shift in enumerate(shifts)]. *)
Fixpoint emergency_assignments (active_employees : list Employee) (num_shifts : nat)
    (people_per_shift : Z) (shifts : list (nat * string))
    (monthly_assignment : MonthlyAssignment) : result MonthlyAssignment :=
  match shifts with
  | [] => Ok monthly_assignment
  | (i, shift) :: rest =>
      match emergency_shift_data active_employees num_shifts people_per_shift i with
      | Ok shift_data =>
          emergency_assignments active_employees num_shifts people_per_shift rest
            (dict_set shift shift_data monthly_assignment)
      | Raise e => Raise e
      end
  end.

Definition emergency_month (active_employees : list Employee) (shifts : list string)
    (people_per_shift : Z) : result MonthlyAssignment :=
  emergency_assignments active_employees (length shifts) people_per_shift
    (enumerate shifts) [].

(** The existing row of the team is overwritten, otherwise a row is added. *)
Fixpoint saved_schedule_upsert (team_id : Z) (schedule : Schedule)
    (table : list SavedSchedule) : list SavedSchedule :=
  match table with
  | [] => [mkSavedSchedule team_id schedule]
  | existing :: rest =>
      if decide (s_team_id existing = team_id)
      then mkSavedSchedule (s_team_id existing) schedule :: rest
      else existing :: saved_schedule_upsert team_id schedule rest
  end.

(** [emergency_schedule]; [today] is the (year, month) of [datetime.today()]. *)
Definition emergency_schedule (today : Z * Z) (team_id : Z) : M EmergencyOutcome :=
  db ← get_db;
  match team_get db team_id with
  | None => mret TeamNotFound
  | Some team =>
      let active_employees := filter (λ e, e_is_active e = true) (members team) in
      if (length active_employees <? 3)%nat then mret NotEnoughEmployees
      else
        let shifts := emergency_shifts (shift_template team) in
        let month_name := strftime_B_Y today.1 today.2 in
        monthly_assignment ←
          lift (emergency_month active_employees shifts (people_per_shift team));
        let schedule := [(month_name, monthly_assignment)] in
        commit (set_saved_schedules (saved_schedule_upsert team_id schedule)) ;;
        mret (EmergencySaved schedule)
  end.

(** [db.session.delete(row)] for the row that [first()] returned. *)
Fixpoint delete_first_saved (team_id : Z) (table : list SavedSchedule) : list SavedSchedule :=
  match table with
  | [] => []
  | row :: rest =>
      if decide (s_team_id row = team_id) then rest
      else row :: delete_first_saved team_id rest
  end.

(** [delete_schedule]: with a saved schedule of the team, its validation
    logs and rule violations go with it; the result tells whether there was
    one. *)
Definition delete_schedule (team_id : Z) : M bool :=
  db ← get_db;
  if bool_decide (team_id ∈ s_team_id <$> saved_schedule_table db) then
    commit (λ db,
      set_saved_schedules (delete_first_saved team_id)
        (set_rule_violations (filter (λ r, r_team_id r ≠ team_id))
           (set_validation_log (filter (λ v, v_team_id v ≠ team_id)) db))) ;;
    mret true
  else mret false.

(** ** Values the statements below refer to *)

(** The row that [save_to_cache] builds. *)
Definition new_cache_entry (now : Z) (key : string) (data : Schedule) (type : string)
    (expire_hours : Z) : ScheduleCache :=
  mkScheduleCache key data type now (now + timedelta_hours expire_hours) 0.

(** The floater lists of a month only hold entries of [candidates]. *)
Definition floaters_among (candidates : list Employee) (kv : string * ShiftData) : Prop :=
  ∀ entry, entry ∈ floaters kv.2 → entry ∈ staff_entry <$> candidates.

(** All entries of a month, fixed staff and floaters of every shift, and the
    number of times an entry appears among them. *)
Definition month_entries (month : MonthlyAssignment) : list StaffEntry :=
  mjoin ((λ kv, assigned_staff kv.2 ++ floaters kv.2) <$> month).

Definition appearances (entry : StaffEntry) (month : MonthlyAssignment) : nat :=
  length (filter (λ x, x = entry) (month_entries month)).

(** A small team used in the examples: three interns (level 3), their lead
    (level 2) and the chief (level 1). *)
Definition intern : Designation := mkDesignation "Intern" 3.
Definition ann : Employee := mkEmployee 1 "Ann" intern true.
Definition bob : Employee := mkEmployee 2 "Bob" intern true.
Definition cy : Employee := mkEmployee 3 "Cy" intern true.
Definition lin : Employee := mkEmployee 4 "Lin" (mkDesignation "Lead" 2) true.
Definition ada : Employee := mkEmployee 5 "Ada" (mkDesignation "Chief" 1) true.

Definition interns_team : Team := mkTeam 7 "Interns" "3-shift" 1 [ann; bob; cy].

(** Ann worked the Morning shift last month. *)
Definition ann_had_morning : EmployeeHistory :=
  mkEmployeeHistory 1 7 "2026-10" (Some "Morning"%string) false None 100.

(** The entry that the rotation loop writes for a team. *)
Definition shift_entry (team : list Employee) : ShiftData :=
  {| assigned_staff := staff_entry <$> team; floaters := [] |}.

(** One use of the cache: a lookup or a store, whatever it returns. *)
Inductive cache_step : Db → Db → Prop :=
  | step_lookup now key r db db' :
      get_cached_schedule now key db = (r, db') → cache_step db db'
  | step_store now key data type expire_hours r db db' :
      save_to_cache now key data type expire_hours db = (r, db') → cache_step db db'.


(** The key of the unique constraint of [EmployeeHistory]. *)
Definition history_key (h : EmployeeHistory) : Z * Z * string :=
  (h_employee_id h, h_team_id h, month_year h).

(** What a history row records about the month. *)
Definition history_fields (h : EmployeeHistory) : option string * bool * option string :=
  (shift_assigned h, was_floater h, floater_for_shift h).

(** How a commit of assignments for [team_id] may change the database: only
    the history table changes; it loses no key, keeps one row per key when it
    had one, and the rows of other teams stay as they are. *)
Definition history_commit (team_id : Z) (db db' : Db) : Prop :=
  db' = set_history (λ _, history_table db') db
  ∧ (history_key <$> history_table db) ⊆ (history_key <$> history_table db')
  ∧ (NoDup (history_key <$> history_table db) → NoDup (history_key <$> history_table db'))
  ∧ filter (λ h, h_team_id h ≠ team_id) (history_table db')
    = filter (λ h, h_team_id h ≠ team_id) (history_table db).

(** The label of the month [month_index] months after the month of [today],
    when its date can be built. *)
Definition month_label (start_year start_month : Z) (month_index : nat) : string :=
  strftime_B_Y (current_year start_year start_month month_index)
    (current_month start_month month_index).

(** [today] is a date, and the [months] months that start with its month end
    in a year that [datetime] accepts. *)
Definition months_in_range (today : Z * Z) (months : Z) : Prop :=
  MINYEAR ≤ today.1 ≤ MAXYEAR ∧ 1 ≤ today.2 ≤ 12
  ∧ current_year today.1 today.2 (Z.to_nat months - 1) ≤ MAXYEAR.

(** The exception of [datetime] for the first year after [MAXYEAR]. *)
Definition year_out_of_range : exn :=
  mkExn "ValueError" "year 10000 is out of range".

(** All floater entries of a month. *)
Definition month_floaters (month : MonthlyAssignment) : list StaffEntry :=
  mjoin ((λ kv, floaters kv.2) <$> month).

(** The usage rows that a generation writes for [user_id]: one row of type
    'generate', or none for a falsy user id. *)
Definition generate_usage_rows (now : Z) (user_id : option Z) (team_id tokens : Z)
    : list APIUsageLog :=
  match user_id with
  | Some uid =>
      if uid =? 0 then []
      else [mkAPIUsageLog uid team_id "generate" tokens
              (int_true_div tokens 1000 * 0.002)%float now true]
  | None => []
  end.

(** The sum of the hit counts of a cache table. *)
Definition total_hits (table : list ScheduleCache) : Z :=
  foldr Z.add 0 (hit_count <$> table).

(** What a cache row holds apart from its hit count. *)
Definition cache_content (c : ScheduleCache) : string * Schedule * string * Z * Z :=
  (cache_key c, cached_data c, cache_type c, c_created_at c, expires_at c).

(** The part of [generate_monthly_assignments_enhanced] that follows a
    lookup that gave no schedule. *)
Definition generate_after_lookup (strptime : string → option (Z * Z))
    (str_len : Schedule → Z) (now : Z) (today : Z * Z) (team : Team) (months : Z)
    (user_id : option Z) (key : string) (all_employees : list Employee) : M Schedule :=
  match all_employees with
  | [] => mret []
  | _ :: _ =>
      db ← get_db;
      schedule_result ←
        lift (_generate_with_constraints (history_table db) today team
                all_employees months);
      match schedule_result with
      | [] => mret []
      | _ :: _ =>
          save_assignment_history strptime (t_id team) now schedule_result ;;
          save_to_cache now key schedule_result "schedule" 24 ;;
          match user_id with
          | Some uid =>
              if uid =? 0 then mret tt
              else _log_api_usage now uid (t_id team) "generate"
                     (str_len schedule_result)
          | None => mret tt
          end ;;
          mret schedule_result
      end
  end.

(** All fixed-staff entries of a month, in the order of its shifts. *)
Definition month_fixed (month : MonthlyAssignment) : list StaffEntry :=
  mjoin ((λ kv, assigned_staff kv.2) <$> month).

(** The entry that [emergency_schedule] writes for shift number [i] when
    [people_per_shift] is not negative: the floater index is then a position
    from the front of the list. *)
Definition emergency_entry (active_employees : list Employee) (num_shifts : nat)
    (people_per_shift : Z) (i : nat) : ShiftData :=
  {| assigned_staff := emergency_shift_team active_employees people_per_shift i;
     floaters :=
       option_list
         (staff_entry
            <$> active_employees
                  !! (Z.to_nat (Z.of_nat num_shifts * people_per_shift) + i)%nat) |}.

(** The database with no row in any table. *)
Definition empty_db : Db := mkDb [] [] [] [] [] [] [] [].

(** * Properties *)

(** ** Usage governor *)

Lemma check_rate_limit_generate usage now user_id :
  check_rate_limit usage now user_id "generate" = (true, "Unknown action type"%string).
Proof. reflexivity. Qed.

Lemma batch_loop_never_rate_limited strptime key_of str_len now today user months ids :
  ∀ count failed db r db',
    batch_loop strptime key_of str_len now today user months ids count failed db
      = (Ok r, db') →
    Forall (λ entry, entry.2 ≠ RateLimited) failed →
    Forall (λ entry, entry.2 ≠ RateLimited) r.2.
Proof.
  induction ids as [|team_id ids IH]; intros count failed db r db' Hrun Hfailed.
  - injection Hrun as <- <-. exact Hfailed.
  - cbn [batch_loop] in Hrun. unfold mbind, M_bind, get_db in Hrun.
    destruct (team_get db team_id) as [team|]; [|by eapply IH].
    destruct (has_saved_schedule db (t_id team)).
    { eapply IH; [exact Hrun|]. apply Forall_app; split; [done|]. by repeat constructor. }
    rewrite check_rate_limit_generate in Hrun. cbn [negb] in Hrun.
    destruct (generate_monthly_assignments_enhanced _ _ _ _ _ _ _ _ db)
      as [[[|m ms]|e] db1]; [| |done].
    + eapply IH; [exact Hrun|]. apply Forall_app; split; [done|]. by repeat constructor.
    + unfold commit in Hrun. by eapply IH.
Qed.

(** C10: an action kind that the rate-limit table does not configure is always
    allowed, with the message "Unknown action type", whatever the usage log
    holds. The generation routes ask with the kind 'generate', which is not
    configured ('schedule_generation' is): the POST branch of
    [generate_schedule] never answers with a rate denial and [batch_generate]
    never lists a team as rate limited. *)
Theorem rate_check_allows_unconfigured_kind (usage : list APIUsageLog) (now user_id : Z)
    (action_type : string) (Hunknown : RATE_LIMITS !! action_type = None) :
  check_rate_limit usage now user_id action_type = (true, "Unknown action type"%string)
  ∧ RATE_LIMITS !! "generate"%string = None
  ∧ RATE_LIMITS !! "schedule_generation"%string = Some (10, 3600)
  ∧ (∀ strptime key_of str_len sql_sum today team_id months db message db',
       generate_schedule_post strptime key_of str_len sql_sum now today user_id team_id
         months db
         ≠ (Ok (RateDenied message), db'))
  ∧ (∀ strptime key_of str_len sql_sum today months ids db r db',
       batch_generate strptime key_of str_len sql_sum now today user_id months ids db
         = (Ok (Some r), db') →
       Forall (λ entry, entry.2 ≠ RateLimited) r.2).
Proof.
  split_and!.
  - unfold check_rate_limit. by rewrite Hunknown.
  - reflexivity.
  - reflexivity.
  - intros strptime key_of str_len sql_sum today team_id months db message db'.
    unfold generate_schedule_post, mbind, M_bind, get_db.
    rewrite check_rate_limit_generate. cbn [negb].
    destruct (check_cost_limits sql_sum (usage_table db) now user_id) as [[] cost_message];
      cbn [negb]; [|discriminate].
    destruct (has_saved_schedule db team_id); [discriminate|].
    destruct (team_get db team_id) as [team|]; [|discriminate].
    destruct (generate_monthly_assignments_enhanced _ _ _ _ _ _ _ _ db)
      as [[[|m ms]|e] db1]; discriminate.
  - intros strptime key_of str_len sql_sum today months ids db r db'.
    unfold batch_generate, mbind, M_bind, get_db.
    destruct (check_cost_limits sql_sum (usage_table db) now user_id) as [[] cost_message];
      cbn [negb]; [|discriminate].
    destruct (batch_loop _ _ _ _ _ _ _ _ _ _ db) as [[r1|e] db1] eqn:Hloop; [|discriminate].
    intros [= <- <-]. eapply batch_loop_never_rate_limited; [exact Hloop|constructor].
Qed.

Lemma rate_check_allows_unconfigured_kind_witness :
  check_rate_limit [] 0 1 "generate" = (true, "Unknown action type"%string).
Proof.
  exact (proj1 (rate_check_allows_unconfigured_kind [] 0 1 "generate" eq_refl)).
Defined.

(** C8: when the user's summed cost of the current day, as the database
    returns it, equals the daily threshold exactly, or the summed cost of the
    current month equals the monthly threshold exactly, [check_cost_limits]
    denies: both boundaries are inclusive. The sums and the thresholds are
    doubles, and they are compared as doubles. *)
Theorem cost_limit_boundary_is_inclusive (sql_sum : list float → float)
    (usage : list APIUsageLog) (now user_id : Z)
    (Hboundary :
       or_zero (sum_cost sql_sum usage user_id (day_start now)) = daily_limit
       ∨ or_zero (sum_cost sql_sum usage user_id (month_start now)) = monthly_limit) :
  (check_cost_limits sql_sum usage now user_id).1 = false.
Proof.
  unfold check_cost_limits.
  destruct Hboundary as [->| ->].
  - reflexivity.
  - by destruct (daily_limit <=? _)%float.
Qed.

Lemma cost_limit_boundary_is_inclusive_witness :
  let usage := [mkAPIUsageLog 1 7 "generate" 5000000 10.0 1793800000000000 true] in
  or_zero (sum_cost (foldl PrimFloat.add 0.0%float) usage 1 (day_start 1793810000000000))
  = 10.0%float
  ∧ (check_cost_limits (foldl PrimFloat.add 0.0%float) usage 1793810000000000 1).1 = false.
Proof.
  split; [reflexivity|].
  apply (cost_limit_boundary_is_inclusive _ _ 1793810000000000 1).
  left. reflexivity.
Defined.

(** ** History context *)

Lemma length_insert_by {A} (le : A → A → bool) (x : A) (l : list A) :
  length (insert_by le x l) = S (length l).
Proof. induction l as [|y l IH]; cbn; [done|]. destruct (le x y); cbn; congruence. Qed.

Lemma length_sorted {A} (le : A → A → bool) (l : list A) :
  length (sorted le l) = length l.
Proof.
  induction l as [|x l IH]; [done|].
  unfold sorted in *. cbn. by rewrite length_insert_by, IH.
Qed.

Lemma insert_by_Permutation {A} (le : A → A → bool) (x : A) (l : list A) :
  insert_by le x l ≡ₚ x :: l.
Proof.
  induction l as [|y l IH]; cbn; [done|].
  destruct (le x y); [done|]. rewrite IH. apply Permutation_swap.
Qed.

Lemma sorted_Permutation {A} (le : A → A → bool) (l : list A) : sorted le l ≡ₚ l.
Proof.
  induction l as [|x l IH]; [done|].
  unfold sorted in *. cbn. rewrite insert_by_Permutation. by f_equiv.
Qed.

Lemma months_since_floater_from_none (i : nat) (history : list EmployeeHistory) :
  Forall (λ h, was_floater h = false) history →
  months_since_floater_from i history = None.
Proof.
  intros H. revert i. induction H as [|h history Hh _ IH]; intros i; cbn; [done|].
  by rewrite Hh.
Qed.

(** C6, the counterexample: an employee without any history row has never
    floated, and the context reports 0 months since floating, not 3. *)
Lemma no_history_reports_zero_months :
  let context := get_employee_context [] 7 1 in
  floater_history context = []
  ∧ months_since_floater context = 0%nat
  ∧ months_since_floater context ≠ 3%nat.
Proof. by vm_compute. Qed.

(** C6, as the code has it: when none of the rows read for the employee
    (the three newest ones of the team) is a floater row, the months since
    floating are the number of rows read, that is the smaller of 3 and the
    number of history rows of the employee in the team. *)
Theorem never_floated_reports_rows_read (table : list EmployeeHistory) (team_id employee_id : Z)
    (Hnever : Forall (λ h, was_floater h = false) (history_query table employee_id team_id 3)) :
  months_since_floater (get_employee_context table team_id employee_id)
  = (3 `min` length (filter (λ h, h_employee_id h = employee_id ∧ h_team_id h = team_id)
                      table))%nat.
Proof.
  unfold get_employee_context, get_employee_context_n. cbn [months_since_floater].
  unfold _calculate_months_since_floater.
  rewrite months_since_floater_from_none by exact Hnever.
  unfold history_query. by rewrite length_take, length_sorted.
Qed.

Lemma never_floated_reports_rows_read_witness :
  let table := [mkEmployeeHistory 1 7 "2026-10" (Some "Morning"%string) false None 100] in
  Forall (λ h, was_floater h = false) (history_query table 1 7 3)
  ∧ months_since_floater (get_employee_context table 7 1) = 1%nat.
Proof.
  assert (Hnever : Forall (λ h, was_floater h = false)
            (history_query
               [mkEmployeeHistory 1 7 "2026-10" (Some "Morning"%string) false None 100] 1 7 3))
    by (repeat constructor).
  split; [exact Hnever|].
  exact (never_floated_reports_rows_read _ 7 1 Hnever).
Defined.

(** ** Cache *)

Lemma filter_none {A} (P : A → Prop) `{!∀ x, Decision (P x)} (l : list A) :
  (∀ x, x ∈ l → ¬ P x) → filter P l = [].
Proof.
  induction l as [|x l IH]; intros Hnone; [done|].
  rewrite filter_cons_False by (apply Hnone; by left).
  apply IH. intros y Hy. apply Hnone. by right.
Qed.

(** What a store does: it is refused when the key is present, and otherwise
    adds one row and touches no other. *)
Lemma save_to_cache_fresh now key data type expire_hours db :
  key ∉ (cache_key <$> cache_table db) →
  save_to_cache now key data type expire_hours db
  = (Ok tt, set_cache (λ t, t ++ [new_cache_entry now key data type expire_hours]) db).
Proof.
  intros Hfresh. unfold save_to_cache, mbind, M_bind, get_db.
  by rewrite decide_False.
Qed.

Lemma save_to_cache_present now key data type expire_hours db :
  key ∈ (cache_key <$> cache_table db) →
  save_to_cache now key data type expire_hours db
  = (Raise (mkExn "IntegrityError" "Duplicate entry for key cache_key"), db).
Proof.
  intros Hin. unfold save_to_cache, mbind, M_bind, get_db.
  by rewrite decide_True.
Qed.

Lemma save_to_cache_inv now key data type expire_hours db db' :
  save_to_cache now key data type expire_hours db = (Ok tt, db') →
  (key ∉ (cache_key <$> cache_table db))
  ∧ db' = set_cache (λ t, t ++ [new_cache_entry now key data type expire_hours]) db.
Proof.
  intros Hsave. destruct (decide (key ∈ (cache_key <$> cache_table db))) as [Hin|Hfresh].
  - rewrite save_to_cache_present in Hsave by done. discriminate.
  - rewrite save_to_cache_fresh in Hsave by done. by injection Hsave as <-.
Qed.

Lemma cache_first_fresh_key (table : list ScheduleCache) (entry : ScheduleCache) :
  cache_key entry ∉ (cache_key <$> table) →
  cache_type entry = "schedule"%string →
  cache_first (table ++ [entry]) (cache_key entry) = Some entry.
Proof.
  intros Hfresh Htype. unfold cache_first. rewrite filter_app.
  assert (filter (λ c, cache_key c = cache_key entry ∧ cache_type c = "schedule"%string)
            table = []) as ->.
  { apply filter_none. intros c Hc [Hkey _].
    apply Hfresh. rewrite <- Hkey. by apply list_elem_of_fmap_2. }
  rewrite app_nil_l, filter_cons_True by done. done.
Qed.

Lemma bump_first_keys (key : string) (table : list ScheduleCache) :
  cache_key <$> bump_first key table = cache_key <$> table.
Proof.
  induction table as [|c table IH]; cbn; [done|].
  case_decide; cbn; [done|]. by rewrite IH.
Qed.

(** A lookup returns; a hit only bumps the hit count of the row it read. *)
Lemma get_cached_schedule_cases (now : Z) (key : string) (db : Db) :
  get_cached_schedule now key db = (Ok None, db)
  ∨ ∃ data, get_cached_schedule now key db = (Ok (Some data), set_cache (bump_first key) db).
Proof.
  unfold get_cached_schedule, mbind, M_bind, get_db.
  destruct (cache_first (cache_table db) key) as [entry|]; [|by left].
  destruct (expires_at entry >? now); [|by left]. right. by eexists.
Qed.


Lemma cache_first_is_stored (key : string) (table : list ScheduleCache) (c : ScheduleCache) :
  cache_first table key = Some c → key ∈ cache_key <$> table.
Proof.
  unfold cache_first. intros Hhead%head_Some_elem_of.
  apply list_elem_of_filter in Hhead as [[<- _] Hin]. by apply list_elem_of_fmap_2.
Qed.








(** C5, the counterexample: the second store under a key that is already
    stored does not succeed; it raises, and the table still holds the first
    entry only. *)
Lemma second_store_is_refused :
  let first : Schedule := [("November 2026"%string, [])] in
  let second : Schedule := [("December 2026"%string, [])] in
  ∃ db1,
    save_to_cache 0 "k" first "schedule" 24 empty_db = (Ok tt, db1)
    ∧ (save_to_cache 5 "k" second "schedule" 24 db1).1
      = Raise (mkExn "IntegrityError" "Duplicate entry for key cache_key")
    ∧ cache_table (save_to_cache 5 "k" second "schedule" 24 db1).2
      = [new_cache_entry 0 "k" first "schedule" 24].
Proof. eexists. split; [reflexivity|]. split; reflexivity. Qed.

(** C5, as the code has it: a store never updates in place. The first store
    of a key adds one row after the existing ones, which stay as they are; a
    later store under the same key, whatever its payload, type and time to
    live, is refused by the unique index and leaves the table unchanged, so
    that entries of one key do not accumulate. *)
Theorem store_inserts_once_per_key (db db1 : Db) (now1 now2 : Z) (key : string)
    (data1 data2 : Schedule) (type1 type2 : string) (hours1 hours2 : Z)
    (Hfirst : save_to_cache now1 key data1 type1 hours1 db = (Ok tt, db1)) :
  cache_table db1 = cache_table db ++ [new_cache_entry now1 key data1 type1 hours1]
  ∧ save_to_cache now2 key data2 type2 hours2 db1
    = (Raise (mkExn "IntegrityError" "Duplicate entry for key cache_key"), db1)
  ∧ length (filter (λ c, cache_key c = key) (cache_table db1)) = 1%nat.
Proof.
  apply save_to_cache_inv in Hfirst as [Hfresh ->]. cbn [cache_table set_cache].
  split_and!.
  - done.
  - apply save_to_cache_present. cbn [cache_table set_cache].
    rewrite fmap_app. apply elem_of_app. right. cbn. by left.
  - rewrite filter_app, length_app.
    assert (filter (λ c, cache_key c = key) (cache_table db) = []) as ->.
    { apply filter_none. intros c Hc Hkey.
      apply Hfresh. rewrite <- Hkey. by apply list_elem_of_fmap_2. }
    rewrite filter_cons_True by done. done.
Qed.

Lemma store_inserts_once_per_key_witness :
  let first : Schedule := [("November 2026"%string, [])] in
  let second : Schedule := [("December 2026"%string, [])] in
  let db1 := set_cache (λ t, t ++ [new_cache_entry 0 "k" first "schedule" 24]) empty_db in
  save_to_cache 5 "k" second "schedule" 48 db1
  = (Raise (mkExn "IntegrityError" "Duplicate entry for key cache_key"), db1).
Proof.
  exact (proj1 (proj2 (store_inserts_once_per_key empty_db _ 0 5 "k"
           [("November 2026"%string, [])] [("December 2026"%string, [])]
           "schedule" "schedule" 24 48 eq_refl))).
Defined.

(** ** Validation with the advisory oracle *)

(** C9: when the oracle call raises, or the text it returns is refused by
    [json.loads], or parses to something that is not a dictionary (so that
    reading the report raises), [validate_schedule_with_enhanced_ai] still
    returns: its result is the report built from the local pass. The report
    lists every violation found locally, counts them, has severity "high" and
    is not valid, and one row is written to the validation log. *)
Theorem oracle_failure_degrades_to_local_report
    (strptime : string → option (Z * Z)) (py_int : string → option Z)
    (ask_oracle : string → Schedule → list string → result string)
    (json_loads : string → result json)
    (now : Z) (today : Z * Z) (schedule_data : Schedule) (team_id : Z) (api_key : string)
    (db : Db) (e : exn)
    (Hfails :
       let local := validate_against_history strptime db team_id schedule_data in
       ask_oracle api_key schedule_data local = Raise e
       ∨ (∃ text, ask_oracle api_key schedule_data local = Ok text
                  ∧ json_loads text = Raise e)
       ∨ (∃ text j, ask_oracle api_key schedule_data local = Ok text
                    ∧ json_loads text = Ok j
                    ∧ (∀ d, j ≠ JDict d)
                    ∧ e = mkExn "AttributeError"
                            ("'" +:+ py_type_name j
                             +:+ "' object has no attribute 'get'"))) :
  let local := validate_against_history strptime db team_id schedule_data in
  let report := error_result local e in
  validate_schedule_with_enhanced_ai strptime py_int ask_oracle json_loads
    now today schedule_data team_id api_key db
  = (Ok report,
     set_validation_log (λ t, t ++
       [mkScheduleValidationLog team_id report (JNum (Z.of_nat (length local)))
          (JBool false) now]) db)
  ∧ (∃ d, report = JDict d
          ∧ dict_get "severity" d = Some (JStr "high")
          ∧ dict_get "is_valid" d = Some (JBool false)
          ∧ dict_get "total_violations" d = Some (JNum (Z.of_nat (length local)))
          ∧ ∃ listed, dict_get "violations" d = Some (JList listed)
                      ∧ ∀ v, v ∈ local → JStr v ∈ listed).
Proof.
  intros local report. split.
  - unfold validate_schedule_with_enhanced_ai, mbind, M_bind, get_db, try_except, lift.
    fold local.
    destruct Hfails as [Hcall|[(text & Hcall & Hloads)|(text & j & Hcall & Hloads & Hj & ->)]];
      fold local in Hcall; rewrite Hcall; [done| |].
    + rewrite Hloads. done.
    + rewrite Hloads. destruct j; try done. by destruct (Hj d).
  - eexists. split; [reflexivity|]. split_and!; try reflexivity.
    eexists. split; [reflexivity|].
    intros v Hv. apply list_elem_of_fmap_2, elem_of_app. by left.
Qed.

Lemma oracle_failure_degrades_to_local_report_witness :
  let chief := mkEmployee 1 "Ada" (mkDesignation "Chief" 1) true in
  let db := mkDb [chief] [] [] [] [] [] [] [] in
  let schedule : Schedule :=
    [("November 2026"%string,
      [("Morning"%string, mkShiftData [] [mkStaffEntry "Ada" "Chief"])])] in
  let timeout := mkExn "DeadlineExceeded" "504 Deadline Exceeded" in
  (validate_schedule_with_enhanced_ai (λ _, Some (2026, 11)) (λ _, None)
     (λ _ _ _, Raise timeout) (λ _, Ok JNull)
     1793810000000000 (2026, 11) schedule 7 "secret" db).1
  = Ok (JDict
      [("is_valid"%string, JBool false);
       ("total_violations"%string, JNum 1);
       ("violations"%string,
        JList [JStr "RULE 2 VIOLATION: Ada (top hierarchy) cannot be assigned as floater in 2026-11";
               JStr "AI validation error: 504 Deadline Exceeded"]);
       ("severity"%string, JStr "high");
       ("recommendations"%string,
        JList [JStr "Manual review required due to AI validation failure"])]).
Proof.
  cbv zeta.
  rewrite (proj1 (oracle_failure_degrades_to_local_report (λ _, Some (2026, 11)) (λ _, None)
           (λ _ _ _, Raise (mkExn "DeadlineExceeded" "504 Deadline Exceeded")) (λ _, Ok JNull)
           1793810000000000 (2026, 11) _ 7 "secret" _
           (mkExn "DeadlineExceeded" "504 Deadline Exceeded") (or_introl eq_refl))).
  reflexivity.
Defined.

(** ** The generator *)

Lemma elem_of_dict_set {V} (k : string) (v : V) (d : list (string * V)) (kv : string * V) :
  kv ∈ dict_set k v d → kv = (k, v) ∨ kv ∈ d.
Proof.
  induction d as [|[k' v'] d IH]; cbn.
  - intros ->%list_elem_of_singleton. by left.
  - case_decide.
    + intros [->|Hin]%elem_of_cons; [by left|]. right. by right.
    + intros [->|Hin]%elem_of_cons; [right; by left|].
      destruct (IH Hin) as [->|Hd]; [by left|]. right. by right.
Qed.

Lemma Forall_dict_set {V} (P : string * V → Prop) (k : string) (v : V)
    (d : list (string * V)) :
  P (k, v) → Forall P d → Forall P (dict_set k v d).
Proof.
  intros Hv Hd. apply Forall_forall. intros kv [->|Hin]%elem_of_dict_set; [done|].
  by eapply Forall_forall in Hd.
Qed.

Lemma Forall_dict_update {V} (P : string * V → Prop) (k : string) (f : V → V)
    (d : list (string * V)) :
  (∀ k' v', P (k', v') → P (k', f v')) → Forall P d → Forall P (dict_update k f d).
Proof.
  intros Hf. induction 1 as [|[k' v'] d Hkv Hd IH]; cbn; [constructor|].
  case_decide; constructor; auto.
Qed.

(** Floaters are chosen among the employees whose level is above 1. *)
Lemma select_floaters_eligible employees contexts num_floaters e :
  e ∈ select_floaters employees contexts num_floaters →
  e ∈ employees ∧ 1 < level_of e.
Proof.
  unfold select_floaters. destruct (0 <? num_floaters); [|by intros ?%elem_of_nil].
  intros Hin%subseteq_take. rewrite sorted_Permutation in Hin.
  apply list_elem_of_filter in Hin as [Hlevel Hin]. done.
Qed.

Lemma apply_rotation_floaters candidates contexts shifts :
  ∀ i shift_teams monthly_assignments,
    Forall (floaters_among candidates) monthly_assignments →
    Forall (floaters_among candidates)
      (apply_rotation contexts i shifts shift_teams monthly_assignments).
Proof.
  induction shifts as [|shift_name shifts IH]; intros i shift_teams ma Hma; cbn; [done|].
  destruct (shift_teams !! i) as [team|]; [|done].
  apply IH. apply Forall_dict_set; [|done].
  intros entry Hentry. cbn in Hentry. by apply elem_of_nil in Hentry.
Qed.

Lemma distribute_floaters_floaters candidates shifts floater_candidates :
  ∀ monthly_assignments,
    floater_candidates ⊆ candidates →
    Forall (floaters_among candidates) monthly_assignments →
    Forall (floaters_among candidates)
      (distribute_floaters shifts floater_candidates monthly_assignments).
Proof.
  unfold distribute_floaters, enumerate. generalize 0%nat.
  induction floater_candidates as [|floater rest IH]; intros i ma Hsub Hma; cbn; [done|].
  apply IH; [set_solver|].
  destruct (shifts !! (i mod length shifts)%nat) as [shift_name|]; [|done].
  apply Forall_dict_update; [|done].
  intros k' sd Hsd entry. cbn. intros [Hold| ->%list_elem_of_singleton]%elem_of_app.
  - by apply Hsd.
  - apply list_elem_of_fmap_2, Hsub. by left.
Qed.

Lemma month_floaters_are_eligible employees contexts shifts people_per_shift required_fixed
    month_index shift_name shift_data entry :
  (shift_name, shift_data)
    ∈ _generate_month_with_constraints employees contexts shifts people_per_shift
        required_fixed month_index →
  entry ∈ floaters shift_data →
  ∃ e, e ∈ employees ∧ entry = staff_entry e ∧ 1 < level_of e.
Proof.
  unfold _generate_month_with_constraints. intros Hshift Hentry.
  set (candidates :=
         select_floaters employees contexts (Z.of_nat (length employees) - required_fixed))
    in *.
  assert (Hall : Forall (floaters_among candidates)
            (distribute_floaters shifts candidates
               (apply_rotation contexts 0 shifts
                  (group_fixed_staff (length shifts)
                     (filter (λ e, e ∉ candidates) employees)) []))).
  { apply distribute_floaters_floaters; [done|].
    apply apply_rotation_floaters. constructor. }
  eapply Forall_forall in Hall; [|exact Hshift].
  apply Hall in Hentry. apply list_elem_of_fmap in Hentry as (e & -> & He).
  apply select_floaters_eligible in He as [He Hlevel]. eauto.
Qed.

(** The months of a run that returns: each is what
    [_generate_month_with_constraints] returns on the arguments of the run, or
    was in the dictionary before. *)
Lemma generate_months_month all_employees contexts shifts people_per_shift required
    start_year start_month indices :
  ∀ acc schedule label month,
    generate_months all_employees contexts shifts people_per_shift required
      start_year start_month indices acc = Ok schedule →
    (label, month) ∈ schedule →
    (label, month) ∈ acc
    ∨ month = _generate_month_with_constraints all_employees contexts shifts
                people_per_shift required 0.
Proof.
  induction indices as [|month_index indices IH]; intros acc schedule label month; cbn.
  { intros [= <-]. by left. }
  destruct (month_name_at start_year start_month month_index) as [month_name|e]; [|done].
  destruct (_generate_month_with_constraints all_employees contexts shifts
              people_per_shift required month_index) as [|kv m] eqn:Hmonth.
  { by intros [= <-] ?%elem_of_nil. }
  intros Hrun Hin. destruct (IH _ _ _ _ Hrun Hin) as [Hacc|Hnew]; [|by right].
  apply elem_of_dict_set in Hacc as [[= -> ->]|Hacc]; [|by left].
  right. rewrite <- Hmonth. reflexivity.
Qed.

Lemma generate_with_constraints_month table today team all_employees months schedule
    label month :
  _generate_with_constraints table today team all_employees months = Ok schedule →
  (label, month) ∈ schedule →
  month = _generate_month_with_constraints all_employees
            (employee_contexts table (t_id team) all_employees)
            (desirable_shifts (shift_template team)) (people_per_shift team)
            (Z.of_nat (length (desirable_shifts (shift_template team)))
             * people_per_shift team) 0.
Proof.
  unfold _generate_with_constraints.
  destruct (length (desirable_shifts (shift_template team)) =? 0)%nat;
    [by intros [= <-] ?%elem_of_nil|].
  intros Hrun Hin.
  destruct (generate_months_month _ _ _ _ _ _ _ _ _ _ _ _ Hrun Hin) as [Hnil|Hmonth];
    [by apply elem_of_nil in Hnil|done].
Qed.

(** C7: in every month of every schedule that the generator returns, every
    entry of a floater list is the entry of an employee of the roster whose
    hierarchy level is strictly greater than 1. *)
Theorem floaters_are_never_top_level (table : list EmployeeHistory) (today : Z * Z)
    (team : Team) (all_employees : list Employee) (months : Z) (schedule : Schedule)
    (label shift_name : string) (month : MonthlyAssignment) (shift_data : ShiftData)
    (entry : StaffEntry)
    (Hrun : _generate_with_constraints table today team all_employees months = Ok schedule)
    (Hmonth : (label, month) ∈ schedule)
    (Hshift : (shift_name, shift_data) ∈ month)
    (Hentry : entry ∈ floaters shift_data) :
  ∃ e, e ∈ all_employees ∧ entry = staff_entry e ∧ 1 < level_of e.
Proof.
  apply (generate_with_constraints_month _ _ _ _ _ _ _ _ Hrun) in Hmonth. subst month.
  by eapply month_floaters_are_eligible.
Qed.

Lemma floaters_are_never_top_level_witness :
  ∃ e, e ∈ [ada; lin; ann; bob] ∧ mkStaffEntry "Lin" "Lead" = staff_entry e ∧ 1 < level_of e.
Proof.
  apply (floaters_are_never_top_level [] (2026, 11)
           (mkTeam 8 "Desk" "3-shift" 1 [ada; lin; ann; bob]) [ada; lin; ann; bob] 1
           [("November 2026"%string,
             [("Morning"%string, mkShiftData [staff_entry ada] [staff_entry lin]);
              ("Afternoon"%string, mkShiftData [staff_entry ann] []);
              ("Night"%string, mkShiftData [staff_entry bob] [])])]
           "November 2026" "Morning"
           [("Morning"%string, mkShiftData [staff_entry ada] [staff_entry lin]);
            ("Afternoon"%string, mkShiftData [staff_entry ann] []);
            ("Night"%string, mkShiftData [staff_entry bob] [])]
           (mkShiftData [staff_entry ada] [staff_entry lin])).
  - by vm_compute.
  - by left.
  - by left.
  - cbn. by left.
Defined.

(** C1 at a roster the generator can receive: three interns on a 3-shift
    team with one person per shift (3 ≥ 3 × 1), Ann having worked Morning last
    month. The rotation step exchanges the first two slots of [shift_teams],
    but the entry of Morning is written from the team read before the
    exchange and the next step reads that same team again: Ann is listed under
    Morning and under Afternoon, and Bob under no shift. *)
Theorem rotation_swap_duplicates_and_omits :
  let roster := [ann; bob; cy] in
  let schedule :=
    _generate_with_constraints [ann_had_morning] (2026, 11) interns_team roster 1 in
  Z.of_nat (length (desirable_shifts (shift_template interns_team)))
    * people_per_shift interns_team ≤ Z.of_nat (length roster)
  ∧ ∃ month,
      schedule = Ok [("November 2026"%string, month)]
      ∧ assigned_staff <$> dict_get "Morning" month = Some [staff_entry ann]
      ∧ assigned_staff <$> dict_get "Afternoon" month = Some [staff_entry ann]
      ∧ appearances (staff_entry ann) month = 2%nat
      ∧ appearances (staff_entry bob) month = 0%nat.
Proof.
  split; [by vm_compute|].
  eexists. split; [by vm_compute|]. by vm_compute.
Qed.

(** C2 at a run of two months: three interns without history, on a 3-shift
    team with one person per shift. December is generated from the context
    that was read before November: both months are the same assignment, and
    Ann, who must rotate every month, has Morning in both. *)
Theorem second_month_repeats_first :
  let schedule := _generate_with_constraints [] (2026, 11) interns_team [ann; bob; cy] 2 in
  ∃ month,
    schedule = Ok [("November 2026"%string, month); ("December 2026"%string, month)]
    ∧ _get_stability_months (level_of ann) = 1
    ∧ assigned_staff <$> dict_get "Morning" month = Some [staff_entry ann].
Proof. eexists. split; [by vm_compute|]. by vm_compute. Qed.

(** ** Failure of generation *)

Lemma desirable_shifts_unknown (template : string) :
  team_shifts_map !! template = None → desirable_shifts template = [].
Proof.
  intros Hunknown. unfold desirable_shifts. rewrite Hunknown. cbn [default].
  apply filter_none. intros s _ Hs. by apply elem_of_nil in Hs.
Qed.

Lemma generate_with_constraints_unknown table today team all_employees months :
  team_shifts_map !! shift_template team = None →
  _generate_with_constraints table today team all_employees months = Ok [].
Proof.
  intros Hunknown. unfold _generate_with_constraints.
  by rewrite desirable_shifts_unknown.
Qed.

(** C3, the counterexample: a 3-shift team with two people per shift needs
    six people and has one active member. The generator raises nothing: it
    returns a schedule (Ann alone on Morning, the other shifts empty), and the
    history row and the cache entry are written. *)
Lemma understaffed_team_is_scheduled :
  let team := mkTeam 9 "Solo" "3-shift" 2 [ann] in
  let db := mkDb [ann] [team] [] [] [] [] [] [] in
  let run :=
    generate_monthly_assignments_enhanced (λ _, Some (2026, 11)) (λ _ _ _ _ _, "fp"%string)
      (λ _, 120) 1793810000000000 (2026, 11) team 1 (Some 1) db in
  Z.of_nat (length (members team))
    < Z.of_nat (length (desirable_shifts (shift_template team))) * people_per_shift team
  ∧ run.1 = Ok [("November 2026"%string,
                 [("Morning"%string, mkShiftData [staff_entry ann] []);
                  ("Afternoon"%string, mkShiftData [] []);
                  ("Night"%string, mkShiftData [] [])])]
  ∧ history_table run.2
    = [mkEmployeeHistory 1 9 "2026-11" (Some "Morning"%string) false None 1793810000000000]
  ∧ length (cache_table run.2) = 1%nat.
Proof. split; [by vm_compute|]. split_and!; by vm_compute. Qed.

(** ** Months in which no rotation fires

    When no member of the roster is due for rotation, each slot of
    [shift_teams] is written under its own shift, and the month lists every
    member of the roster exactly once. *)

Lemma dict_set_fresh {V} (k : string) (v : V) (d : list (string * V)) :
  k ∉ d.*1 → dict_set k v d = d ++ [(k, v)].
Proof.
  induction d as [|[k' v'] d IH]; cbn; intros Hfresh; [done|].
  case_decide as Hk.
  - exfalso. apply Hfresh. subst. by left.
  - f_equal. apply IH. intros Hin. apply Hfresh. by right.
Qed.

Lemma dict_update_keys {V} (k : string) (f : V → V) (d : list (string * V)) :
  (dict_update k f d).*1 = d.*1.
Proof.
  induction d as [|[k' v'] d IH]; cbn; [done|].
  case_decide; cbn; [done|]. by rewrite IH.
Qed.

Lemma month_entries_app (m1 m2 : MonthlyAssignment) :
  month_entries (m1 ++ m2) = month_entries m1 ++ month_entries m2.
Proof. unfold month_entries. by rewrite fmap_app, join_app. Qed.

Lemma month_entries_add_floater (k : string) (x : StaffEntry) (month : MonthlyAssignment) :
  k ∈ month.*1 →
  month_entries
    (dict_update k (λ sd, {| assigned_staff := assigned_staff sd;
                             floaters := floaters sd ++ [x] |}) month)
  ≡ₚ x :: month_entries month.
Proof.
  unfold month_entries.
  induction month as [|[k' sd] month IH]; cbn; [by intros ?%elem_of_nil|].
  intros Hk. case_decide as Hkk; cbn.
  - rewrite <- !app_assoc. cbn. by rewrite !Permutation_middle.
  - apply elem_of_cons in Hk as [?|Hk]; [done|].
    rewrite IH by done. by rewrite Permutation_middle.
Qed.

Lemma rotate_members_id contexts i shift_name team shift_teams :
  (∀ e, e ∈ team → must_rotate contexts shift_name e = false) →
  rotate_members contexts i shift_name team shift_teams = shift_teams.
Proof.
  unfold rotate_members. induction team as [|e team IH]; cbn; intros Hstay; [done|].
  rewrite Hstay by (by left). cbn. apply IH. intros e' He'. apply Hstay. by right.
Qed.

Lemma apply_rotation_without_swaps contexts shifts :
  ∀ i shift_teams month,
    (∀ team e s, team ∈ shift_teams → e ∈ team → s ∈ shifts →
                 must_rotate contexts s e = false) →
    NoDup shifts →
    (∀ s, s ∈ shifts → s ∉ month.*1) →
    apply_rotation contexts i shifts shift_teams month
    = month ++ zip shifts (shift_entry <$> drop i shift_teams).
Proof.
  induction shifts as [|shift_name shifts IH]; intros i shift_teams month Hstay Hnodup Hfresh;
    cbn [apply_rotation].
  { by rewrite app_nil_r. }
  apply NoDup_cons in Hnodup as [Hhead Hnodup].
  destruct (shift_teams !! i) as [team|] eqn:Hteam.
  - rewrite rotate_members_id.
    2:{ intros e He. eapply Hstay; [by eapply list_elem_of_lookup_2|done|by left]. }
    rewrite dict_set_fresh by (apply Hfresh; by left).
    rewrite IH; [| |done|].
    + rewrite (drop_S shift_teams team i Hteam). rewrite <- app_assoc. reflexivity.
    + intros team' e s Hteam' He Hs. eapply Hstay; [done..|by right].
    + intros s Hs. rewrite fmap_app. cbn. intros [Hin|Hin%list_elem_of_singleton]%elem_of_app.
      * by eapply Hfresh; [right|].
      * by subst.
  - apply lookup_ge_None in Hteam. rewrite drop_ge by done. cbn. by rewrite app_nil_r.
Qed.

Lemma month_entries_zip (shifts : list string) :
  ∀ teams : list (list Employee),
    (length teams ≤ length shifts)%nat →
    month_entries (zip shifts (shift_entry <$> teams)) = staff_entry <$> mjoin teams.
Proof.
  unfold month_entries.
  induction shifts as [|s shifts IH]; intros [|team teams] Hlen; cbn in *; try done; [lia|].
  rewrite IH by lia. by rewrite app_nil_r, fmap_app.
Qed.

Lemma join_alter_append {A} (x : A) (teams : list (list A)) :
  ∀ i, (i < length teams)%nat → mjoin (alter (λ t, t ++ [x]) i teams) ≡ₚ x :: mjoin teams.
Proof.
  induction teams as [|t teams IH]; intros [|i] Hi; cbn in *; try lia.
  - rewrite <- app_assoc. cbn. by rewrite Permutation_middle.
  - rewrite IH by lia. by rewrite Permutation_middle.
Qed.

Lemma group_fixed_staff_from (n : nat) (l : list Employee) :
  ∀ i teams,
    length teams = n → (0 < n)%nat →
    let grouped :=
      foldl (λ teams '(i, emp), alter (λ t, t ++ [emp]) (i mod n)%nat teams) teams
        (enumerate_from i l) in
    length grouped = n ∧ mjoin grouped ≡ₚ mjoin teams ++ l.
Proof.
  induction l as [|e l IH]; intros i teams Hlen Hn; cbn.
  { by rewrite app_nil_r. }
  destruct (IH (S i) (alter (λ t, t ++ [e]) (i mod n)%nat teams)) as [Hlen' Hperm];
    [by rewrite length_alter|done|].
  split; [done|]. rewrite Hperm, join_alter_append.
  - rewrite <- app_comm_cons. by rewrite Permutation_middle.
  - rewrite Hlen. apply Nat.mod_upper_bound. lia.
Qed.

Lemma group_fixed_staff_spec (n : nat) (fixed_staff : list Employee) :
  (0 < n)%nat →
  length (group_fixed_staff n fixed_staff) = n
  ∧ mjoin (group_fixed_staff n fixed_staff) ≡ₚ fixed_staff.
Proof.
  intros Hn. unfold group_fixed_staff, enumerate.
  destruct (group_fixed_staff_from n fixed_staff 0 (replicate n [])) as [Hlen Hperm];
    [by rewrite length_replicate|done|].
  split; [done|]. rewrite Hperm.
  assert (mjoin (replicate n ([] : list Employee)) = []) as ->; [|done].
  clear. induction n; cbn; [done|]. done.
Qed.

Lemma distribute_floaters_entries (shifts : list string) (floater_candidates : list Employee) :
  ∀ month,
    shifts ≠ [] →
    (∀ s, s ∈ shifts → s ∈ month.*1) →
    month_entries (distribute_floaters shifts floater_candidates month)
    ≡ₚ month_entries month ++ (staff_entry <$> floater_candidates).
Proof.
  unfold distribute_floaters, enumerate. generalize 0%nat.
  induction floater_candidates as [|floater rest IH]; intros i month Hshifts Hkeys; cbn.
  { by rewrite app_nil_r. }
  destruct (lookup_lt_is_Some_2 shifts (i mod length shifts)%nat) as [shift_name Hshift].
  { apply Nat.mod_upper_bound. by destruct shifts. }
  rewrite Hshift. etrans; [apply IH; [done|]|].
  - intros s Hs. rewrite dict_update_keys. by apply Hkeys.
  - rewrite month_entries_add_floater.
    + rewrite <- app_comm_cons. by rewrite Permutation_middle.
    + apply Hkeys. by eapply list_elem_of_lookup_2.
Qed.

Lemma select_floaters_NoDup employees contexts num_floaters :
  NoDup employees → NoDup (select_floaters employees contexts num_floaters).
Proof.
  intros Hnodup. unfold select_floaters.
  destruct (0 <? num_floaters); [|constructor].
  eapply sublist_NoDup; [|apply sublist_take].
  rewrite sorted_Permutation. by apply NoDup_filter.
Qed.

Lemma fixed_and_floaters_partition employees (candidates : list Employee) :
  NoDup employees → NoDup candidates → candidates ⊆ employees →
  filter (λ e, e ∉ candidates) employees ++ candidates ≡ₚ employees.
Proof.
  intros Hemp Hcand Hsub.
  rewrite <- (filter_app_complement (λ e, e ∈ candidates) employees) at 2.
  rewrite (Permutation_app_comm (filter _ employees)). f_equiv.
  apply NoDup_Permutation; [done|by apply NoDup_filter|].
  intros e. rewrite list_elem_of_filter. split; [|by intros [? ?]]. auto.
Qed.

(** What the month generator guarantees when no rotation fires: for a roster
    without repetition, distinct shifts and no member due for rotation on any
    shift, the entries of the month are the entries of the roster, each once. *)
Lemma month_without_rotation_lists_roster_once employees contexts shifts people_per_shift
    required_fixed month_index :
  NoDup employees → NoDup shifts → shifts ≠ [] →
  (∀ e s, e ∈ employees → s ∈ shifts → must_rotate contexts s e = false) →
  month_entries (_generate_month_with_constraints employees contexts shifts
                   people_per_shift required_fixed month_index)
  ≡ₚ staff_entry <$> employees.
Proof.
  intros Hemp Hshifts Hne Hstay. unfold _generate_month_with_constraints.
  set (candidates :=
         select_floaters employees contexts (Z.of_nat (length employees) - required_fixed)).
  set (fixed_staff := filter (λ e, e ∉ candidates) employees).
  assert (Hsub : candidates ⊆ employees)
    by (intros e He; by apply select_floaters_eligible in He as [? _]).
  destruct (group_fixed_staff_spec (length shifts) fixed_staff) as [Hlen Hperm].
  { destruct shifts; [done|cbn; lia]. }
  rewrite apply_rotation_without_swaps; [|
    |done|intros s _; apply not_elem_of_nil].
  - cbn [app]. rewrite drop_0.
    rewrite distribute_floaters_entries; [|done|].
    + rewrite month_entries_zip by lia. rewrite Hperm, <- fmap_app. f_equiv.
      apply fixed_and_floaters_partition; [done| |done].
      by apply select_floaters_NoDup.
    + intros s Hs. rewrite fst_zip; [done|]. rewrite length_fmap. lia.
  - intros team e s Hteam He Hs. apply Hstay; [|done].
    assert (Hfixed : e ∈ fixed_staff).
    { rewrite <- Hperm. apply list_elem_of_join. eauto. }
    by apply list_elem_of_filter in Hfixed as [_ ?].
Qed.

(** ** The contexts of a run *)

(** [contexts[emp.id]] never misses: the dictionary has a key for every
    employee of the roster it was built from. *)
Lemma employee_contexts_total table team_id all_employees e :
  e ∈ all_employees →
  employee_contexts table team_id all_employees !! e_id e
  = Some (get_employee_context table team_id (e_id e)).
Proof.
  unfold employee_contexts. generalize (∅ : gmap Z EmployeeContext).
  induction all_employees as [|e' es IH] using rev_ind; intros m He.
  { by apply elem_of_nil in He. }
  rewrite foldl_app. cbn.
  destruct (decide (e_id e' = e_id e)) as [Heq|Hne].
  - rewrite Heq. apply lookup_insert_eq.
  - rewrite lookup_insert_ne by done. apply IH.
    apply elem_of_app in He as [He|He%list_elem_of_singleton]; [done|by subst].
Qed.

(** What a run of two months does not do: once November is committed to the
    history, Ann's context has Morning as her last shift
    and the rotation test fires for her on Morning; the context that the run
    uses for December has no last shift and the test does not fire. *)
Lemma december_context_is_stale :
  let roster := [ann; bob; cy] in
  let db := mkDb roster [interns_team] [] [] [] [] [] [] in
  ∃ november,
    _generate_with_constraints [] (2026, 11) interns_team roster 1 = Ok november
    ∧ let committed :=
        (save_assignment_history (λ _, Some (2026, 11)) 7 1793810000000000 november db).2 in
      let chained := employee_contexts (history_table committed) 7 roster in
      let used := employee_contexts [] 7 roster in
      last_shifts (chained !!! e_id ann) = ["Morning"%string]
      ∧ must_rotate chained "Morning" ann = true
      ∧ last_shifts (used !!! e_id ann) = []
      ∧ must_rotate used "Morning" ann = false.
Proof. eexists. split; [by vm_compute|]. split_and!; by vm_compute. Qed.

(** A roster that does not exceed the fixed positions is scheduled all the
    same, and without floaters: every shift of the month has an empty floater
    list. *)
Lemma understaffed_month_has_no_floaters employees contexts shifts people_per_shift
    required_fixed month_index shift_name shift_data :
  Z.of_nat (length employees) ≤ required_fixed →
  (shift_name, shift_data)
    ∈ _generate_month_with_constraints employees contexts shifts people_per_shift
        required_fixed month_index →
  floaters shift_data = [].
Proof.
  intros Hsmall Hshift.
  destruct (floaters shift_data) as [|entry rest] eqn:Hfloaters; [done|].
  unfold _generate_month_with_constraints in Hshift.
  assert (Hnone : select_floaters employees contexts
                    (Z.of_nat (length employees) - required_fixed) = []).
  { unfold select_floaters.
    destruct (Z.ltb_spec 0 (Z.of_nat (length employees) - required_fixed)); [lia|done]. }
  rewrite Hnone in Hshift.
  assert (Hall : Forall (floaters_among [])
            (distribute_floaters shifts []
               (apply_rotation contexts 0 shifts
                  (group_fixed_staff (length shifts)
                     (filter (λ e, e ∉ ([] : list Employee)) employees)) []))).
  { apply distribute_floaters_floaters; [done|].
    apply apply_rotation_floaters. constructor. }
  eapply Forall_forall in Hall; [|exact Hshift].
  specialize (Hall entry). cbn in Hall. rewrite Hfloaters in Hall.
  exfalso. eapply elem_of_nil, Hall. by left.
Qed.

(** * Further properties of the code *)

(** ** Reading the history: [get_employee_context] *)

Lemma length_history_query table employee_id team_id months_back :
  (length (history_query table employee_id team_id months_back) ≤ months_back)%nat.
Proof. unfold history_query. rewrite length_take. lia. Qed.

Lemma months_since_floater_from_some (history : list EmployeeHistory) :
  ∀ i k,
    months_since_floater_from i history = Some k →
    (i ≤ k < i + length history)%nat
    ∧ (∃ h, history !! (k - i)%nat = Some h ∧ was_floater h = true)
    ∧ (∀ j h, (j < k - i)%nat → history !! j = Some h → was_floater h = false).
Proof.
  induction history as [|record rest IH]; intros i k; cbn; [done|].
  destruct (was_floater record) eqn:Hrecord.
  - intros [= <-]. replace (i - i)%nat with 0%nat by lia. split; [lia|].
    split; [by exists record|]. intros j h Hj. lia.
  - intros (Hk & (h & Hh & Hfl) & Hbefore)%IH. split; [lia|].
    replace (k - i)%nat with (S (k - S i)) by lia. split; [by exists h|].
    intros [|j] h' Hj; cbn; [by intros [= <-]|].
    intros Hh'. apply (Hbefore j); [lia|done].
Qed.

Lemma months_since_floater_from_none_inv (history : list EmployeeHistory) :
  ∀ i, months_since_floater_from i history = None →
       Forall (λ h, was_floater h = false) history.
Proof.
  induction history as [|record rest IH]; intros i; cbn; [constructor|].
  destruct (was_floater record) eqn:Hrecord; [done|]. intros ?%IH. by constructor.
Qed.

(** The months since floating are the position of the newest floater row
    among the rows read (at most three, newest first): no row before that
    position is a floater row, the row at it is one when there is such a row,
    and without a floater row the value is the number of rows read. *)
Theorem months_since_floater_is_first_floater_row (table : list EmployeeHistory)
    (team_id employee_id : Z) :
  let history := history_query table employee_id team_id 3 in
  let n := months_since_floater (get_employee_context table team_id employee_id) in
  (n ≤ length history ≤ 3)%nat
  ∧ (∀ j h, (j < n)%nat → history !! j = Some h → was_floater h = false)
  ∧ ((n < length history)%nat → ∃ h, history !! n = Some h ∧ was_floater h = true).
Proof.
  intros history n.
  pose proof (length_history_query table employee_id team_id 3) as Hlen. fold history in Hlen.
  subst n. unfold get_employee_context, get_employee_context_n. cbn [months_since_floater].
  fold history. unfold _calculate_months_since_floater.
  destruct (months_since_floater_from 0 history) as [k|] eqn:Hfrom.
  - apply months_since_floater_from_some in Hfrom as (Hk & Hat & Hbefore).
    rewrite Nat.sub_0_r in Hat, Hbefore. split; [lia|]. split; [done|]. by intros _.
  - apply months_since_floater_from_none_inv in Hfrom. split; [lia|]. split; [|lia].
    intros j h _ Hh. eapply Forall_forall in Hfrom; [done|]. by eapply list_elem_of_lookup_2.
Qed.

Lemma count_leading_spec (current_shift : option string) (rest : list EmployeeHistory) :
  ∀ count,
    let c := count_leading current_shift rest count in
    (count ≤ c ≤ count + length rest)%nat
    ∧ (∀ j h, (j < c - count)%nat → rest !! j = Some h → shift_assigned h = current_shift)
    ∧ (∀ h, rest !! (c - count)%nat = Some h → shift_assigned h ≠ current_shift).
Proof.
  induction rest as [|record rest IH]; intros count; cbn.
  { split; [lia|]. split; [|by intros h]. intros j h Hj. lia. }
  case_decide as Hsame.
  - destruct (IH (S count)) as (Hbound & Hrun & Hnext). split; [lia|]. split.
    + intros [|j] h Hj; cbn; [by intros [= <-]|]. intros Hh. apply (Hrun j); [lia|done].
    + intros h. replace (count_leading current_shift rest (S count) - count)%nat
        with (S (count_leading current_shift rest (S count) - S count)) by lia.
      cbn. apply Hnext.
  - split; [lia|]. split; [intros j h Hj; lia|].
    rewrite Nat.sub_diag. cbn. by intros h [= <-].
Qed.

(** The streak is 0 exactly when no row was read. Otherwise it counts the
    newest row and the rows after it that carry the same [shift_assigned]
    (a floater row carries none), up to the first row that differs. *)
Theorem consecutive_shift_count_is_leading_run (table : list EmployeeHistory)
    (team_id employee_id : Z) :
  let history := history_query table employee_id team_id 3 in
  let c := consecutive_shift_count (get_employee_context table team_id employee_id) in
  (c = 0%nat ↔ history = [])
  ∧ (c ≤ length history ≤ 3)%nat
  ∧ (∀ newest j h, head history = Some newest → (j < c)%nat → history !! j = Some h →
       shift_assigned h = shift_assigned newest)
  ∧ (∀ newest h, head history = Some newest → history !! c = Some h →
       shift_assigned h ≠ shift_assigned newest).
Proof.
  intros history c.
  pose proof (length_history_query table employee_id team_id 3) as Hlen. fold history in Hlen.
  subst c. unfold get_employee_context, get_employee_context_n.
  cbn [consecutive_shift_count]. fold history. unfold _calculate_consecutive_shifts.
  destruct history as [|first rest]; cbn [head length] in *.
  { split; [done|]. split; [lia|]. split; by intros newest. }
  destruct (count_leading_spec (shift_assigned first) rest 1) as (Hbound & Hrun & Hnext).
  split; [split; [lia|done]|]. split; [lia|]. split.
  - intros newest [|j] h [= <-] Hj; cbn; [by intros [= <-]|].
    intros Hh. apply (Hrun j); [lia|done].
  - intros newest h [= <-].
    replace (count_leading (shift_assigned first) rest 1)
      with (S (count_leading (shift_assigned first) rest 1 - 1)) at 1 by lia.
    cbn. apply Hnext.
Qed.

(** ** Writing the history: [_save_employee_history] and
       [save_assignment_history] *)

Lemma history_upsert_keys (new : EmployeeHistory) (table : list EmployeeHistory) :
  history_key <$> history_upsert new table
  = if decide (history_key new ∈ history_key <$> table)
    then history_key <$> table
    else (history_key <$> table) ++ [history_key new].
Proof.
  induction table as [|existing rest IH]; cbn [history_upsert].
  { rewrite decide_False by apply not_elem_of_nil. done. }
  destruct (decide (h_employee_id existing = h_employee_id new
                    ∧ h_team_id existing = h_team_id new
                    ∧ month_year existing = month_year new)) as [(He & Ht & Hm)|Hdiff].
  - rewrite decide_True.
    + cbn. unfold history_key at 1. cbn. done.
    + cbn. apply elem_of_cons. left. unfold history_key. by rewrite He, Ht, Hm.
  - cbn [fmap list_fmap]. rewrite IH.
    assert (Hne : history_key new ≠ history_key existing).
    { unfold history_key. intros [= ? ? ?]. by apply Hdiff. }
    destruct (decide (history_key new ∈ history_key <$> rest)) as [Hin|Hnot].
    + rewrite decide_True by (by right). done.
    + rewrite decide_False; [done|]. by intros [?|?]%elem_of_cons.
Qed.

Lemma history_upsert_stores (new : EmployeeHistory) (table : list EmployeeHistory) :
  ∃ h, h ∈ history_upsert new table
       ∧ history_key h = history_key new ∧ history_fields h = history_fields new.
Proof.
  induction table as [|existing rest IH]; cbn [history_upsert].
  { exists new. split; [by left|done]. }
  case_decide as Hsame.
  - destruct Hsame as (He & Ht & Hm). eexists. split; [by left|].
    unfold history_key, history_fields. cbn. by rewrite He, Ht, Hm.
  - destruct IH as (h & Hin & Hkey & Hfields). exists h. split; [by right|done].
Qed.

Lemma history_upsert_others (new : EmployeeHistory) (table : list EmployeeHistory) :
  filter (λ h, history_key h ≠ history_key new) (history_upsert new table)
  = filter (λ h, history_key h ≠ history_key new) table.
Proof.
  induction table as [|existing rest IH]; cbn [history_upsert].
  { by rewrite filter_cons_False by (by intros ?). }
  case_decide as Hsame.
  - destruct Hsame as (He & Ht & Hm).
    rewrite !filter_cons_False; [done| |];
      unfold history_key; cbn; rewrite ?He, ?Ht, ?Hm; by intros ?.
  - assert (history_key existing ≠ history_key new).
    { unfold history_key. intros [= ? ? ?]. by apply Hsame. }
    rewrite !filter_cons_True by done. by rewrite IH.
Qed.

Lemma history_upsert_again (new new' : EmployeeHistory) (table : list EmployeeHistory) :
  history_key new' = history_key new → history_fields new' = history_fields new →
  history_upsert new' (history_upsert new table) = history_upsert new table.
Proof.
  unfold history_key, history_fields. intros [= He Ht Hm] [= Hs Hw Hf].
  induction table as [|existing rest IH]; cbn [history_upsert].
  - rewrite decide_True by done. destruct new; cbn in *. by subst.
  - destruct (decide (h_employee_id existing = h_employee_id new
                      ∧ h_team_id existing = h_team_id new
                      ∧ month_year existing = month_year new)) as [(He' & Ht' & Hm')|Hdiff];
      cbn [history_upsert].
    + rewrite decide_True by (cbn; split_and!; congruence). cbn. by rewrite Hs, Hw, Hf.
    + rewrite decide_False by (rewrite He, Ht, Hm; done). by rewrite IH.
Qed.

(** [_save_employee_history] for a name that the employee table knows is an
    upsert on the key (employee, team, month): when the table has one row per
    key it still has afterwards, the row of the key records the assignment
    that was passed, every row of another key is as it was, and the table
    grows by one row exactly when the key was new. *)
Theorem save_employee_history_is_upsert (team_id now : Z) (employee_name month_key : string)
    (shift : option string) (floater : bool) (floater_for : option string)
    (db : Db) (employee : Employee)
    (Hknown : employee_by_name (employee_table db) employee_name = Some employee)
    (Hunique : NoDup (history_key <$> history_table db)) :
  let key := (e_id employee, team_id, month_key) in
  let run := _save_employee_history team_id now employee_name month_key shift floater
               floater_for db in
  run.1 = Ok tt
  ∧ NoDup (history_key <$> history_table run.2)
  ∧ (∃ h, h ∈ history_table run.2 ∧ history_key h = key
          ∧ history_fields h = (shift, floater, floater_for))
  ∧ filter (λ h, history_key h ≠ key) (history_table run.2)
    = filter (λ h, history_key h ≠ key) (history_table db)
  ∧ length (history_table run.2)
    = (length (history_table db)
       + if decide (key ∈ history_key <$> history_table db) then 0 else 1)%nat.
Proof.
  intros key run. subst run.
  unfold _save_employee_history, mbind, M_bind, get_db, commit. rewrite Hknown.
  cbn [fst snd history_table set_history].
  set (new := {| h_employee_id := e_id employee; h_team_id := team_id;
                 month_year := month_key; shift_assigned := shift;
                 was_floater := floater; floater_for_shift := floater_for;
                 h_created_at := now |}).
  change key with (history_key new).
  pose proof (history_upsert_keys new (history_table db)) as Hkeys.
  split; [done|]. split_and!.
  - rewrite Hkeys. case_decide as Hin; [done|].
    apply NoDup_app. split_and!; [done| |apply NoDup_singleton].
    intros k Hk ->%list_elem_of_singleton. done.
  - apply history_upsert_stores.
  - apply history_upsert_others.
  - rewrite <- (length_fmap history_key), Hkeys.
    case_decide; rewrite ?length_app, length_fmap; cbn; lia.
Qed.

Lemma save_employee_history_is_upsert_witness :
  let db := mkDb [ann] [interns_team] [] [ann_had_morning] [] [] [] [] in
  let run := _save_employee_history 7 200 "Ann" "2026-10" None true
               (Some "Night"%string) db in
  NoDup (history_key <$> history_table run.2)
  ∧ length (history_table run.2) = 1%nat.
Proof.
  assert (Hunique : NoDup (history_key <$> [ann_had_morning]))
    by (apply NoDup_singleton).
  destruct (save_employee_history_is_upsert 7 200 "Ann" "2026-10" None true
              (Some "Night"%string)
              (mkDb [ann] [interns_team] [] [ann_had_morning] [] [] [] [])
              ann eq_refl Hunique) as (_ & Hnodup & _ & _ & Hlen).
  split; [exact Hnodup|exact Hlen].
Defined.

(** A save returns. Saving the same assignment of an employee a second time,
    at whatever later time, changes nothing: the database stays as the first
    save left it, so the row keeps the creation time of its first insertion.
    A name that no employee has changes nothing the first time either. *)
Theorem save_employee_history_twice (team_id now now' : Z) (employee_name month_key : string)
    (shift : option string) (floater : bool) (floater_for : option string) (db : Db) :
  let first := _save_employee_history team_id now employee_name month_key shift floater
                 floater_for db in
  let once := first.2 in
  first.1 = Ok tt
  ∧ _save_employee_history team_id now' employee_name month_key shift floater floater_for
      once
    = (Ok tt, once)
  ∧ (employee_by_name (employee_table db) employee_name = None → once = db).
Proof.
  cbv zeta. unfold _save_employee_history, mbind, M_bind, get_db, commit.
  destruct (employee_by_name (employee_table db) employee_name) as [employee|] eqn:Hknown;
    unfold mret, M_ret; cbn [fst snd]; [|by rewrite Hknown].
  split; [done|]. split; [|done].
  cbn [employee_table set_history]. rewrite Hknown.
  f_equal. destruct db; unfold set_history; cbn. f_equal.
  by apply history_upsert_again.
Qed.

Lemma save_employee_history_twice_witness :
  let db := mkDb [ann] [interns_team] [] [ann_had_morning] [] [] [] [] in
  (_save_employee_history 7 200 "Zoe" "2026-11" (Some "Night"%string) false None db).2 = db
  ∧ (let once := (_save_employee_history 7 200 "Ann" "2026-11" (Some "Night"%string) false
                    None db).2 in
     _save_employee_history 7 900 "Ann" "2026-11" (Some "Night"%string) false None once
     = (Ok tt, once)).
Proof.
  cbv zeta. split.
  - apply (save_employee_history_twice 7 200 200 "Zoe" "2026-11" (Some "Night"%string)
             false None). reflexivity.
  - apply (save_employee_history_twice 7 200 900 "Ann" "2026-11" (Some "Night"%string)
             false None).
Defined.

Lemma history_commit_refl team_id db : history_commit team_id db db.
Proof. unfold history_commit. split_and!; try done. by destruct db. Qed.

Lemma history_commit_trans team_id db1 db2 db3 :
  history_commit team_id db1 db2 → history_commit team_id db2 db3 →
  history_commit team_id db1 db3.
Proof.
  intros (Hf1 & Hk1 & Hn1 & Ho1) (Hf2 & Hk2 & Hn2 & Ho2). unfold history_commit.
  split_and!.
  - rewrite Hf2 at 1. rewrite Hf1. by destruct db1.
  - by etrans.
  - auto.
  - by rewrite Ho2.
Qed.

Lemma history_upsert_other_teams (new : EmployeeHistory) (table : list EmployeeHistory) :
  filter (λ h, h_team_id h ≠ h_team_id new) (history_upsert new table)
  = filter (λ h, h_team_id h ≠ h_team_id new) table.
Proof.
  induction table as [|existing rest IH]; cbn [history_upsert].
  { by rewrite filter_cons_False by (by intros ?). }
  case_decide as Hsame.
  - destruct Hsame as (He & Ht & Hm).
    rewrite !filter_cons_False; [done| |]; cbn; by intros ?.
  - destruct (decide (h_team_id existing ≠ h_team_id new)).
    + rewrite !filter_cons_True by done. by rewrite IH.
    + rewrite !filter_cons_False by done. by rewrite IH.
Qed.

Lemma save_employee_history_commit team_id now employee_name month_key shift floater
    floater_for db :
  ∃ db', _save_employee_history team_id now employee_name month_key shift floater
           floater_for db = (Ok tt, db')
         ∧ history_commit team_id db db'
         ∧ ∀ employee, employee_by_name (employee_table db) employee_name = Some employee →
             (e_id employee, team_id, month_key) ∈ history_key <$> history_table db'.
Proof.
  unfold _save_employee_history, mbind, M_bind, get_db, commit.
  destruct (employee_by_name (employee_table db) employee_name) as [employee|].
  - eexists. split; [done|].
    set (new := {| h_employee_id := e_id employee; h_team_id := team_id;
                   month_year := month_key; shift_assigned := shift;
                   was_floater := floater; floater_for_shift := floater_for;
                   h_created_at := now |}).
    pose proof (history_upsert_keys new (history_table db)) as Hkeys.
    cbn [history_table set_history]. split.
    + unfold history_commit. cbn [history_table set_history]. split_and!.
      * by destruct db.
      * rewrite Hkeys. case_decide; [done|]. intros k Hk. apply elem_of_app. by left.
      * intros Hunique. rewrite Hkeys. case_decide as Hin; [done|].
        apply NoDup_app. split_and!; [done| |apply NoDup_singleton].
        intros k Hk ->%list_elem_of_singleton. done.
      * apply (history_upsert_other_teams new).
    + intros ? [= <-]. rewrite Hkeys.
      change (e_id employee, team_id, month_key) with (history_key new).
      case_decide; [done|]. apply elem_of_app. right. by left.
  - exists db. split; [done|]. split; [apply history_commit_refl|done].
Qed.

(** A loop whose steps all return and move the database along a preorder
    returns and moves it along the preorder; what a step establishes for its
    element, and later steps keep, holds for every element at the end. *)
Lemma for_each_commits {A} (R : Db → Db → Prop) (P : A → Db → Prop) (Q : Db → Prop)
    (l : list A) (body : A → M unit) :
  (∀ db, R db db) → (∀ db1 db2 db3, R db1 db2 → R db2 db3 → R db1 db3) →
  (∀ x db db', P x db → R db db' → P x db') →
  (∀ db db', Q db → R db db' → Q db') →
  (∀ x db, x ∈ l → Q db → ∃ db', body x db = (Ok tt, db') ∧ R db db' ∧ P x db') →
  ∀ db, Q db →
    ∃ db', for_each l body db = (Ok tt, db') ∧ R db db' ∧ ∀ x, x ∈ l → P x db'.
Proof.
  intros Hrefl Htrans Hstable Hkeep.
  induction l as [|x l IH]; intros Hbody db HQ; cbn [for_each].
  { exists db. split; [done|]. split; [done|]. by intros x ?%elem_of_nil. }
  destruct (Hbody x db) as (db1 & Hx & HR1 & HP1); [by left|done|].
  destruct (IH (λ y db Hy, Hbody y db (list_elem_of_further _ _ _ Hy)) db1)
    as (db2 & Hl & HR2 & HP2); [by eapply Hkeep|].
  exists db2. unfold mbind, M_bind. rewrite Hx. split; [done|]. split; [by eapply Htrans|].
  intros y [->|Hy]%elem_of_cons; [by eapply Hstable|by apply HP2].
Qed.

Lemma history_commit_keeps_employees team_id db db' :
  history_commit team_id db db' → employee_table db' = employee_table db.
Proof. intros (-> & _). by destruct db. Qed.

Lemma save_assignment_history_spec (strptime : string → option (Z * Z)) (team_id now : Z)
    (schedule : Schedule) (db : Db) :
  ∃ db',
    save_assignment_history strptime team_id now schedule db = (Ok tt, db')
    ∧ history_commit team_id db db'
    ∧ ∀ label month shift_name shift_data entry employee,
        (label, month) ∈ schedule → (shift_name, shift_data) ∈ month →
        entry ∈ assigned_staff shift_data ++ floaters shift_data →
        employee_by_name (employee_table db) (se_name entry) = Some employee →
        (e_id employee, team_id, _parse_month_key strptime label)
          ∈ history_key <$> history_table db'.
Proof.
  set (Q := λ d : Db, employee_table d = employee_table db).
  set (recorded := λ (month_key : string) (entry : StaffEntry) (d : Db),
         ∀ employee, employee_by_name (employee_table db) (se_name entry) = Some employee →
           (e_id employee, team_id, month_key) ∈ history_key <$> history_table d).
  assert (Hstable : ∀ month_key entry d d',
            recorded month_key entry d → history_commit team_id d d' →
            recorded month_key entry d').
  { intros month_key entry d d' Hrec (_ & Hkeys & _) employee Hknown.
    by apply Hkeys, Hrec. }
  assert (HQ : ∀ d d', Q d → history_commit team_id d d' → Q d').
  { intros d d' Hd Hcommit. unfold Q.
    by rewrite (history_commit_keeps_employees _ _ _ Hcommit). }
  assert (Hentries : ∀ month_key shift floater floater_for (entries : list StaffEntry) d,
            Q d →
            ∃ d', for_each entries (λ entry,
                    _save_employee_history team_id now (se_name entry) month_key
                      shift floater floater_for) d = (Ok tt, d')
                  ∧ history_commit team_id d d'
                  ∧ ∀ entry, entry ∈ entries → recorded month_key entry d').
  { intros month_key shift floater floater_for entries d Hd.
    apply (for_each_commits (history_commit team_id) (recorded month_key) Q);
      eauto using history_commit_refl, history_commit_trans.
    intros entry d0 _ Hd0.
    destruct (save_employee_history_commit team_id now (se_name entry) month_key
                shift floater floater_for d0) as (d1 & Hrun & Hcommit & Hkey).
    exists d1. split; [done|]. split; [done|].
    intros employee Hknown. apply Hkey. by rewrite Hd0. }
  assert (Hshifts : ∀ label (month : MonthlyAssignment) d,
            Q d →
            ∃ d', for_each month (λ '(shift_name, shift_data),
                    for_each (assigned_staff shift_data) (λ staff,
                      _save_employee_history team_id now (se_name staff)
                        (_parse_month_key strptime label) (Some shift_name) false None) ;;
                    for_each (floaters shift_data) (λ floater,
                      _save_employee_history team_id now (se_name floater)
                        (_parse_month_key strptime label) None true (Some shift_name))) d
                  = (Ok tt, d')
                  ∧ history_commit team_id d d'
                  ∧ ∀ ss : string * ShiftData, ss ∈ month →
                      ∀ entry, entry ∈ assigned_staff ss.2 ++ floaters ss.2 →
                               recorded (_parse_month_key strptime label) entry d').
  { intros label month d Hd.
    apply (for_each_commits (history_commit team_id)
             (λ (ss : string * ShiftData) d,
                ∀ entry, entry ∈ assigned_staff ss.2 ++ floaters ss.2 →
                         recorded (_parse_month_key strptime label) entry d) Q);
      eauto using history_commit_refl, history_commit_trans.
    intros [shift_name shift_data] d0 _ Hd0. cbn [fst snd].
    destruct (Hentries (_parse_month_key strptime label) (Some shift_name) false None
                (assigned_staff shift_data) d0 Hd0) as (d1 & Hrun1 & Hcommit1 & Hall1).
    destruct (Hentries (_parse_month_key strptime label) None true (Some shift_name)
                (floaters shift_data) d1 (HQ _ _ Hd0 Hcommit1))
      as (d2 & Hrun2 & Hcommit2 & Hall2).
    exists d2. unfold mbind, M_bind. rewrite Hrun1. split; [done|].
    split; [by eapply history_commit_trans|].
    intros entry [Hstaff|Hfloater]%elem_of_app; [|by apply Hall2].
    eapply Hstable; [by apply Hall1|done]. }
  assert (Hmonths : ∀ d,
            Q d →
            ∃ d', save_assignment_history strptime team_id now schedule d = (Ok tt, d')
                  ∧ history_commit team_id d d'
                  ∧ ∀ lm : string * MonthlyAssignment, lm ∈ schedule →
                      ∀ ss : string * ShiftData, ss ∈ lm.2 →
                        ∀ entry, entry ∈ assigned_staff ss.2 ++ floaters ss.2 →
                                 recorded (_parse_month_key strptime lm.1) entry d').
  { intros d Hd. unfold save_assignment_history.
    apply (for_each_commits (history_commit team_id)
             (λ (lm : string * MonthlyAssignment) d,
                ∀ ss : string * ShiftData, ss ∈ lm.2 →
                  ∀ entry, entry ∈ assigned_staff ss.2 ++ floaters ss.2 →
                           recorded (_parse_month_key strptime lm.1) entry d) Q);
      eauto using history_commit_refl, history_commit_trans.
    intros [label month] d0 _ Hd0. cbn [fst snd]. by apply Hshifts. }
  destruct (Hmonths db eq_refl) as (db' & Hrun & Hcommit & Hall).
  exists db'. split; [done|]. split; [done|].
  intros label month shift_name shift_data entry employee Hmonth Hshift Hentry Hknown.
  by apply (Hall (label, month) Hmonth (shift_name, shift_data) Hshift entry).
Qed.

(** [save_assignment_history] never raises and touches the history table
    only, and there only rows of its team: it removes no key, keeps the table
    at one row per (employee, team, month) when it was, and leaves the rows of
    every other team as they were. *)
Theorem save_assignment_history_keeps_table_consistent
    (strptime : string → option (Z * Z)) (team_id now : Z) (schedule : Schedule) (db : Db) :
  ∃ db',
    save_assignment_history strptime team_id now schedule db = (Ok tt, db')
    ∧ db' = set_history (λ _, history_table db') db
    ∧ (history_key <$> history_table db) ⊆ (history_key <$> history_table db')
    ∧ (NoDup (history_key <$> history_table db)
       → NoDup (history_key <$> history_table db'))
    ∧ filter (λ h, h_team_id h ≠ team_id) (history_table db')
      = filter (λ h, h_team_id h ≠ team_id) (history_table db).
Proof.
  destruct (save_assignment_history_spec strptime team_id now schedule db)
    as (db' & Hrun & Hcommit & _).
  by exists db'.
Qed.

(** After [save_assignment_history], every entry of the schedule whose name
    the employee table knows has a history row for its employee, the team and
    the month key of the label it is listed under. *)
Theorem save_assignment_history_records_every_entry
    (strptime : string → option (Z * Z)) (team_id now : Z) (schedule : Schedule) (db : Db)
    (label shift_name : string) (month : MonthlyAssignment) (shift_data : ShiftData)
    (entry : StaffEntry) (employee : Employee)
    (Hmonth : (label, month) ∈ schedule)
    (Hshift : (shift_name, shift_data) ∈ month)
    (Hentry : entry ∈ assigned_staff shift_data ++ floaters shift_data)
    (Hknown : employee_by_name (employee_table db) (se_name entry) = Some employee) :
  (e_id employee, team_id, _parse_month_key strptime label)
    ∈ history_key
        <$> history_table (save_assignment_history strptime team_id now schedule db).2.
Proof.
  destruct (save_assignment_history_spec strptime team_id now schedule db)
    as (db' & Hrun & _ & Hall).
  rewrite Hrun. by eapply Hall.
Qed.

Lemma save_assignment_history_records_every_entry_witness :
  let db := mkDb [ann; bob] [interns_team] [] [] [] [] [] [] in
  let schedule : Schedule :=
    [("November 2026"%string,
      [("Morning"%string, mkShiftData [staff_entry ann] [staff_entry bob])])] in
  (2, 7, "2026-11"%string)
    ∈ history_key
        <$> history_table
              (save_assignment_history (λ _, Some (2026, 11)) 7 1793810000000000
                 schedule db).2.
Proof.
  apply (save_assignment_history_records_every_entry (λ _, Some (2026, 11)) 7
           1793810000000000 _ (mkDb [ann; bob] [interns_team] [] [] [] [] [] [])
           "November 2026" "Morning"
           [("Morning"%string, mkShiftData [staff_entry ann] [staff_entry bob])]
           (mkShiftData [staff_entry ann] [staff_entry bob]) (staff_entry bob) bob).
  - by left.
  - by left.
  - cbn. right. by left.
  - reflexivity.
Defined.

(** ** The shape of a generated schedule *)

Lemma team_shifts_map_templates (template : string) (shifts : list string) :
  team_shifts_map !! template = Some shifts →
  template = "3-shift"%string ∨ template = "4-shift"%string ∨ template = "5-shift"%string.
Proof.
  unfold team_shifts_map. cbn [list_to_map foldr uncurry fst snd].
  destruct (decide (template = "3-shift"%string)) as [->|H3]; [by left|].
  destruct (decide (template = "4-shift"%string)) as [->|H4]; [by right; left|].
  destruct (decide (template = "5-shift"%string)) as [->|H5]; [by right; right|].
  rewrite !lookup_insert_ne by done. by rewrite lookup_empty.
Qed.

Lemma desirable_shifts_NoDup (template : string) : NoDup (desirable_shifts template).
Proof.
  unfold desirable_shifts. apply NoDup_filter.
  apply (bool_decide_unpack _). by vm_compute.
Qed.

Lemma desirable_shifts_known (template : string) :
  is_Some (team_shifts_map !! template) → desirable_shifts template ≠ [].
Proof.
  intros [shifts Hshifts].
  destruct (team_shifts_map_templates _ _ Hshifts) as [->|[->| ->]]; by vm_compute.
Qed.

Lemma dict_set_keys {V} (k : string) (v : V) (d : list (string * V)) :
  k ∉ d.*1 → (dict_set k v d).*1 = d.*1 ++ [k].
Proof. intros Hfresh. rewrite dict_set_fresh by done. by rewrite fmap_app. Qed.

Lemma length_swap_slots {A} (i j : nat) (l : list A) : length (swap_slots i j l) = length l.
Proof.
  unfold swap_slots. destruct (l !! i), (l !! j); try done.
  by rewrite !length_insert.
Qed.

Lemma length_rotate_members contexts i shift_name team shift_teams :
  length (rotate_members contexts i shift_name team shift_teams) = length shift_teams.
Proof.
  unfold rotate_members. revert shift_teams.
  induction team as [|e team IH]; intros shift_teams; cbn; [done|].
  rewrite IH. destruct (_ && _); [apply length_swap_slots|done].
Qed.

(** Whatever the rotation step exchanges, the loop writes one entry per shift,
    in the order of the shifts. *)
Lemma apply_rotation_keys contexts shifts :
  ∀ i shift_teams month,
    NoDup shifts → (∀ s, s ∈ shifts → s ∉ month.*1) →
    length shift_teams = (i + length shifts)%nat →
    (apply_rotation contexts i shifts shift_teams month).*1 = month.*1 ++ shifts.
Proof.
  induction shifts as [|shift_name shifts IH]; intros i shift_teams month Hnodup Hfresh Hlen;
    cbn [apply_rotation].
  { by rewrite app_nil_r. }
  apply NoDup_cons in Hnodup as [Hhead Hnodup].
  destruct (lookup_lt_is_Some_2 shift_teams i) as [team Hteam]; [cbn in Hlen; lia|].
  rewrite Hteam. rewrite IH; [|done| |].
  - rewrite dict_set_keys by (apply Hfresh; by left). by rewrite <- app_assoc.
  - intros s Hs. rewrite dict_set_keys by (apply Hfresh; by left).
    intros [Hin| ->%list_elem_of_singleton]%elem_of_app; [|done].
    by eapply Hfresh; [right|].
  - rewrite length_rotate_members. cbn in Hlen. lia.
Qed.

Lemma distribute_floaters_keys shifts floater_candidates :
  ∀ month, (distribute_floaters shifts floater_candidates month).*1 = month.*1.
Proof.
  unfold distribute_floaters, enumerate. generalize 0%nat.
  induction floater_candidates as [|floater rest IH]; intros i month; cbn; [done|].
  rewrite IH. destruct (shifts !! _); [apply dict_update_keys|done].
Qed.

Lemma generate_month_keys employees contexts shifts people_per_shift required_fixed
    month_index :
  NoDup shifts → shifts ≠ [] →
  (_generate_month_with_constraints employees contexts shifts people_per_shift
     required_fixed month_index).*1 = shifts.
Proof.
  intros Hnodup Hne. unfold _generate_month_with_constraints.
  rewrite distribute_floaters_keys, apply_rotation_keys; [done|done| |].
  - intros s _. apply not_elem_of_nil.
  - apply group_fixed_staff_spec. destruct shifts; [done|cbn; lia].
Qed.

(** Every month of a generated schedule has exactly the shifts of the team's
    template as its keys, in desirability order, also when the rotation step
    exchanges teams. *)
Theorem generated_month_has_the_template_shifts (table : list EmployeeHistory)
    (today : Z * Z) (team : Team) (all_employees : list Employee) (months : Z)
    (schedule : Schedule) (label : string) (month : MonthlyAssignment)
    (Hrun : _generate_with_constraints table today team all_employees months = Ok schedule)
    (Hmonth : (label, month) ∈ schedule) :
  month.*1 = desirable_shifts (shift_template team)
  ∧ month.*1 ≠ [] ∧ NoDup month.*1.
Proof.
  assert (Hne : desirable_shifts (shift_template team) ≠ []).
  { intros Hnil. unfold _generate_with_constraints in Hrun. rewrite Hnil in Hrun.
    injection Hrun as <-. by apply elem_of_nil in Hmonth. }
  apply (generate_with_constraints_month _ _ _ _ _ _ _ _ Hrun) in Hmonth. subst month.
  rewrite generate_month_keys by (done || apply desirable_shifts_NoDup).
  split; [done|]. split; [done|apply desirable_shifts_NoDup].
Qed.

Lemma generated_month_has_the_template_shifts_witness :
  ∃ schedule month,
    _generate_with_constraints [ann_had_morning] (2026, 11) interns_team [ann; bob; cy] 1
    = Ok schedule
    ∧ ("November 2026"%string, month) ∈ schedule
    ∧ month.*1 = ["Morning"; "Afternoon"; "Night"]%string.
Proof.
  eexists _, _. split; [by vm_compute|]. split; [by left|].
  refine (proj1 (generated_month_has_the_template_shifts [ann_had_morning] (2026, 11)
                   interns_team [ann; bob; cy] 1 _ "November 2026" _ _ _)).
  - by vm_compute.
  - by left.
Defined.

Lemma month_names_NoDup : NoDup month_names.
Proof. apply (bool_decide_unpack _). by vm_compute. Qed.

Lemma month_name_prefix_inj (name1 name2 rest1 rest2 : string) :
  name1 ∈ month_names → name2 ∈ month_names →
  name1 +:+ " " +:+ rest1 = name2 +:+ " " +:+ rest2 →
  name1 = name2 ∧ rest1 = rest2.
Proof.
  unfold month_names. rewrite !elem_of_cons, !elem_of_nil. intros H1 H2.
  destruct_or!; try done; subst; cbn; intros Heq; by simplify_eq.
Qed.

(** The labels of distinct months of a run are distinct. *)
Lemma month_label_inj (start_year start_month : Z) (i j : nat) :
  month_label start_year start_month i = month_label start_year start_month j → i = j.
Proof.
  unfold month_label, current_year, current_month, strftime_B_Y.
  set (a := start_month + Z.of_nat i - 1). set (b := start_month + Z.of_nat j - 1).
  pose proof (Z.mod_pos_bound a 12) as Ha. pose proof (Z.mod_pos_bound b 12) as Hb.
  replace (a mod 12 + 1 - 1) with (a mod 12) by lia.
  replace (b mod 12 + 1 - 1) with (b mod 12) by lia.
  destruct (lookup_lt_is_Some_2 month_names (Z.to_nat (a mod 12))) as [name1 H1].
  { cbn. lia. }
  destruct (lookup_lt_is_Some_2 month_names (Z.to_nat (b mod 12))) as [name2 H2].
  { cbn. lia. }
  rewrite H1, H2. cbn [default from_option]. unfold id. intros Heq.
  apply month_name_prefix_inj in Heq as [Hname Hyear]; [|by eapply list_elem_of_lookup_2..].
  apply (inj pretty) in Hyear. rewrite <- Hname in H2.
  pose proof (NoDup_lookup _ _ _ _ month_names_NoDup H1 H2) as Hmod.
  pose proof (Z.div_mod a 12). pose proof (Z.div_mod b 12). lia.
Qed.

(** The date of a month in a year that [datetime] accepts is built. *)
Lemma month_name_at_in_range (start_year start_month : Z) (i : nat) :
  MINYEAR ≤ current_year start_year start_month i ≤ MAXYEAR →
  month_name_at start_year start_month i = Ok (month_label start_year start_month i).
Proof.
  intros [Hmin Hmax]. unfold month_name_at, datetime_strftime_B_Y, month_label.
  destruct (Z.leb_spec MINYEAR (current_year start_year start_month i)); [|lia].
  destruct (Z.leb_spec (current_year start_year start_month i) MAXYEAR); [done|lia].
Qed.

Lemma month_name_at_after_MAXYEAR (start_year start_month : Z) (i : nat) :
  current_year start_year start_month i = MAXYEAR + 1 →
  month_name_at start_year start_month i = Raise year_out_of_range.
Proof. intros Hyear. unfold month_name_at, datetime_strftime_B_Y. by rewrite Hyear. Qed.

(** The year advances by at most one from a month to the next. *)
Lemma current_year_succ (start_year start_month : Z) (i : nat) :
  current_year start_year start_month i ≤ current_year start_year start_month (S i)
  ≤ current_year start_year start_month i + 1.
Proof.
  unfold current_year.
  pose proof (Z.div_mod (start_month + Z.of_nat i - 1) 12).
  pose proof (Z.mod_pos_bound (start_month + Z.of_nat i - 1) 12).
  pose proof (Z.div_mod (start_month + Z.of_nat (S i) - 1) 12).
  pose proof (Z.mod_pos_bound (start_month + Z.of_nat (S i) - 1) 12).
  lia.
Qed.

Lemma current_year_mono (start_year start_month : Z) (i j : nat) :
  (i ≤ j)%nat →
  current_year start_year start_month i ≤ current_year start_year start_month j.
Proof.
  induction 1 as [|j _ IH]; [done|].
  pose proof (current_year_succ start_year start_month j). lia.
Qed.

Lemma generate_months_labels all_employees contexts shifts people_per_shift required
    start_year start_month :
  NoDup shifts → shifts ≠ [] →
  ∀ indices acc,
    NoDup indices →
    (∀ i, i ∈ indices → MINYEAR ≤ current_year start_year start_month i ≤ MAXYEAR) →
    (∀ i, i ∈ indices → month_label start_year start_month i ∉ acc.*1) →
    ∃ schedule,
      generate_months all_employees contexts shifts people_per_shift required
        start_year start_month indices acc = Ok schedule
      ∧ schedule.*1 = acc.*1 ++ (month_label start_year start_month <$> indices).
Proof.
  intros Hshifts Hne. induction indices as [|i indices IH];
    intros acc Hnodup Hyears Hfresh; cbn [generate_months].
  { eexists. split; [done|]. by rewrite app_nil_r. }
  apply NoDup_cons in Hnodup as [Hhead Hnodup].
  rewrite month_name_at_in_range by (apply Hyears; by left).
  destruct (_generate_month_with_constraints all_employees contexts shifts
              people_per_shift required i) as [|kv m] eqn:Hmonth.
  { exfalso. apply Hne. rewrite <- (generate_month_keys all_employees contexts shifts
      people_per_shift required i) by done. by rewrite Hmonth. }
  edestruct IH as (schedule & Hrun & Hlabels); [done| | |].
  - intros j Hj. apply Hyears. by right.
  - intros j Hj. rewrite dict_set_keys by (apply Hfresh; by left).
    intros [Hin|Heq%list_elem_of_singleton]%elem_of_app.
    + by eapply Hfresh; [right|].
    + apply month_label_inj in Heq. by subst.
  - exists schedule. split; [exact Hrun|]. rewrite Hlabels.
    rewrite dict_set_keys by (apply Hfresh; by left). by rewrite <- app_assoc.
Qed.

(** From the first month whose year is after [MAXYEAR] on, no month is
    generated: the loop is left by the exception. *)
Lemma generate_months_raises all_employees contexts shifts people_per_shift required
    start_year start_month :
  NoDup shifts → shifts ≠ [] →
  ∀ n a acc,
    MINYEAR ≤ current_year start_year start_month a ≤ MAXYEAR + 1 →
    MAXYEAR < current_year start_year start_month (a + n) →
    generate_months all_employees contexts shifts people_per_shift required
      start_year start_month (seq a (S n)) acc = Raise year_out_of_range.
Proof.
  intros Hshifts Hne. induction n as [|n IH]; intros a acc Ha Hlast.
  - rewrite Nat.add_0_r in Hlast. cbn [seq generate_months].
    rewrite month_name_at_after_MAXYEAR; [done|lia].
  - cbn [seq generate_months].
    destruct (decide (current_year start_year start_month a = MAXYEAR + 1)) as [Hout|Hin].
    { by rewrite month_name_at_after_MAXYEAR. }
    rewrite month_name_at_in_range by lia.
    destruct (_generate_month_with_constraints all_employees contexts shifts
                people_per_shift required a) as [|kv m] eqn:Hmonth.
    { exfalso. apply Hne. rewrite <- (generate_month_keys all_employees contexts shifts
        people_per_shift required a) by done. by rewrite Hmonth. }
    apply IH.
    + pose proof (current_year_succ start_year start_month a). lia.
    + by replace (S a + n)%nat with (a + S n)%nat by lia.
Qed.

Lemma current_year_0 (start_year start_month : Z) :
  1 ≤ start_month ≤ 12 → current_year start_year start_month 0 = start_year.
Proof.
  intros Hmonth. unfold current_year.
  rewrite Z.div_small; lia.
Qed.

(** What the month loop returns for a recognised template, whatever the
    roster: a month for each index when the last one is in a year that
    [datetime] accepts, the exception otherwise. *)
Lemma generate_with_constraints_labels table today team all_employees months :
  is_Some (team_shifts_map !! shift_template team) →
  MINYEAR ≤ today.1 ≤ MAXYEAR → 1 ≤ today.2 ≤ 12 →
  let last_year := current_year today.1 today.2 (Z.to_nat months - 1) in
  (last_year ≤ MAXYEAR ∨ months ≤ 0 →
   ∃ schedule,
     _generate_with_constraints table today team all_employees months = Ok schedule
     ∧ schedule.*1 = month_label today.1 today.2 <$> seq 0 (Z.to_nat months))
  ∧ (MAXYEAR < last_year → 0 < months →
     _generate_with_constraints table today team all_employees months
     = Raise year_out_of_range).
Proof.
  intros Hknown Hyear Hmonth last_year.
  pose proof (desirable_shifts_known _ Hknown) as Hne.
  pose proof (current_year_0 today.1 today.2 Hmonth) as H0.
  unfold _generate_with_constraints.
  assert (Hlen : (length (desirable_shifts (shift_template team)) =? 0)%nat = false).
  { by destruct (desirable_shifts (shift_template team)). }
  rewrite Hlen. split.
  - intros Hlast.
    edestruct (generate_months_labels all_employees
                 (employee_contexts table (t_id team) all_employees)
                 (desirable_shifts (shift_template team)) (people_per_shift team)
                 (Z.of_nat (length (desirable_shifts (shift_template team)))
                  * people_per_shift team) today.1 today.2
                 (desirable_shifts_NoDup _) Hne (seq 0 (Z.to_nat months)) [])
      as (schedule & Hrun & Hlabels).
    + apply NoDup_seq.
    + intros i [_ Hi]%elem_of_seq. destruct Hlast as [Hlast|Hnone]; [|lia].
      pose proof (current_year_mono today.1 today.2 0 i ltac:(lia)).
      pose proof (current_year_mono today.1 today.2 i (Z.to_nat months - 1) ltac:(lia)).
      subst last_year. lia.
    + intros i _. apply not_elem_of_nil.
    + exists schedule. split; [exact Hrun|]. by rewrite Hlabels.
  - intros Hlast Hpos.
    replace (Z.to_nat months) with (S (Z.to_nat months - 1)) by lia.
    apply generate_months_raises; [apply desirable_shifts_NoDup|done|lia|done].
Qed.

(** For a recognised template the generator returns one month for each of the
    [months] requested (none when [months] is not positive), labelled with the
    consecutive calendar months that start at the month of [today], in that
    order; the roster does not matter for that. This holds as long as the
    last requested month lies in a year that [datetime] accepts; a request
    that reaches beyond year 9999 is left with [ValueError] instead. *)
Theorem generated_schedule_has_the_requested_months (table : list EmployeeHistory)
    (today : Z * Z) (team : Team) (all_employees : list Employee) (months : Z)
    (Hknown : is_Some (team_shifts_map !! shift_template team))
    (Hyear : MINYEAR ≤ today.1 ≤ MAXYEAR) (Hmonth : 1 ≤ today.2 ≤ 12) :
  let last_year := current_year today.1 today.2 (Z.to_nat months - 1) in
  (last_year ≤ MAXYEAR ∨ months ≤ 0 →
   ∃ schedule,
     _generate_with_constraints table today team all_employees months = Ok schedule
     ∧ schedule.*1 = month_label today.1 today.2 <$> seq 0 (Z.to_nat months))
  ∧ (MAXYEAR < last_year → 0 < months →
     ∃ e, _generate_with_constraints table today team all_employees months = Raise e
          ∧ exn_class e = "ValueError"%string).
Proof.
  destruct (generate_with_constraints_labels table today team all_employees months
              Hknown Hyear Hmonth) as [Hreturns Hraises].
  split; [exact Hreturns|]. intros Hlast Hpos. exists year_out_of_range.
  split; [by apply Hraises|done].
Qed.

Lemma generated_schedule_has_the_requested_months_witness :
  (∃ schedule,
     _generate_with_constraints [] (2026, 11) interns_team [ann; bob; cy] 3 = Ok schedule
     ∧ schedule.*1 = ["November 2026"; "December 2026"; "January 2027"]%string)
  ∧ ∃ e, _generate_with_constraints [] (9999, 11) interns_team [ann; bob; cy] 3 = Raise e
         ∧ exn_class e = "ValueError"%string.
Proof.
  split.
  - apply (proj1 (generated_schedule_has_the_requested_months [] (2026, 11) interns_team
                    [ann; bob; cy] 3 (mk_is_Some _ _ eq_refl)
                    ltac:(by vm_compute) ltac:(by vm_compute))).
    left. by vm_compute.
  - apply (proj2 (generated_schedule_has_the_requested_months [] (9999, 11) interns_team
                    [ann; bob; cy] 3 (mk_is_Some _ _ eq_refl)
                    ltac:(by vm_compute) ltac:(by vm_compute))); by vm_compute.
Defined.

(** ** Who floats *)

Lemma month_floaters_app (m1 m2 : MonthlyAssignment) :
  month_floaters (m1 ++ m2) = month_floaters m1 ++ month_floaters m2.
Proof. unfold month_floaters. by rewrite fmap_app, join_app. Qed.

Lemma month_floaters_dict_set_fresh (k : string) (team : list StaffEntry)
    (month : MonthlyAssignment) :
  k ∉ month.*1 →
  month_floaters (dict_set k {| assigned_staff := team; floaters := [] |} month)
  = month_floaters month.
Proof.
  intros Hfresh. rewrite dict_set_fresh by done. rewrite month_floaters_app.
  cbn. by rewrite app_nil_r.
Qed.

Lemma apply_rotation_no_floaters contexts shifts :
  ∀ i shift_teams month,
    NoDup shifts → (∀ s, s ∈ shifts → s ∉ month.*1) →
    month_floaters (apply_rotation contexts i shifts shift_teams month)
    = month_floaters month.
Proof.
  induction shifts as [|shift_name shifts IH]; intros i shift_teams month Hnodup Hfresh;
    cbn [apply_rotation]; [done|].
  apply NoDup_cons in Hnodup as [Hhead Hnodup].
  destruct (shift_teams !! i) as [team|]; [|done].
  rewrite IH; [|done|].
  - apply month_floaters_dict_set_fresh, Hfresh. by left.
  - intros s Hs. rewrite dict_set_keys by (apply Hfresh; by left).
    intros [Hin| ->%list_elem_of_singleton]%elem_of_app; [|done].
    by eapply Hfresh; [right|].
Qed.

Lemma month_floaters_add_floater (k : string) (x : StaffEntry) (month : MonthlyAssignment) :
  k ∈ month.*1 →
  month_floaters
    (dict_update k (λ sd, {| assigned_staff := assigned_staff sd;
                             floaters := floaters sd ++ [x] |}) month)
  ≡ₚ x :: month_floaters month.
Proof.
  unfold month_floaters.
  induction month as [|[k' sd] month IH]; cbn; [by intros ?%elem_of_nil|].
  intros Hk. case_decide as Hkk; cbn.
  - rewrite <- app_assoc. cbn. by rewrite Permutation_middle.
  - apply elem_of_cons in Hk as [?|Hk]; [done|].
    rewrite IH by done. by rewrite Permutation_middle.
Qed.

Lemma distribute_floaters_floater_entries (shifts : list string)
    (floater_candidates : list Employee) :
  ∀ month,
    shifts ≠ [] →
    (∀ s, s ∈ shifts → s ∈ month.*1) →
    month_floaters (distribute_floaters shifts floater_candidates month)
    ≡ₚ month_floaters month ++ (staff_entry <$> floater_candidates).
Proof.
  unfold distribute_floaters, enumerate. generalize 0%nat.
  induction floater_candidates as [|floater rest IH]; intros i month Hshifts Hkeys; cbn.
  { by rewrite app_nil_r. }
  destruct (lookup_lt_is_Some_2 shifts (i mod length shifts)%nat) as [shift_name Hshift].
  { apply Nat.mod_upper_bound. by destruct shifts. }
  rewrite Hshift. etrans; [apply IH; [done|]|].
  - intros s Hs. rewrite dict_update_keys. by apply Hkeys.
  - rewrite month_floaters_add_floater.
    + rewrite <- app_comm_cons. by rewrite Permutation_middle.
    + apply Hkeys. by eapply list_elem_of_lookup_2.
Qed.

Lemma generate_month_floaters employees contexts shifts people_per_shift required_fixed
    month_index :
  NoDup shifts → shifts ≠ [] →
  month_floaters (_generate_month_with_constraints employees contexts shifts
                    people_per_shift required_fixed month_index)
  ≡ₚ staff_entry
       <$> select_floaters employees contexts
             (Z.of_nat (length employees) - required_fixed).
Proof.
  intros Hnodup Hne. unfold _generate_month_with_constraints.
  rewrite distribute_floaters_floater_entries; [|done|].
  - rewrite apply_rotation_no_floaters; [done|done|]. intros s _. apply not_elem_of_nil.
  - intros s Hs. rewrite apply_rotation_keys; [done|done| |].
    + intros s' _. apply not_elem_of_nil.
    + apply group_fixed_staff_spec. destruct shifts; [done|cbn; lia].
Qed.

Lemma length_select_floaters employees contexts num_floaters :
  length (select_floaters employees contexts num_floaters)
  = (Z.to_nat num_floaters `min` length (filter (λ e, (1 < level_of e)%Z) employees))%nat.
Proof.
  unfold select_floaters. destruct (Z.ltb_spec 0 num_floaters).
  - by rewrite length_take, length_sorted.
  - cbn. lia.
Qed.

(** The number of floater entries of a generated month: the surplus of the
    roster over the fixed positions (shifts times people per shift), as far as
    there are employees above level 1 to take it; none when there is no
    surplus. An employee of level 1 who is part of the surplus stays fixed. *)
Theorem generated_month_floater_count (table : list EmployeeHistory) (today : Z * Z)
    (team : Team) (all_employees : list Employee) (months : Z) (schedule : Schedule)
    (label : string) (month : MonthlyAssignment)
    (Hrun : _generate_with_constraints table today team all_employees months = Ok schedule)
    (Hmonth : (label, month) ∈ schedule) :
  let shifts := desirable_shifts (shift_template team) in
  let surplus := Z.of_nat (length all_employees)
                 - Z.of_nat (length shifts) * people_per_shift team in
  length (month_floaters month)
  = (Z.to_nat surplus `min` length (filter (λ e, (1 < level_of e)%Z) all_employees))%nat.
Proof.
  intros shifts surplus.
  assert (Hne : shifts ≠ []).
  { intros Hnil. unfold _generate_with_constraints in Hrun. fold shifts in Hrun.
    rewrite Hnil in Hrun. injection Hrun as <-. by apply elem_of_nil in Hmonth. }
  apply (generate_with_constraints_month _ _ _ _ _ _ _ _ Hrun) in Hmonth. subst month.
  rewrite generate_month_floaters by (done || apply desirable_shifts_NoDup).
  by rewrite length_fmap, length_select_floaters.
Qed.

Lemma generated_month_floater_count_witness :
  ∃ schedule month,
    _generate_with_constraints [] (2026, 11)
      (mkTeam 8 "Desk" "3-shift" 1 [ada; lin; ann; bob; cy])
      [ada; lin; ann; bob; cy] 1 = Ok schedule
    ∧ ("November 2026"%string, month) ∈ schedule
    ∧ length (month_floaters month) = 2%nat.
Proof.
  eexists _, _. split; [by vm_compute|]. split; [by left|].
  refine (generated_month_floater_count [] (2026, 11)
            (mkTeam 8 "Desk" "3-shift" 1 [ada; lin; ann; bob; cy])
            [ada; lin; ann; bob; cy] 1 _ "November 2026" _ _ _).
  - by vm_compute.
  - by left.
Defined.

Lemma key_le_total (a b : Z * Z) : key_le a b = true ∨ key_le b a = true.
Proof.
  unfold key_le. destruct a as [a1 a2], b as [b1 b2]. cbn.
  destruct (Z.ltb_spec a1 b1), (Z.ltb_spec b1 a1), (Z.eqb_spec a1 b1), (Z.eqb_spec b1 a1),
    (Z.leb_spec a2 b2), (Z.leb_spec b2 a2); cbn; auto; lia.
Qed.

Lemma key_le_trans (a b c : Z * Z) :
  key_le a b = true → key_le b c = true → key_le a c = true.
Proof.
  unfold key_le. destruct a as [a1 a2], b as [b1 b2], c as [c1 c2]. cbn.
  destruct (Z.ltb_spec a1 b1), (Z.eqb_spec a1 b1), (Z.leb_spec a2 b2),
    (Z.ltb_spec b1 c1), (Z.eqb_spec b1 c1), (Z.leb_spec b2 c2),
    (Z.ltb_spec a1 c1), (Z.eqb_spec a1 c1), (Z.leb_spec a2 c2); cbn; auto; lia.
Qed.

(** Insertion keeps a list sorted when the order is total and transitive. *)
Lemma insert_by_sorted {A} (le : A → A → bool) (x : A) (l : list A) :
  (∀ a b, le a b = true ∨ le b a = true) →
  (∀ a b c, le a b = true → le b c = true → le a c = true) →
  StronglySorted (λ a b, le a b = true) l →
  StronglySorted (λ a b, le a b = true) (insert_by le x l).
Proof.
  intros Htotal Htrans. induction 1 as [|y l Hl IH Hy]; cbn.
  { repeat constructor. }
  destruct (le x y) eqn:Hxy.
  - constructor; [by constructor|]. constructor; [done|].
    eapply Forall_impl; [exact Hy|]. intros z Hz. by eapply Htrans.
  - constructor; [done|]. rewrite insert_by_Permutation. constructor; [|done].
    destruct (Htotal x y); congruence.
Qed.

Lemma sorted_sorted {A} (le : A → A → bool) (l : list A) :
  (∀ a b, le a b = true ∨ le b a = true) →
  (∀ a b c, le a b = true → le b c = true → le a c = true) →
  StronglySorted (λ a b, le a b = true) (sorted le l).
Proof.
  intros Htotal Htrans. induction l as [|x l IH]; cbn; [constructor|].
  by apply insert_by_sorted.
Qed.

(** The floaters are the eligible employees who floated least recently: an
    employee who floats has more months since floating than any employee above
    level 1 who stays fixed, or as many and a hierarchy level that is not
    greater. *)
Theorem floaters_floated_least_recently (employees : list Employee)
    (contexts : gmap Z EmployeeContext) (num_floaters : Z) (floater fixed : Employee)
    (Hfloater : floater ∈ select_floaters employees contexts num_floaters)
    (Hfixed : fixed ∈ employees)
    (Hlevel : 1 < level_of fixed)
    (Hstays : fixed ∉ select_floaters employees contexts num_floaters) :
  let since e := months_since_floater (contexts !!! e_id e) in
  (since fixed < since floater)%nat
  ∨ (since fixed = since floater ∧ level_of floater ≤ level_of fixed).
Proof.
  intros since. unfold select_floaters in *.
  destruct (0 <? num_floaters); [|by apply elem_of_nil in Hfloater].
  set (le := λ a b, key_le (floater_key contexts a) (floater_key contexts b)) in *.
  set (ranked := sorted le (filter (λ e, 1 < level_of e) employees)) in *.
  assert (Hsorted : StronglySorted (λ a b, le a b = true) ranked).
  { apply sorted_sorted; unfold le; eauto using key_le_total, key_le_trans. }
  assert (Hrest : fixed ∈ drop (Z.to_nat num_floaters) ranked).
  { assert (Hin : fixed ∈ ranked).
    { unfold ranked. rewrite sorted_Permutation. by apply list_elem_of_filter. }
    rewrite <- (take_drop (Z.to_nat num_floaters) ranked) in Hin.
    by apply elem_of_app in Hin as [?|?]. }
  rewrite <- (take_drop (Z.to_nat num_floaters) ranked) in Hsorted.
  pose proof (StronglySorted_app_1_elem_of _ _ _ _ _ Hsorted Hfloater Hrest) as Hle.
  unfold le, key_le, floater_key in Hle. cbn in Hle. fold (since floater) (since fixed) in Hle.
  destruct (Z.ltb_spec (- Z.of_nat (since floater)) (- Z.of_nat (since fixed)));
    [left; lia|].
  destruct (Z.eqb_spec (- Z.of_nat (since floater)) (- Z.of_nat (since fixed)));
    [|done].
  destruct (Z.leb_spec (level_of floater) (level_of fixed)); [|done]. right. lia.
Qed.

Lemma floaters_floated_least_recently_witness :
  let roster := [ada; lin; ann; bob] in
  let contexts := employee_contexts [] 8 roster in
  (months_since_floater (contexts !!! e_id ann)
   < months_since_floater (contexts !!! e_id lin))%nat
  ∨ (months_since_floater (contexts !!! e_id ann)
     = months_since_floater (contexts !!! e_id lin)
     ∧ level_of lin ≤ level_of ann).
Proof.
  apply (floaters_floated_least_recently [ada; lin; ann; bob]
           (employee_contexts [] 8 [ada; lin; ann; bob]) 1 lin ann).
  - vm_compute. by left.
  - do 2 right. by left.
  - by vm_compute.
  - vm_compute. intros Hin. apply list_elem_of_singleton in Hin. discriminate.
Defined.

Lemma month_without_rotation_lists_roster_once_witness :
  let roster := [ada; lin; ann; bob; cy] in
  month_entries
    (_generate_month_with_constraints roster (employee_contexts [] 8 roster)
       ["Morning"; "Afternoon"; "Night"]%string 1 3 0)
  ≡ₚ staff_entry <$> roster.
Proof.
  apply (month_without_rotation_lists_roster_once [ada; lin; ann; bob; cy]
           (employee_contexts [] 8 [ada; lin; ann; bob; cy])
           ["Morning"; "Afternoon"; "Night"]%string 1 3 0).
  - apply (bool_decide_unpack _). by vm_compute.
  - apply (bool_decide_unpack _). by vm_compute.
  - done.
  - intros e s He Hs.
    repeat (apply elem_of_cons in He as [->|He]);
      repeat (apply elem_of_cons in Hs as [->|Hs]);
      try (by apply elem_of_nil in He); try (by apply elem_of_nil in Hs);
      by vm_compute.
Defined.

Lemma understaffed_month_has_no_floaters_witness :
  floaters (mkShiftData [staff_entry ann] []) = [].
Proof.
  apply (understaffed_month_has_no_floaters [ann] (employee_contexts [] 9 [ann])
           ["Morning"; "Afternoon"; "Night"]%string 2 6 0 "Morning"
           (mkShiftData [staff_entry ann] [])).
  - cbn. lia.
  - vm_compute. by left.
Defined.

(** ** The cache under lookups and stores *)

Lemma bump_first_content (key : string) (table : list ScheduleCache) :
  cache_content <$> bump_first key table = cache_content <$> table.
Proof.
  induction table as [|c table IH]; cbn; [done|].
  case_decide; cbn; [done|]. by rewrite IH.
Qed.

Lemma bump_first_total_hits (key : string) (table : list ScheduleCache) (c : ScheduleCache) :
  cache_first table key = Some c →
  total_hits (bump_first key table) = total_hits table + 1.
Proof.
  unfold cache_first, total_hits.
  induction table as [|c' table IH]; cbn [bump_first]; [done|].
  case_decide as Hc'.
  - intros _. cbn. lia.
  - rewrite filter_cons_False by done. intros Hfirst. cbn. rewrite IH by done. lia.
Qed.

(** A lookup returns and never evicts: every row keeps its key, payload, type
    and expiry, and the other tables are not touched. A miss leaves the
    database as it is, also when the entry is there but has expired. A hit
    returns the payload of a row of that key and of type 'schedule' that has
    not expired, and adds one to the hit counts. *)
Theorem lookup_only_counts_hits (now : Z) (key : string) (db : Db) :
  let run := get_cached_schedule now key db in
  (∃ r, run.1 = Ok r)
  ∧ run.2 = set_cache (λ _, cache_table run.2) db
  ∧ cache_content <$> cache_table run.2 = cache_content <$> cache_table db
  ∧ (run.1 = Ok None → run.2 = db)
  ∧ (∀ data, run.1 = Ok (Some data) →
       total_hits (cache_table run.2) = total_hits (cache_table db) + 1
       ∧ ∃ c, c ∈ cache_table db ∧ cache_key c = key ∧ cache_type c = "schedule"%string
              ∧ cached_data c = data ∧ now < expires_at c).
Proof.
  cbv zeta. unfold get_cached_schedule, mbind, M_bind, get_db.
  destruct (cache_first (cache_table db) key) as [c|] eqn:Hfirst; cbn.
  - destruct (Z.gtb_spec (expires_at c) now) as [Hfresh|Hstale]; cbn.
    + split; [by eexists|]. split; [by destruct db|].
      split; [apply bump_first_content|]. split; [done|].
      intros data [= <-]. split; [by eapply bump_first_total_hits|].
      unfold cache_first in Hfirst. apply head_Some_elem_of in Hfirst.
      apply list_elem_of_filter in Hfirst as [[Hkey Htype] Hin]. exists c. split_and!; done || lia.
    + split; [by eexists|]. split; [by destruct db|]. split_and!; done.
  - split; [by eexists|]. split; [by destruct db|]. split_and!; done.
Qed.

(** Lookups and stores keep the cache at one row per key. *)
Theorem cache_keeps_one_row_per_key (db db' : Db)
    (Hsteps : rtc cache_step db db')
    (Hunique : NoDup (cache_key <$> cache_table db)) :
  NoDup (cache_key <$> cache_table db').
Proof.
  induction Hsteps as [db|db1 db2 db3 Hstep _ IH]; [done|]. apply IH.
  destruct Hstep as [now key r db1 db2 Hlookup|now key data type hours r db1 db2 Hstore].
  - destruct (get_cached_schedule_cases now key db1) as [Hmiss|[d Hhit]].
    + rewrite Hmiss in Hlookup. by injection Hlookup as _ <-.
    + rewrite Hhit in Hlookup. injection Hlookup as _ <-.
      cbn [cache_table set_cache]. by rewrite bump_first_keys.
  - destruct (decide (key ∈ cache_key <$> cache_table db1)) as [Hin|Hfresh].
    + rewrite save_to_cache_present in Hstore by done. by injection Hstore as _ <-.
    + rewrite save_to_cache_fresh in Hstore by done. injection Hstore as _ <-.
      cbn [cache_table set_cache]. rewrite fmap_app. apply NoDup_app.
      split_and!; [done| |apply NoDup_singleton].
      intros k Hk ->%list_elem_of_singleton. done.
Qed.

Lemma cache_keeps_one_row_per_key_witness :
  let data : Schedule := [("November 2026"%string, [])] in
  NoDup (cache_key
           <$> cache_table (save_to_cache 5 "k" data "schedule" 24
                              (save_to_cache 0 "k" data "schedule" 24 empty_db).2).2).
Proof.
  apply (cache_keeps_one_row_per_key empty_db).
  - eapply rtc_l; [by eapply (step_store 0 "k" [("November 2026"%string, [])]
                                 "schedule" 24)|].
    apply rtc_once.
    by eapply (step_store 5 "k" [("November 2026"%string, [])] "schedule" 24).
  - constructor.
Defined.

(** ** The entry point of generation and the cache *)

Lemma generate_with_constraints_nonempty table today team all_employees months :
  is_Some (team_shifts_map !! shift_template team) → 0 < months →
  months_in_range today months →
  ∃ schedule,
    _generate_with_constraints table today team all_employees months = Ok schedule
    ∧ schedule ≠ []
    ∧ schedule.*1 = month_label today.1 today.2 <$> seq 0 (Z.to_nat months).
Proof.
  intros Hknown Hmonths (Hyear & Hmonth & Hlast).
  destruct (proj1 (generate_with_constraints_labels table today team all_employees months
                     Hknown Hyear Hmonth)) as (schedule & Hrun & Hlabels); [by left|].
  exists schedule. split; [done|]. split; [|done].
  intros ->. destruct (Z.to_nat months) as [|n] eqn:Hn; [lia|]. done.
Qed.

Lemma set_usage_nil (db : Db) : set_usage (λ t, t ++ []) db = db.
Proof. destruct db. unfold set_usage. cbn. by rewrite app_nil_r. Qed.

Lemma generate_after_lookup_eq (strptime : string → option (Z * Z))
    (generate_cache_key : Z → Z → nat → string → Z → string) (str_len : Schedule → Z)
    (now : Z) (today : Z * Z) (team : Team) (months : Z) (user_id : option Z)
    (db db0 : Db) (r : option Schedule) :
  let active := filter (λ e, e_is_active e = true) (members team) in
  let key := generate_cache_key (t_id team) months (length active)
               (shift_template team) (people_per_shift team) in
  let all_employees := sorted (λ a b, level_of a <=? level_of b) active in
  get_cached_schedule now key db = (Ok r, db0) →
  r = None ∨ r = Some [] →
  generate_monthly_assignments_enhanced strptime generate_cache_key str_len
    now today team months user_id db
  = generate_after_lookup strptime str_len now today team months user_id key
      all_employees db0.
Proof.
  intros active key all_employees Hlookup Hr.
  unfold generate_monthly_assignments_enhanced. fold active key all_employees.
  unfold mbind at 1. unfold M_bind at 1. rewrite Hlookup.
  by destruct Hr as [-> | ->].
Qed.

(** The generation path of [generate_monthly_assignments_enhanced]: after a
    lookup that gave no schedule, with an active roster and a schedule
    generated, the history is committed first; then the store either is
    refused, which ends the call with the exception, or succeeds, and the
    usage row is written. *)
Lemma generate_after_miss (strptime : string → option (Z * Z))
    (generate_cache_key : Z → Z → nat → string → Z → string) (str_len : Schedule → Z)
    (now : Z) (today : Z * Z) (team : Team) (months : Z) (user_id : option Z)
    (db db0 : Db) (r : option Schedule) (schedule : Schedule) :
  let active := filter (λ e, e_is_active e = true) (members team) in
  let key := generate_cache_key (t_id team) months (length active)
               (shift_template team) (people_per_shift team) in
  let all_employees := sorted (λ a b, level_of a <=? level_of b) active in
  get_cached_schedule now key db = (Ok r, db0) →
  r = None ∨ r = Some [] →
  active ≠ [] →
  _generate_with_constraints (history_table db0) today team all_employees months
  = Ok schedule →
  schedule ≠ [] →
  ∃ dbh,
    save_assignment_history strptime (t_id team) now schedule db0 = (Ok tt, dbh)
    ∧ history_commit (t_id team) db0 dbh
    ∧ generate_monthly_assignments_enhanced strptime generate_cache_key str_len
        now today team months user_id db
      = if decide (key ∈ cache_key <$> cache_table db0)
        then (Raise (mkExn "IntegrityError" "Duplicate entry for key cache_key"), dbh)
        else (Ok schedule,
              set_usage (λ t, t ++ generate_usage_rows now user_id (t_id team)
                                     (str_len schedule))
                (set_cache (λ t, t ++ [new_cache_entry now key schedule "schedule" 24])
                   dbh)).
Proof.
  intros active key all_employees Hlookup Hr Hactive Hgen Hschedule.
  destruct (save_assignment_history_spec strptime (t_id team) now schedule db0)
    as (dbh & Hsave & Hcommit & _).
  exists dbh. split; [done|]. split; [done|].
  assert (Hcache : cache_table dbh = cache_table db0).
  { destruct Hcommit as (-> & _). by destruct db0. }
  rewrite (generate_after_lookup_eq strptime generate_cache_key str_len now today team
             months user_id db db0 r Hlookup Hr).
  fold active key all_employees.
  assert (Hall : all_employees ≠ []).
  { intros Hnil. apply Hactive. apply length_zero_iff_nil.
    rewrite <- (length_sorted (λ a b, level_of a <=? level_of b)).
    fold all_employees. by rewrite Hnil. }
  unfold generate_after_lookup.
  destruct all_employees as [|e es] eqn:Hemployees; [done|].
  unfold mbind at 1. unfold M_bind at 1. unfold get_db.
  unfold mbind at 1. unfold M_bind at 1. unfold lift. rewrite Hgen.
  destruct schedule as [|m ms] eqn:Hs; [done|].
  unfold mbind at 1. unfold M_bind at 1. rewrite Hsave.
  unfold mbind at 1. unfold M_bind at 1.
  rewrite <- Hcache.
  destruct (decide (key ∈ cache_key <$> cache_table dbh)) as [Hin|Hfresh].
  - by rewrite save_to_cache_present.
  - rewrite save_to_cache_fresh by done.
    unfold generate_usage_rows.
    destruct user_id as [uid|]; [destruct (uid =? 0)|];
      unfold mbind, M_bind, mret, M_ret, _log_api_usage, commit;
      by rewrite ?set_usage_nil.
Qed.

(** When the month loop raises, nothing has been written yet. *)
Lemma generate_after_miss_raises (strptime : string → option (Z * Z))
    (generate_cache_key : Z → Z → nat → string → Z → string) (str_len : Schedule → Z)
    (now : Z) (today : Z * Z) (team : Team) (months : Z) (user_id : option Z)
    (db db0 : Db) (r : option Schedule) (e : exn) :
  let active := filter (λ e, e_is_active e = true) (members team) in
  let key := generate_cache_key (t_id team) months (length active)
               (shift_template team) (people_per_shift team) in
  let all_employees := sorted (λ a b, level_of a <=? level_of b) active in
  get_cached_schedule now key db = (Ok r, db0) →
  r = None ∨ r = Some [] →
  active ≠ [] →
  _generate_with_constraints (history_table db0) today team all_employees months
  = Raise e →
  generate_monthly_assignments_enhanced strptime generate_cache_key str_len
    now today team months user_id db
  = (Raise e, db0).
Proof.
  intros active key all_employees Hlookup Hr Hactive Hgen.
  rewrite (generate_after_lookup_eq strptime generate_cache_key str_len now today team
             months user_id db db0 r Hlookup Hr).
  fold active key all_employees.
  assert (Hall : all_employees ≠ []).
  { intros Hnil. apply Hactive. apply length_zero_iff_nil.
    rewrite <- (length_sorted (λ a b, level_of a <=? level_of b)).
    fold all_employees. by rewrite Hnil. }
  unfold generate_after_lookup.
  destruct all_employees as [|e' es] eqn:Hemployees; [done|].
  unfold mbind at 1. unfold M_bind at 1. unfold get_db.
  unfold mbind at 1. unfold M_bind at 1. unfold lift. by rewrite Hgen.
Qed.

Lemma get_cached_schedule_fresh (now : Z) (key : string) (db : Db) :
  key ∉ cache_key <$> cache_table db → get_cached_schedule now key db = (Ok None, db).
Proof.
  intros Hfresh. unfold get_cached_schedule, mbind, M_bind, get_db.
  destruct (cache_first (cache_table db) key) as [c|] eqn:Hfirst; [|done].
  by apply cache_first_is_stored in Hfirst.
Qed.

(** All the ways [generate_monthly_assignments_enhanced] can go. *)
Lemma generate_run_cases (strptime : string → option (Z * Z))
    (generate_cache_key : Z → Z → nat → string → Z → string) (str_len : Schedule → Z)
    (now : Z) (today : Z * Z) (team : Team) (months : Z) (user_id : option Z) (db : Db) :
  let active := filter (λ e, e_is_active e = true) (members team) in
  let key := generate_cache_key (t_id team) months (length active)
               (shift_template team) (people_per_shift team) in
  let all_employees := sorted (λ a b, level_of a <=? level_of b) active in
  let run := generate_monthly_assignments_enhanced strptime generate_cache_key str_len
               now today team months user_id db in
  ∃ r db0,
    get_cached_schedule now key db = (Ok r, db0)
    ∧ (db0 = db ∨ db0 = set_cache (bump_first key) db)
    ∧ ((∃ m ms, r = Some (m :: ms) ∧ run = (Ok (m :: ms), db0))
       ∨ run = (Ok [], db0)
       ∨ (∃ e, _generate_with_constraints (history_table db0) today team all_employees
                 months = Raise e
               ∧ run = (Raise e, db0))
       ∨ ∃ schedule dbh,
           _generate_with_constraints (history_table db0) today team all_employees months
           = Ok schedule
           ∧ schedule ≠ []
           ∧ history_commit (t_id team) db0 dbh
           ∧ run = if decide (key ∈ cache_key <$> cache_table db0)
                   then (Raise (mkExn "IntegrityError" "Duplicate entry for key cache_key"),
                         dbh)
                   else (Ok schedule,
                         set_usage (λ t, t ++ generate_usage_rows now user_id (t_id team)
                                                (str_len schedule))
                           (set_cache
                              (λ t, t ++ [new_cache_entry now key schedule "schedule" 24])
                              dbh))).
Proof.
  intros active key all_employees run.
  assert (Hlookup : ∃ r db0, get_cached_schedule now key db = (Ok r, db0)
                             ∧ (db0 = db ∨ db0 = set_cache (bump_first key) db)).
  { destruct (get_cached_schedule_cases now key db) as [Hmiss|[data Hhit]]; eauto 6. }
  destruct Hlookup as (r & db0 & Hlookup & Hdb0). exists r, db0.
  split; [done|]. split; [done|].
  destruct (decide (r = None ∨ r = Some [])) as [Hr|Hr].
  - right.
    destruct (decide (active = [])) as [Hactive|Hactive].
    { left. subst run.
      rewrite (generate_after_lookup_eq strptime generate_cache_key str_len now today team
                 months user_id db db0 r Hlookup Hr).
      fold active key all_employees.
      assert (all_employees = []) as ->; [|done].
      apply length_zero_iff_nil. unfold all_employees.
      by rewrite length_sorted, Hactive. }
    destruct (_generate_with_constraints (history_table db0) today team
                all_employees months) as [schedule|e] eqn:Hgen.
    + destruct (decide (schedule = [])) as [->|Hschedule].
      { left. subst run.
        rewrite (generate_after_lookup_eq strptime generate_cache_key str_len now today
                   team months user_id db db0 r Hlookup Hr).
        fold active key all_employees. unfold generate_after_lookup.
        destruct all_employees; [done|].
        unfold mbind at 1. unfold M_bind at 1. unfold get_db.
        unfold mbind at 1. unfold M_bind at 1. unfold lift. by rewrite Hgen. }
      right. right.
      destruct (generate_after_miss strptime generate_cache_key str_len now today team
                  months user_id db db0 r schedule Hlookup Hr Hactive Hgen Hschedule)
        as (dbh & _ & Hcommit & Hrun).
      eauto 8.
    + right. left. exists e. split; [done|].
      by apply (generate_after_miss_raises strptime generate_cache_key str_len now today
                  team months user_id db db0 r e).
  - left. destruct r as [[|m ms]|]; [by destruct Hr; right| |by destruct Hr; left].
    exists m, ms. split; [done|]. subst run. unfold generate_monthly_assignments_enhanced.
    fold active key. unfold mbind at 1. unfold M_bind at 1. by rewrite Hlookup.
Qed.

(** A roster that is too small, at work: the three interns are fewer than
    the six a 3-shift team with two people per shift needs.
    Generation goes through; Ann, who had Morning, is exchanged by the
    rotation step, and the schedule that is returned and stored lists Bob
    under no shift. *)
Lemma understaffed_roster_is_not_rejected :
  let team := mkTeam 7 "Interns" "3-shift" 2 [ann; bob; cy] in
  let db := mkDb [ann; bob; cy] [team] [] [ann_had_morning] [] [] [] [] in
  let run :=
    generate_monthly_assignments_enhanced (λ _, Some (2026, 11)) (λ _ _ _ _ _, "fp"%string)
      (λ _, 120) 1793810000000000 (2026, 11) team 1 (Some 1) db in
  ∃ month,
    run.1 = Ok [("November 2026"%string, month)]
    ∧ appearances (staff_entry bob) month = 0%nat
    ∧ month_floaters month = []
    ∧ cached_data <$> cache_table run.2 = [[("November 2026"%string, month)]].
Proof. eexists. split; [by vm_compute|]. split_and!; by vm_compute. Qed.

(** C3, as the code has it. The generator has no error for a template or for
    a roster. When the shift template is not one of the recognised templates
    it returns the empty schedule: nothing is raised, no history row, usage
    row or cache entry is written, and unless an unexpired cache entry answers
    the request the result is empty and the database is left as it was. A
    roster that is smaller than shifts times people per shift is not rejected
    either: for a recognised template, at least one active member and a
    positive number of months that [datetime] can represent, the generator
    returns a schedule with one month per month requested, every month with
    the shifts of the template and without floaters; and when the cache key
    of the request is not stored yet, that schedule is what the entry point
    returns, after committing its history rows, the cache entry and the usage
    row. *)
Theorem no_error_for_template_or_roster
    (strptime : string → option (Z * Z))
    (generate_cache_key : Z → Z → nat → string → Z → string) (str_len : Schedule → Z)
    (now : Z) (today : Z * Z) (team : Team) (months : Z) (user_id : option Z) (db : Db) :
  let active := filter (λ e, e_is_active e = true) (members team) in
  let all_employees := sorted (λ a b, level_of a <=? level_of b) active in
  let key := generate_cache_key (t_id team) months (length active)
               (shift_template team) (people_per_shift team) in
  let required :=
    Z.of_nat (length (desirable_shifts (shift_template team))) * people_per_shift team in
  let run := generate_monthly_assignments_enhanced strptime generate_cache_key str_len
               now today team months user_id db in
  (team_shifts_map !! shift_template team = None →
     (∀ table employees,
        _generate_with_constraints table today team employees months = Ok [])
     ∧ (∃ schedule, run.1 = Ok schedule)
     ∧ history_table run.2 = history_table db
     ∧ usage_table run.2 = usage_table db
     ∧ cache_key <$> cache_table run.2 = cache_key <$> cache_table db
     ∧ (get_cached_schedule now key db = (Ok None, db) → run = (Ok [], db)))
  ∧ (is_Some (team_shifts_map !! shift_template team) →
     Z.of_nat (length all_employees) < required →
     active ≠ [] → 0 < months → months_in_range today months →
     ∃ schedule,
       _generate_with_constraints (history_table db) today team all_employees months
       = Ok schedule
       ∧ schedule.*1 = month_label today.1 today.2 <$> seq 0 (Z.to_nat months)
       ∧ (∀ label month, (label, month) ∈ schedule →
            month.*1 = desirable_shifts (shift_template team)
            ∧ month_floaters month = [])
       ∧ (key ∉ cache_key <$> cache_table db →
            run
            = (Ok schedule,
               set_usage (λ t, t ++ generate_usage_rows now user_id (t_id team)
                                      (str_len schedule))
                 (set_cache (λ t, t ++ [new_cache_entry now key schedule "schedule" 24])
                    (save_assignment_history strptime (t_id team) now schedule db).2)))).
Proof.
  intros active all_employees key required run. split.
  - intros Hunknown.
    split; [intros; by apply generate_with_constraints_unknown|].
    destruct (generate_run_cases strptime generate_cache_key str_len now today team months
                user_id db) as (r & db0 & Hlookup & Hdb0 & Hrun).
    fold active key all_employees run in Hlookup, Hdb0, Hrun.
    assert (Hframe : history_table db0 = history_table db
                     ∧ usage_table db0 = usage_table db
                     ∧ cache_key <$> cache_table db0 = cache_key <$> cache_table db).
    { destruct Hdb0 as [-> | ->]; [done|]. cbn [history_table usage_table cache_table
        set_cache]. by rewrite bump_first_keys. }
    destruct Hframe as (Hh & Hu & Hc).
    rewrite (generate_with_constraints_unknown _ _ _ _ _ Hunknown) in Hrun.
    destruct Hrun as [(m & ms & -> & Hrun)|[Hrun|[(e & [=] & _)|(s & dbh & [= <-] & Hs & _)]]];
      [| |done].
    + rewrite Hrun. cbn [fst snd]. split_and!; eauto.
      intros Hmiss. rewrite Hmiss in Hlookup. by injection Hlookup.
    + rewrite Hrun. cbn [fst snd]. split_and!; eauto.
      intros Hmiss. rewrite Hmiss in Hlookup. by injection Hlookup as _ <-.
  - intros Hknown Hsmall Hactive Hmonths Hdates.
    destruct (generate_with_constraints_nonempty (history_table db) today team
                all_employees months Hknown Hmonths Hdates)
      as (schedule & Hgen & Hne & Hlabels).
    exists schedule. split; [done|]. split; [done|]. split.
    + intros label month Hmonth.
      pose proof (desirable_shifts_known _ Hknown) as Hshifts.
      apply (generate_with_constraints_month _ _ _ _ _ _ _ _ Hgen) in Hmonth. subst month.
      split; [by apply generate_month_keys; [apply desirable_shifts_NoDup|]|].
      apply Permutation_nil_r.
      rewrite generate_month_floaters by (done || apply desirable_shifts_NoDup).
      fold required. unfold select_floaters.
      destruct (Z.ltb_spec 0 (Z.of_nat (length all_employees) - required)); [lia|done].
    + intros Hfresh.
      destruct (generate_after_miss strptime generate_cache_key str_len now today team
                  months user_id db db None schedule
                  (get_cached_schedule_fresh now key db Hfresh))
        as (dbh & Hsave & _ & Hrun); [by left|done|done|done|].
      fold active key in Hrun. subst run. rewrite Hrun.
      rewrite decide_False by done. by rewrite Hsave.
Qed.

Lemma no_error_for_template_or_roster_witness :
  (let team := mkTeam 9 "Solo" "2-shift" 2 [ann] in
   let db := mkDb [ann] [team] [] [] [] [] [] [] in
   generate_monthly_assignments_enhanced (λ _, Some (2026, 11)) (λ _ _ _ _ _, "fp"%string)
     (λ _, 120) 1793810000000000 (2026, 11) team 1 (Some 1) db
   = (Ok [], db))
  ∧ (let team := mkTeam 7 "Interns" "3-shift" 2 [ann; bob; cy] in
     let db := mkDb [ann; bob; cy] [team] [] [ann_had_morning] [] [] [] [] in
     ∃ schedule,
       schedule.*1 = ["November 2026"%string]
       ∧ (generate_monthly_assignments_enhanced (λ _, Some (2026, 11))
            (λ _ _ _ _ _, "fp"%string) (λ _, 120) 1793810000000000 (2026, 11) team 1
            (Some 1) db).1
         = Ok schedule).
Proof.
  split.
  - cbv zeta.
    destruct (proj1 (no_error_for_template_or_roster (λ _, Some (2026, 11))
                (λ _ _ _ _ _, "fp"%string) (λ _, 120) 1793810000000000 (2026, 11)
                (mkTeam 9 "Solo" "2-shift" 2 [ann]) 1 (Some 1)
                (mkDb [ann] [mkTeam 9 "Solo" "2-shift" 2 [ann]] [] [] [] [] [] []))
              eq_refl) as (_ & _ & _ & _ & _ & Hmiss).
    apply Hmiss. reflexivity.
  - cbv zeta.
    destruct (proj2 (no_error_for_template_or_roster (λ _, Some (2026, 11))
                (λ _ _ _ _ _, "fp"%string) (λ _, 120) 1793810000000000 (2026, 11)
                (mkTeam 7 "Interns" "3-shift" 2 [ann; bob; cy]) 1 (Some 1)
                (mkDb [ann; bob; cy] [mkTeam 7 "Interns" "3-shift" 2 [ann; bob; cy]] []
                   [ann_had_morning] [] [] [] []))
              (mk_is_Some _ _ eq_refl)) as (schedule & _ & Hlabels & _ & Hrun).
    + by vm_compute.
    + done.
    + done.
    + by vm_compute.
    + exists schedule. split; [exact Hlabels|].
      rewrite Hrun; [done|]. apply not_elem_of_nil.
Defined.

(** What a generation adds to the usage log: at most one row, of type
    'generate'. *)
Lemma generate_run_usage (strptime : string → option (Z * Z))
    (generate_cache_key : Z → Z → nat → string → Z → string) (str_len : Schedule → Z)
    (now : Z) (today : Z * Z) (team : Team) (months : Z) (user_id : option Z) (db : Db) :
  ∃ rows,
    usage_table (generate_monthly_assignments_enhanced strptime generate_cache_key str_len
                   now today team months user_id db).2
    = usage_table db ++ rows
    ∧ Forall (λ u, api_type u = "generate"%string) rows.
Proof.
  destruct (generate_run_cases strptime generate_cache_key str_len now today team months
              user_id db) as (r & db0 & _ & Hdb0 & Hrun).
  assert (Husage0 : usage_table db0 = usage_table db) by (by destruct Hdb0 as [-> | ->]).
  destruct Hrun as [(m & ms & _ & ->)|[->|[(e & _ & ->)|(schedule & dbh & _ & _ & Hcommit & ->)]]].
  - exists []. by rewrite app_nil_r.
  - exists []. by rewrite app_nil_r.
  - exists []. by rewrite app_nil_r.
  - assert (Husage : usage_table dbh = usage_table db).
    { destruct Hcommit as (-> & _). by destruct db0. }
    case_decide; cbn [snd].
    + exists []. by rewrite app_nil_r.
    + eexists. cbn [usage_table set_usage set_cache]. rewrite Husage. split; [done|].
      unfold generate_usage_rows. destruct user_id as [uid|]; [|constructor].
      destruct (uid =? 0); repeat constructor.
Qed.

(** An entry that is stored but is no longer served (it has expired, or is
    not of type 'schedule') blocks the key: the next generation for a team
    with that key commits the generated history and then raises on the store.
    No schedule is returned, the cache and the usage log stay as they were,
    and every later attempt does the same. *)
Theorem stale_cache_entry_makes_generation_raise
    (strptime : string → option (Z * Z))
    (generate_cache_key : Z → Z → nat → string → Z → string) (str_len : Schedule → Z)
    (now : Z) (today : Z * Z) (team : Team) (months : Z) (user_id : option Z) (db : Db)
    (Hknown : is_Some (team_shifts_map !! shift_template team))
    (Hmonths : 0 < months)
    (Hdates : months_in_range today months)
    (Hactive : filter (λ e, e_is_active e = true) (members team) ≠ [])
    (Hstored :
       generate_cache_key (t_id team) months
         (length (filter (λ e, e_is_active e = true) (members team)))
         (shift_template team) (people_per_shift team)
       ∈ cache_key <$> cache_table db)
    (Hmiss :
       get_cached_schedule now
         (generate_cache_key (t_id team) months
            (length (filter (λ e, e_is_active e = true) (members team)))
            (shift_template team) (people_per_shift team)) db
       = (Ok None, db)) :
  let run := generate_monthly_assignments_enhanced strptime generate_cache_key str_len
               now today team months user_id db in
  ∃ schedule,
    _generate_with_constraints (history_table db) today team
      (sorted (λ a b, level_of a <=? level_of b)
         (filter (λ e, e_is_active e = true) (members team))) months
    = Ok schedule
    ∧ schedule ≠ []
    ∧ run.1 = Raise (mkExn "IntegrityError" "Duplicate entry for key cache_key")
    ∧ run.2 = (save_assignment_history strptime (t_id team) now schedule db).2
    ∧ cache_table run.2 = cache_table db
    ∧ usage_table run.2 = usage_table db
    ∧ saved_schedule_table run.2 = saved_schedule_table db.
Proof.
  intros run.
  destruct (generate_with_constraints_nonempty (history_table db) today team
              (sorted (λ a b, level_of a <=? level_of b)
                 (filter (λ e, e_is_active e = true) (members team))) months
              Hknown Hmonths Hdates) as (schedule & Hgen & Hne & _).
  exists schedule. split; [done|]. split; [done|].
  destruct (generate_after_miss strptime generate_cache_key str_len now today team months
              user_id db db None schedule Hmiss) as (dbh & Hsave & Hcommit & Hrun);
    [by left|done|done|done|].
  subst run. rewrite Hrun. rewrite decide_True by done. cbn [fst snd].
  rewrite Hsave. cbn [snd].
  destruct Hcommit as (-> & _). split; [done|]. split; [done|]. by destruct db.
Qed.

Lemma stale_cache_entry_makes_generation_raise_witness :
  let expired := mkScheduleCache "fp" [("October 2026"%string, [])] "schedule" 0 86400000000 1 in
  let db := mkDb [ann; bob; cy] [interns_team] [] [] [expired] [] [] [] in
  let run :=
    generate_monthly_assignments_enhanced (λ _, Some (2026, 11)) (λ _ _ _ _ _, "fp"%string)
      (λ _, 120) 1793810000000000 (2026, 11) interns_team 1 (Some 1) db in
  run.1 = Raise (mkExn "IntegrityError" "Duplicate entry for key cache_key")
  ∧ cache_table run.2 = [expired].
Proof.
  cbv zeta.
  destruct (stale_cache_entry_makes_generation_raise (λ _, Some (2026, 11))
              (λ _ _ _ _ _, "fp"%string) (λ _, 120) 1793810000000000 (2026, 11)
              interns_team 1 (Some 1)
              (mkDb [ann; bob; cy] [interns_team] [] []
                 [mkScheduleCache "fp" [("October 2026"%string, [])] "schedule" 0
                    86400000000 1] [] [] [])
              (mk_is_Some _ _ eq_refl) eq_refl)
    as (schedule & _ & _ & Hraise & _ & Hcache & _).
  - by vm_compute.
  - done.
  - by left.
  - reflexivity.
  - split; [exact Hraise|exact Hcache].
Defined.

(** Generation spends no rate budget: whatever a call of
    [generate_monthly_assignments_enhanced] does, the rate check of every
    configured action kind answers afterwards as it did before, for every
    user and at every time. *)
Theorem generation_leaves_rate_checks_unchanged
    (strptime : string → option (Z * Z))
    (generate_cache_key : Z → Z → nat → string → Z → string) (str_len : Schedule → Z)
    (now : Z) (today : Z * Z) (team : Team) (months : Z) (user_id : option Z) (db : Db)
    (at_time checked_user : Z) (action_type : string)
    (Hconfigured : is_Some (RATE_LIMITS !! action_type)) :
  check_rate_limit
    (usage_table (generate_monthly_assignments_enhanced strptime generate_cache_key str_len
                    now today team months user_id db).2)
    at_time checked_user action_type
  = check_rate_limit (usage_table db) at_time checked_user action_type.
Proof.
  destruct (generate_run_usage strptime generate_cache_key str_len now today team months
              user_id db) as (rows & -> & Hrows).
  assert (Hkind : action_type ≠ "generate"%string).
  { intros ->. by destruct Hconfigured as [? [=]]. }
  unfold check_rate_limit. destruct (RATE_LIMITS !! action_type) as [[limit window]|]; [|done].
  rewrite filter_app.
  rewrite (filter_none _ rows); [by rewrite app_nil_r|].
  intros u Hu (_ & Htype & _). eapply Forall_forall in Hrows; [|done]. congruence.
Qed.

Lemma generation_leaves_rate_checks_unchanged_witness :
  let db := mkDb [ann; bob; cy] [interns_team] [] [] [] [] [] [] in
  check_rate_limit
    (usage_table
       (generate_monthly_assignments_enhanced (λ _, Some (2026, 11))
          (λ _ _ _ _ _, "fp"%string) (λ _, 120) 1793810000000000 (2026, 11)
          interns_team 1 (Some 1) db).2)
    1793810000000000 1 "schedule_generation"
  = (true, "0/10 calls used in current window"%string).
Proof.
  cbv zeta.
  rewrite (generation_leaves_rate_checks_unchanged (λ _, Some (2026, 11))
             (λ _ _ _ _ _, "fp"%string) (λ _, 120) 1793810000000000 (2026, 11)
             interns_team 1 (Some 1) _ 1793810000000000 1 "schedule_generation"
             (mk_is_Some _ _ eq_refl)).
  reflexivity.
Defined.

(** A second request for the same team and month count within 24 hours of a
    generation is served from the cache: it returns the schedule that was
    generated, and writes neither history nor usage. *)
Theorem second_request_within_a_day_is_served_from_cache
    (strptime : string → option (Z * Z))
    (generate_cache_key : Z → Z → nat → string → Z → string) (str_len : Schedule → Z)
    (now now2 : Z) (today today2 : Z * Z) (team : Team) (months : Z)
    (user_id user_id2 : option Z) (db : Db)
    (Hknown : is_Some (team_shifts_map !! shift_template team))
    (Hmonths : 0 < months)
    (Hdates : months_in_range today months)
    (Hactive : filter (λ e, e_is_active e = true) (members team) ≠ [])
    (Hfresh :
       generate_cache_key (t_id team) months
         (length (filter (λ e, e_is_active e = true) (members team)))
         (shift_template team) (people_per_shift team)
       ∉ cache_key <$> cache_table db)
    (Hsoon : now2 - now < timedelta_hours 24) :
  let first := generate_monthly_assignments_enhanced strptime generate_cache_key str_len
                 now today team months user_id db in
  let second := generate_monthly_assignments_enhanced strptime generate_cache_key str_len
                  now2 today2 team months user_id2 first.2 in
  ∃ schedule,
    schedule ≠ []
    ∧ first.1 = Ok schedule
    ∧ second.1 = Ok schedule
    ∧ history_table second.2 = history_table first.2
    ∧ usage_table second.2 = usage_table first.2.
Proof.
  cbv zeta.
  set (key := generate_cache_key (t_id team) months
                (length (filter (λ e, e_is_active e = true) (members team)))
                (shift_template team) (people_per_shift team)) in *.
  destruct (generate_with_constraints_nonempty (history_table db) today team
              (sorted (λ a b, level_of a <=? level_of b)
                 (filter (λ e, e_is_active e = true) (members team))) months
              Hknown Hmonths Hdates) as (schedule & Hgen & Hschedule & _).
  destruct (generate_after_miss strptime generate_cache_key str_len now today team months
              user_id db db None schedule (get_cached_schedule_fresh now key db Hfresh))
    as (dbh & _ & Hcommit & Hfirst); [by left|done|done|done|].
  fold key in Hfirst. rewrite decide_False in Hfirst by done.
  exists schedule. split; [done|]. rewrite Hfirst. cbn [fst snd]. split; [done|].
  set (db1 := set_usage _ (set_cache _ dbh)).
  assert (Hcache : cache_table dbh = cache_table db).
  { destruct Hcommit as (-> & _). by destruct db. }
  assert (Hhit : get_cached_schedule now2 key db1
                 = (Ok (Some schedule), set_cache (bump_first key) db1)).
  { unfold get_cached_schedule, mbind, M_bind, get_db.
    assert (cache_first (cache_table db1) key
            = Some (new_cache_entry now key schedule "schedule" 24)) as ->.
    { subst db1. cbn [cache_table set_usage set_cache]. rewrite Hcache.
      by apply (cache_first_fresh_key (cache_table db)
                  (new_cache_entry now key schedule "schedule" 24)). }
    cbn [expires_at new_cache_entry cached_data].
    destruct (Z.gtb_spec (now + timedelta_hours 24) now2); [done|lia]. }
  assert (Hsecond :
    generate_monthly_assignments_enhanced strptime generate_cache_key str_len
      now2 today2 team months user_id2 db1
    = (Ok schedule, set_cache (bump_first key) db1)).
  { unfold generate_monthly_assignments_enhanced. fold key.
    unfold mbind at 1. unfold M_bind at 1. rewrite Hhit.
    by destruct schedule. }
  rewrite Hsecond. by destruct db1.
Qed.

Lemma second_request_within_a_day_is_served_from_cache_witness :
  let db := mkDb [ann; bob; cy] [interns_team] [] [] [] [] [] [] in
  let first :=
    generate_monthly_assignments_enhanced (λ _, Some (2026, 11)) (λ _ _ _ _ _, "fp"%string)
      (λ _, 120) 1793810000000000 (2026, 11) interns_team 1 (Some 1) db in
  let second :=
    generate_monthly_assignments_enhanced (λ _, Some (2026, 11)) (λ _ _ _ _ _, "fp"%string)
      (λ _, 120) 1793813600000000 (2026, 11) interns_team 1 (Some 2) first.2 in
  ∃ schedule,
    schedule ≠ [] ∧ first.1 = Ok schedule ∧ second.1 = Ok schedule
    ∧ history_table second.2 = history_table first.2
    ∧ usage_table second.2 = usage_table first.2.
Proof.
  apply (second_request_within_a_day_is_served_from_cache (λ _, Some (2026, 11))
           (λ _ _ _ _ _, "fp"%string) (λ _, 120) 1793810000000000 1793813600000000
           (2026, 11) (2026, 11) interns_team 1 (Some 1) (Some 2)
           (mkDb [ann; bob; cy] [interns_team] [] [] [] [] [] [])
           (mk_is_Some _ _ eq_refl) eq_refl).
  - by vm_compute.
  - done.
  - apply not_elem_of_nil.
  - unfold timedelta_hours. lia.
Defined.

(** ** The usage governor: windows *)

Lemma rate_limits_configured (action_type : string) (limit window : Z) :
  RATE_LIMITS !! action_type = Some (limit, window) →
  0 < limit ∧ 0 < window.
Proof.
  unfold RATE_LIMITS. cbn [list_to_map foldr uncurry fst snd].
  destruct (decide (action_type = "schedule_generation"%string)) as [->|H1].
  { rewrite lookup_insert_eq. intros [= <- <-]. lia. }
  rewrite lookup_insert_ne by done.
  destruct (decide (action_type = "ai_validation"%string)) as [->|H2].
  { rewrite lookup_insert_eq. intros [= <- <-]. lia. }
  rewrite lookup_insert_ne by done.
  destruct (decide (action_type = "schedule_fixes"%string)) as [->|H3].
  { rewrite lookup_insert_eq. intros [= <- <-]. lia. }
  rewrite lookup_insert_ne by done. by rewrite lookup_empty.
Qed.

(** For a configured action kind the rate check counts the rows of the user
    and the kind whose timestamp lies in the trailing window, and denies
    exactly when they are at least the limit. Rows of other users, of other
    kinds or older than the window do not count: once every matching row is
    older than the window the check allows again, with no call reported as
    used. *)
Theorem rate_limit_counts_the_trailing_window (usage : list APIUsageLog)
    (now user_id : Z) (action_type : string) (limit window : Z)
    (Hconfigured : RATE_LIMITS !! action_type = Some (limit, window)) :
  let recent :=
    filter (λ u, u_user_id u = user_id ∧ api_type u = action_type
                 ∧ now - timedelta_seconds window ≤ u_timestamp u) usage in
  ((check_rate_limit usage now user_id action_type).1 = false
   ↔ limit ≤ Z.of_nat (length recent))
  ∧ (recent = [] →
     check_rate_limit usage now user_id action_type
     = (true, "0/" +:+ pretty limit +:+ " calls used in current window")).
Proof.
  intros recent. pose proof (rate_limits_configured _ _ _ Hconfigured) as [Hlimit _].
  unfold check_rate_limit. rewrite Hconfigured. fold recent. split.
  - destruct (Z.leb_spec limit (Z.of_nat (length recent))); cbn; split; (done || lia).
  - intros ->. cbn [length].
    destruct (Z.leb_spec limit (Z.of_nat 0)); [lia|]. reflexivity.
Qed.

Lemma rate_limit_counts_the_trailing_window_witness :
  let hour := 3600000000 in
  let fix_at t := mkAPIUsageLog 1 7 "schedule_fixes" 10 0.00002 t true in
  let usage := [fix_at 100; fix_at 200; fix_at 300; fix_at 400; fix_at 500] in
  (check_rate_limit usage 500 1 "schedule_fixes").1 = false
  ∧ (check_rate_limit usage (500 + hour + 1) 1 "schedule_fixes").1 = true.
Proof.
  cbv zeta. split.
  - apply (rate_limit_counts_the_trailing_window _ 500 1 "schedule_fixes" 5 3600 eq_refl).
    by vm_compute.
  - rewrite (proj2 (rate_limit_counts_the_trailing_window _ (500 + 3600000000 + 1) 1
                      "schedule_fixes" 5 3600 eq_refl)); [done|].
    by vm_compute.
Defined.

Lemma day_of_month_bounds (days : Z) : 1 ≤ day_of_month days ≤ 31.
Proof. unfold day_of_month. cbv zeta. Z.div_mod_to_equations. lia. Qed.

Lemma cost_windows_nested (now : Z) :
  month_start now ≤ day_start now ∧ day_start now ≤ now.
Proof.
  pose proof (day_of_month_bounds (now / usec_per_day)) as Hday.
  unfold month_start, day_start, usec_per_day in *.
  pose proof (Z.mod_pos_bound now (86400 * 1000000)). lia.
Qed.

(** The month window of the cost check contains its day window: the first
    of the month is not after the start of the day, which is not after now.
    So every usage row that is summed into the daily cost is summed into the
    monthly cost as well, and a user without a row in the current month is
    allowed without a warning, whatever the database makes of a sum. *)
Theorem daily_cost_rows_are_monthly_cost_rows (usage : list APIUsageLog)
    (now user_id : Z) :
  month_start now ≤ day_start now ≤ now
  ∧ cost_rows usage user_id (day_start now)
      `sublist_of` cost_rows usage user_id (month_start now)
  ∧ (cost_rows usage user_id (month_start now) = [] →
     ∀ sql_sum, check_cost_limits sql_sum usage now user_id = (true, Warnings [])).
Proof.
  pose proof (cost_windows_nested now) as [Hmonth Hday]. split; [done|].
  assert (Hsub : cost_rows usage user_id (day_start now)
                   `sublist_of` cost_rows usage user_id (month_start now)).
  { unfold cost_rows.
    rewrite <- (list_filter_filter_l
                  (λ u, u_user_id u = user_id ∧ day_start now ≤ u_timestamp u)
                  (λ u, u_user_id u = user_id ∧ month_start now ≤ u_timestamp u)).
    - apply sublist_filter.
    - intros u [? ?]. split; [done|lia]. }
  split; [done|]. intros Hnone sql_sum.
  rewrite Hnone in Hsub. apply sublist_nil_r in Hsub.
  unfold check_cost_limits, sum_cost. by rewrite Hnone, Hsub.
Qed.

(** The costs are doubles. Two logged requests of 100 and of 4,999,900 tokens
    cost 0.0002 and 9.999799999999999; a database that adds the doubles in
    the order of the rows returns 9.999999999999998, and the check allows. *)
Lemma logged_costs_are_rounded :
  let log tokens := _log_api_usage 1793800000000000 1 7 "generate" tokens in
  let db := (log 4999900 (log 100 empty_db).2).2 in
  cost_estimate <$> usage_table db = [0.0002; 9.999799999999999]%float
  ∧ or_zero (sum_cost (foldl PrimFloat.add 0.0%float) (usage_table db) 1
               (day_start 1793810000000000))
    = 9.999999999999998%float
  ∧ (check_cost_limits (foldl PrimFloat.add 0.0%float) (usage_table db)
       1793810000000000 1).1 = true.
Proof. split_and!; by vm_compute. Qed.

(** ** Validation: what is always returned and what the local pass reports *)


Lemma elem_of_validate_against_history (strptime : string → option (Z * Z)) (db : Db)
    (team_id : Z) (schedule : Schedule) (v : string) :
  v ∈ validate_against_history strptime db team_id schedule
  ↔ ∃ label month shift_name shift_data entry (is_floater : bool),
      (label, month) ∈ schedule ∧ (shift_name, shift_data) ∈ month
      ∧ entry ∈ (if is_floater then floaters shift_data
                 else assigned_staff shift_data)
      ∧ v ∈ _check_employee_rules db team_id (se_name entry) shift_name
              (_parse_month_key strptime label) is_floater.
Proof.
  unfold validate_against_history. split.
  - intros (per_month & Hv & Hper_month)%list_elem_of_join.
    apply list_elem_of_fmap in Hper_month as ([label month] & -> & Hmonth).
    apply list_elem_of_join in Hv as (per_shift & Hv & Hper_shift).
    apply list_elem_of_fmap in Hper_shift as ([shift_name shift_data] & -> & Hshift).
    apply elem_of_app in Hv as [Hv|Hv];
      apply list_elem_of_join in Hv as (msgs & Hv & Hmsgs);
      apply list_elem_of_fmap in Hmsgs as (entry & -> & Hentry).
    + by exists label, month, shift_name, shift_data, entry, false.
    + by exists label, month, shift_name, shift_data, entry, true.
  - intros (label & month & shift_name & shift_data & entry & is_floater
            & Hmonth & Hshift & Hentry & Hv).
    apply list_elem_of_join. eexists. split; [|apply list_elem_of_fmap; by eexists].
    cbn. apply list_elem_of_join. eexists. split; [|apply list_elem_of_fmap; by eexists].
    cbn. apply elem_of_app. destruct is_floater; [right|left];
      (apply list_elem_of_join; eexists; split; [exact Hv|]);
      apply list_elem_of_fmap; by eexists.
Qed.

(** The local pass misses none of its three rules. For an entry of the
    schedule whose name the employee table knows: a floater of level 1 is
    reported under rule 2; a floater whose newest history row is a floater row
    is reported under rule 3; and a fixed member who must rotate monthly
    (level other than 1 and 2) and whose newest history row has the shift
    being assigned is reported under rule 4. *)
Theorem local_pass_reports_every_breach
    (strptime : string → option (Z * Z)) (db : Db) (team_id : Z) (schedule : Schedule)
    (label shift_name : string) (month : MonthlyAssignment) (shift_data : ShiftData)
    (entry : StaffEntry) (is_floater : bool) (employee : Employee)
    (Hmonth : (label, month) ∈ schedule)
    (Hshift : (shift_name, shift_data) ∈ month)
    (Hentry : entry ∈ (if is_floater then floaters shift_data
                       else assigned_staff shift_data))
    (Hknown : employee_by_name (employee_table db) (se_name entry) = Some employee) :
  let found := validate_against_history strptime db team_id schedule in
  let month_key := _parse_month_key strptime label in
  let newest := head (history_query (history_table db) (e_id employee) team_id 3) in
  (is_floater = true → level_of employee = 1 →
   ("RULE 2 VIOLATION: " +:+ se_name entry
    +:+ " (top hierarchy) cannot be assigned as floater in " +:+ month_key) ∈ found)
  ∧ (is_floater = true → was_floater <$> newest = Some true →
     ("RULE 3 VIOLATION: " +:+ se_name entry
      +:+ " was floater last month, cannot be floater again in " +:+ month_key) ∈ found)
  ∧ (is_floater = false → level_of employee ≠ 1 → level_of employee ≠ 2 →
     shift_assigned <$> newest = Some (Some shift_name) →
     ("RULE 4 VIOLATION: " +:+ se_name entry +:+ " had " +:+ shift_name
      +:+ " shift last month, must rotate in " +:+ month_key) ∈ found).
Proof.
  intros found month_key newest. subst found.
  assert (Hin : ∀ v, v ∈ _check_employee_rules db team_id (se_name entry) shift_name
                           month_key is_floater →
                     v ∈ validate_against_history strptime db team_id schedule).
  { intros v Hv. apply elem_of_validate_against_history.
    by exists label, month, shift_name, shift_data, entry, is_floater. }
  unfold _check_employee_rules in Hin. rewrite Hknown in Hin. fold newest in Hin.
  split_and!.
  - intros -> Hlevel. apply Hin. rewrite Hlevel. cbn. by left.
  - intros -> Hfloated. apply Hin. apply elem_of_app. right. apply elem_of_app. left.
    subst newest. destruct (history_query _ _ _ _) as [|last_month rest]; [done|].
    cbn in Hfloated. injection Hfloated as ->. cbn. by left.
  - intros -> H1 H2 Hsame. apply Hin. apply elem_of_app. right. apply elem_of_app. right.
    subst newest. destruct (history_query _ _ _ _) as [|last_assignment rest]; [done|].
    cbn in Hsame. injection Hsame as Hsame. cbn [negb andb].
    assert ((_get_stability_months (level_of employee) <=? 1) = true) as ->.
    { unfold _get_stability_months.
      destruct (Z.eqb_spec (level_of employee) 1); [done|].
      by destruct (Z.eqb_spec (level_of employee) 2). }
    rewrite bool_decide_eq_true_2 by done. cbn. by left.
Qed.

Lemma local_pass_reports_every_breach_witness :
  let db := mkDb [ada] [] [] [] [] [] [] [] in
  let schedule : Schedule :=
    [("November 2026"%string,
      [("Morning"%string, mkShiftData [] [mkStaffEntry "Ada" "Chief"])])] in
  "RULE 2 VIOLATION: Ada (top hierarchy) cannot be assigned as floater in 2026-11"%string
    ∈ validate_against_history (λ _, Some (2026, 11)) db 7 schedule.
Proof.
  apply (local_pass_reports_every_breach (λ _, Some (2026, 11))
           (mkDb [ada] [] [] [] [] [] [] []) 7 _ "November 2026" "Morning"
           [("Morning"%string, mkShiftData [] [mkStaffEntry "Ada" "Chief"])]
           (mkShiftData [] [mkStaffEntry "Ada" "Chief"]) (mkStaffEntry "Ada" "Chief")
           true ada); (by left) || reflexivity.
Defined.

Lemma check_employee_rules_without_rule_2 (db : Db) (team_id : Z)
    (employee_name shift_name month_key : string) (is_floater : bool) (v : string) :
  (∀ employee, employee_by_name (employee_table db) employee_name = Some employee →
               is_floater = true → level_of employee ≠ 1) →
  v ∈ _check_employee_rules db team_id employee_name shift_name month_key is_floater →
  String.prefix "RULE 2" v = false.
Proof.
  intros Hlevel. unfold _check_employee_rules.
  destruct (employee_by_name (employee_table db) employee_name) as [employee|].
  - assert (is_floater && (level_of employee =? 1) = false) as ->.
    { destruct is_floater; [|done]. cbn.
      destruct (Z.eqb_spec (level_of employee) 1); [|done]. by destruct (Hlevel employee). }
    cbn [app].
    destruct (history_query _ _ _ _) as [|newest rest]; [by intros ?%elem_of_nil|].
    intros [Hv|Hv]%elem_of_app.
    + destruct (_ && _); [|by apply elem_of_nil in Hv].
      by apply list_elem_of_singleton in Hv as ->.
    + destruct (_ && _ && _); [|by apply elem_of_nil in Hv].
      by apply list_elem_of_singleton in Hv as ->.
  - by intros ->%list_elem_of_singleton.
Qed.

(** The generator and the local pass agree on the floater exemption: when the
    names of the roster resolve to the roster's employees, validating a
    schedule that the generator returned reports nothing under rule 2. *)
Theorem generated_schedule_passes_rule_2
    (strptime : string → option (Z * Z)) (db : Db) (table : list EmployeeHistory)
    (today : Z * Z) (team : Team) (all_employees : list Employee) (months : Z)
    (schedule : Schedule) (v : string)
    (Hnames : ∀ e, e ∈ all_employees →
                   employee_by_name (employee_table db) (e_name e) = Some e)
    (Hrun : _generate_with_constraints table today team all_employees months = Ok schedule)
    (Hfound : v ∈ validate_against_history strptime db (t_id team) schedule) :
  String.prefix "RULE 2" v = false.
Proof.
  apply elem_of_validate_against_history in Hfound
    as (label & month & shift_name & shift_data & entry & is_floater
        & Hmonth & Hshift & Hentry & Hv).
  eapply check_employee_rules_without_rule_2; [|exact Hv].
  intros employee Hknown ->.
  apply (generate_with_constraints_month _ _ _ _ _ _ _ _ Hrun) in Hmonth. subst month.
  destruct (month_floaters_are_eligible _ _ _ _ _ _ _ _ _ Hshift Hentry)
    as (e & He & -> & Hlevel).
  cbn in Hknown. rewrite (Hnames e He) in Hknown. injection Hknown as <-. lia.
Qed.

Lemma generated_schedule_passes_rule_2_witness :
  let roster := [ada; lin; ann; bob] in
  let team := mkTeam 8 "Desk" "3-shift" 1 roster in
  let db := mkDb roster [team] [] [] [] [] [] [] in
  ∃ schedule,
    _generate_with_constraints [] (2026, 11) team roster 1 = Ok schedule
    ∧ Forall (λ v, String.prefix "RULE 2" v = false)
        (validate_against_history (λ _, Some (2026, 11)) db 8 schedule).
Proof.
  eexists. split; [by vm_compute|].
  apply Forall_forall. intros v Hv.
  eapply (generated_schedule_passes_rule_2 (λ _, Some (2026, 11))
            (mkDb [ada; lin; ann; bob] [mkTeam 8 "Desk" "3-shift" 1 [ada; lin; ann; bob]]
               [] [] [] [] [] [])
            [] (2026, 11) (mkTeam 8 "Desk" "3-shift" 1 [ada; lin; ann; bob])
            [ada; lin; ann; bob] 1 _ v).
  3: exact Hv.
  - intros e He. repeat (apply elem_of_cons in He as [->|He]); try reflexivity.
    by apply elem_of_nil in He.
  - by vm_compute.
Defined.

(** ** The routes that store and delete schedules *)

Lemma length_omap_total {A B} (f : A → option B) (l : list A) :
  (∀ x, x ∈ l → is_Some (f x)) → length (omap f l) = length l.
Proof.
  induction l as [|x l IH]; intros Hsome; [done|]. cbn.
  destruct (Hsome x) as [y Hy]; [by left|]. rewrite Hy. cbn. f_equal.
  apply IH. intros x' Hx'. apply Hsome. by right.
Qed.

Lemma length_emergency_shift_team active_employees people_per_shift i :
  active_employees ≠ [] →
  length (emergency_shift_team active_employees people_per_shift i)
  = Z.to_nat people_per_shift.
Proof.
  intros Hactive. unfold emergency_shift_team.
  rewrite length_omap_total; [by rewrite length_seq|].
  intros j _. cbv zeta. apply fmap_is_Some, lookup_lt_is_Some_2.
  pose proof (Z.mod_pos_bound (Z.of_nat i * people_per_shift + Z.of_nat j)
                (Z.of_nat (length active_employees))).
  destruct active_employees; [done|]. cbn [length] in *. lia.
Qed.

Lemma emergency_shift_team_members active_employees people_per_shift i :
  emergency_shift_team active_employees people_per_shift i
    ⊆ staff_entry <$> active_employees.
Proof.
  intros entry Hin. unfold emergency_shift_team in Hin.
  apply list_elem_of_omap in Hin as (j & _ & Hj). cbv zeta in Hj.
  apply fmap_Some in Hj as (e & He & ->).
  apply list_elem_of_fmap_2. by eapply list_elem_of_lookup_2.
Qed.

Lemma py_index_nonneg {A} (l : list A) (i : Z) (x : A) :
  0 ≤ i → l !! Z.to_nat i = Some x → py_index l i = Ok x.
Proof.
  intros Hi Hx. unfold py_index.
  destruct (Z.ltb_spec i 0); [lia|]. destruct (Z.ltb_spec i 0); [lia|]. by rewrite Hx.
Qed.

Lemma emergency_shift_data_ok active_employees num_shifts people_per_shift i :
  0 ≤ people_per_shift →
  emergency_shift_data active_employees num_shifts people_per_shift i
  = Ok (emergency_entry active_employees num_shifts people_per_shift i).
Proof.
  intros Hpps. unfold emergency_shift_data, emergency_entry.
  set (start := Z.of_nat num_shifts * people_per_shift).
  assert (Hstart : 0 ≤ start) by (subst start; lia).
  destruct (Z.ltb_spec start (Z.of_nat (length active_employees))) as [H1|H1];
    cbn [andb].
  - destruct (Z.ltb_spec (start + Z.of_nat i) (Z.of_nat (length active_employees)))
      as [H2|H2].
    + destruct (lookup_lt_is_Some_2 active_employees (Z.to_nat start + i)) as [e He];
        [lia|].
      rewrite (py_index_nonneg active_employees (start + Z.of_nat i) e); [by rewrite He|lia|].
      by replace (Z.to_nat (start + Z.of_nat i)) with (Z.to_nat start + i)%nat by lia.
    + rewrite (lookup_ge_None_2 active_employees) by lia. done.
  - rewrite (lookup_ge_None_2 active_employees) by lia. done.
Qed.

Lemma emergency_assignments_spec active_employees num_shifts people_per_shift :
  0 ≤ people_per_shift →
  ∀ shifts k acc,
    NoDup (acc.*1 ++ shifts) →
    emergency_assignments active_employees num_shifts people_per_shift
      (enumerate_from k shifts) acc
    = Ok (acc ++ zip shifts
                   (emergency_entry active_employees num_shifts people_per_shift
                      <$> seq k (length shifts))).
Proof.
  intros Hpps. induction shifts as [|shift shifts IH]; intros k acc Hnodup;
    cbn [enumerate_from emergency_assignments length seq fmap list_fmap zip zip_with].
  { by rewrite app_nil_r. }
  rewrite emergency_shift_data_ok by done.
  assert (Hfresh : shift ∉ acc.*1).
  { intros Hin. apply NoDup_app in Hnodup as (_ & Hdisjoint & _).
    apply (Hdisjoint shift Hin). by left. }
  rewrite dict_set_fresh by done. rewrite IH.
  - by rewrite <- app_assoc.
  - rewrite fmap_app, <- app_assoc. done.
Qed.

Lemma emergency_shifts_NoDup (template : string) : NoDup (emergency_shifts template).
Proof.
  unfold emergency_shifts.
  destruct (team_shifts_map !! template) as [shifts|] eqn:Hshifts; cbn [default from_option].
  - destruct (team_shifts_map_templates _ _ Hshifts) as [->|[->| ->]];
      vm_compute in Hshifts; injection Hshifts as <-;
      apply (bool_decide_unpack _); by vm_compute.
  - apply (bool_decide_unpack _). by vm_compute.
Qed.

Lemma saved_schedule_upsert_ids team_id schedule table :
  s_team_id <$> saved_schedule_upsert team_id schedule table
  = if decide (team_id ∈ s_team_id <$> table) then s_team_id <$> table
    else (s_team_id <$> table) ++ [team_id].
Proof.
  induction table as [|row table IH]; cbn [saved_schedule_upsert].
  { by rewrite decide_False by apply not_elem_of_nil. }
  destruct (decide (s_team_id row = team_id)) as [Hrow|Hrow].
  - rewrite decide_True; [reflexivity|].
    apply list_elem_of_fmap. exists row. split; [done|by left].
  - change (s_team_id <$> row :: saved_schedule_upsert team_id schedule table)
      with (s_team_id row :: (s_team_id <$> saved_schedule_upsert team_id schedule table)).
    change (s_team_id <$> row :: table) with (s_team_id row :: (s_team_id <$> table)).
    rewrite IH.
    destruct (decide (team_id ∈ s_team_id <$> table)) as [Hin|Hout].
    + by rewrite decide_True by (by right).
    + rewrite decide_False; [done|]. by intros [?|?]%elem_of_cons.
Qed.

Lemma saved_schedule_upsert_NoDup team_id schedule table :
  NoDup (s_team_id <$> table) →
  NoDup (s_team_id <$> saved_schedule_upsert team_id schedule table).
Proof.
  intros Hnodup. rewrite saved_schedule_upsert_ids. case_decide; [done|].
  apply NoDup_app. split_and!; [done| |apply NoDup_singleton].
  by intros id Hid ->%list_elem_of_singleton.
Qed.

Lemma saved_schedule_upsert_row team_id schedule table :
  mkSavedSchedule team_id schedule ∈ saved_schedule_upsert team_id schedule table.
Proof.
  induction table as [|row table IH]; cbn [saved_schedule_upsert]; [by left|].
  destruct (decide (s_team_id row = team_id)) as [Hrow|Hrow];
    [rewrite Hrow; by left|by right].
Qed.

Lemma saved_schedule_upsert_others team_id schedule table :
  filter (λ s, s_team_id s ≠ team_id) (saved_schedule_upsert team_id schedule table)
  = filter (λ s, s_team_id s ≠ team_id) table.
Proof.
  induction table as [|row table IH]; cbn [saved_schedule_upsert].
  { by rewrite filter_cons_False by (by intros ?). }
  destruct (decide (s_team_id row = team_id)) as [Hrow|Hrow].
  - rewrite !filter_cons_False; [done| |]; cbn; by intros ?.
  - rewrite !filter_cons_True by done. by rewrite IH.
Qed.

(** What [emergency_schedule] does for a team with three active members or
    more and a [people_per_shift] that is not negative. *)
Lemma emergency_schedule_run (today : Z * Z) (team_id : Z) (db : Db) (team : Team) :
  team_get db team_id = Some team →
  (3 ≤ length (filter (λ e, e_is_active e = true) (members team)))%nat →
  0 ≤ people_per_shift team →
  let active := filter (λ e, e_is_active e = true) (members team) in
  let shifts := emergency_shifts (shift_template team) in
  let month := zip shifts (emergency_entry active (length shifts) (people_per_shift team)
                             <$> seq 0 (length shifts)) in
  let schedule := [(strftime_B_Y today.1 today.2, month)] in
  emergency_schedule today team_id db
  = (Ok (EmergencySaved schedule),
     set_saved_schedules (saved_schedule_upsert team_id schedule) db).
Proof.
  intros Hteam Hactive Hpps active shifts month schedule.
  unfold emergency_schedule, mbind, M_bind, get_db. rewrite Hteam. fold active.
  destruct (Nat.ltb_spec (length active) 3) as [Hfew|_]; [unfold active in Hfew; lia|].
  unfold lift, emergency_month, enumerate. fold shifts.
  rewrite emergency_assignments_spec; [done|done|].
  rewrite app_nil_l. apply emergency_shifts_NoDup.
Qed.

(** The emergency route needs neither a recognised template nor a roster that
    fills the shifts. For a team with at least three active members and a
    [people_per_shift] that is not negative it returns a schedule of one
    month, labelled with the current month, whose shifts are those of the
    template, or Morning, Afternoon and Night when the template is not
    recognised. Every shift has exactly [people_per_shift] fixed entries and
    at most one floater, all of them entries of active members. The schedule
    replaces the saved schedule of the team or is added as its only one; the
    saved schedules of other teams and all other tables stay as they are. *)
Theorem emergency_schedule_shape (today : Z * Z) (team_id : Z) (db : Db) (team : Team)
    (Hteam : team_get db team_id = Some team)
    (Hactive : (3 ≤ length (filter (λ e, e_is_active e = true) (members team)))%nat)
    (Hpps : 0 ≤ people_per_shift team) :
  let active := filter (λ e, e_is_active e = true) (members team) in
  let run := emergency_schedule today team_id db in
  ∃ month,
    run.1 = Ok (EmergencySaved [(strftime_B_Y today.1 today.2, month)])
    ∧ month.*1 = emergency_shifts (shift_template team)
    ∧ (team_shifts_map !! shift_template team = None →
       month.*1 = ["Morning"; "Afternoon"; "Night"]%string)
    ∧ (∀ shift data, (shift, data) ∈ month →
         length (assigned_staff data) = Z.to_nat (people_per_shift team)
         ∧ (length (floaters data) ≤ 1)%nat
         ∧ assigned_staff data ++ floaters data ⊆ staff_entry <$> active)
    ∧ run.2 = set_saved_schedules (λ _, saved_schedule_table run.2) db
    ∧ mkSavedSchedule team_id [(strftime_B_Y today.1 today.2, month)]
        ∈ saved_schedule_table run.2
    ∧ (NoDup (s_team_id <$> saved_schedule_table db) →
       NoDup (s_team_id <$> saved_schedule_table run.2))
    ∧ filter (λ s, s_team_id s ≠ team_id) (saved_schedule_table run.2)
      = filter (λ s, s_team_id s ≠ team_id) (saved_schedule_table db).
Proof.
  intros active run. subst run.
  rewrite (emergency_schedule_run today team_id db team Hteam Hactive Hpps).
  fold active. cbn [fst snd saved_schedule_table set_saved_schedules].
  set (shifts := emergency_shifts (shift_template team)).
  eexists. split; [done|].
  assert (Hkeys : (zip shifts (emergency_entry active (length shifts) (people_per_shift team)
                                 <$> seq 0 (length shifts))).*1 = shifts).
  { apply fst_zip. by rewrite length_fmap, length_seq. }
  split; [done|]. split.
  { intros Hunknown. rewrite Hkeys. unfold shifts, emergency_shifts. by rewrite Hunknown. }
  split.
  { intros shift data Hin. apply elem_of_zip_r in Hin.
    apply list_elem_of_fmap in Hin as (i & -> & _).
    assert (Hne : active ≠ []).
    { intros Hnil. unfold active in Hnil. rewrite Hnil in Hactive. cbn in Hactive. lia. }
    cbn [emergency_entry assigned_staff floaters].
    split; [by apply length_emergency_shift_team|].
    split; [destruct (active !! _); cbn; lia|].
    intros entry [Hfixed|Hfloater]%elem_of_app.
    - by eapply emergency_shift_team_members.
    - destruct (active !! _) as [e|] eqn:He; [|by apply elem_of_nil in Hfloater].
      apply list_elem_of_singleton in Hfloater as ->.
      apply list_elem_of_fmap_2. by eapply list_elem_of_lookup_2. }
  split; [by destruct db|]. split; [apply saved_schedule_upsert_row|].
  split; [apply saved_schedule_upsert_NoDup|apply saved_schedule_upsert_others].
Qed.

Lemma emergency_schedule_shape_witness :
  let team := mkTeam 9 "Night desk" "2-shift" 1 [ann; bob; cy] in
  let db := mkDb [ann; bob; cy] [team] [] [] [] [] [] [] in
  ∃ month,
    (emergency_schedule (2026, 11) 9 db).1
    = Ok (EmergencySaved [("November 2026"%string, month)])
    ∧ month.*1 = ["Morning"; "Afternoon"; "Night"]%string.
Proof.
  cbv zeta.
  destruct (emergency_schedule_shape (2026, 11) 9
              (mkDb [ann; bob; cy] [mkTeam 9 "Night desk" "2-shift" 1 [ann; bob; cy]]
                 [] [] [] [] [] [])
              (mkTeam 9 "Night desk" "2-shift" 1 [ann; bob; cy]) eq_refl)
    as (month & Hrun & _ & Hdefault & _).
  - vm_compute. lia.
  - done.
  - exists month. split; [exact Hrun|]. by apply Hdefault.
Defined.

Lemma omap_window {A B} (g : A → B) (l : list A) (f : nat → option B) :
  ∀ p k a,
    (∀ j, (j < p)%nat → f (a + j)%nat = g <$> l !! (k + j)%nat) →
    (k + p ≤ length l)%nat →
    omap f (seq a p) = g <$> take p (drop k l).
Proof.
  induction p as [|p IH]; intros k a Hf Hlen; [done|].
  cbn [seq omap list_omap].
  destruct (lookup_lt_is_Some_2 l k) as [x Hx]; [lia|].
  pose proof (Hf 0%nat ltac:(lia)) as H0. rewrite !Nat.add_0_r, Hx in H0.
  change (omap f (a :: seq (S a) p))
    with (match f a with Some y => y :: omap f (seq (S a) p) | None => omap f (seq (S a) p) end).
  rewrite H0. cbn [fmap option_fmap option_map].
  rewrite (drop_S l x k Hx). cbn [take fmap list_fmap]. f_equal.
  apply IH; [|lia].
  intros j Hj. replace (S a + j)%nat with (a + S j)%nat by lia.
  rewrite Hf by lia. f_equal. f_equal. lia.
Qed.

Lemma emergency_shift_team_take active_employees people_per_shift i :
  0 ≤ people_per_shift →
  (Z.of_nat i + 1) * people_per_shift ≤ Z.of_nat (length active_employees) →
  emergency_shift_team active_employees people_per_shift i
  = staff_entry <$> take (Z.to_nat people_per_shift)
                      (drop (i * Z.to_nat people_per_shift) active_employees).
Proof.
  intros Hpps Hroom. unfold emergency_shift_team.
  apply omap_window; [|nia].
  intros j Hj. cbv zeta. rewrite Nat.add_0_l. f_equal. f_equal.
  rewrite Z.mod_small by nia. nia.
Qed.

Lemma month_fixed_zip (shifts : list string) (datas : list ShiftData) :
  length shifts = length datas →
  month_fixed (zip shifts datas) = mjoin (assigned_staff <$> datas).
Proof.
  unfold month_fixed. revert datas.
  induction shifts as [|s shifts IH]; intros [|d datas] Hlen; try done.
  cbn. f_equal. apply IH. cbn in Hlen. lia.
Qed.

Lemma month_floaters_zip (shifts : list string) (datas : list ShiftData) :
  length shifts = length datas →
  month_floaters (zip shifts datas) = mjoin (floaters <$> datas).
Proof.
  unfold month_floaters. revert datas.
  induction shifts as [|s shifts IH]; intros [|d datas] Hlen; try done.
  cbn. f_equal. apply IH. cbn in Hlen. lia.
Qed.

(** The fixed staff of consecutive shifts are consecutive stretches of the
    list of active members, as long as the list is not exhausted. *)
Lemma emergency_entries_fixed active_employees num_shifts people_per_shift :
  0 ≤ people_per_shift →
  ∀ m k,
    (Z.of_nat k + Z.of_nat m) * people_per_shift ≤ Z.of_nat (length active_employees) →
    mjoin (assigned_staff
             <$> (emergency_entry active_employees num_shifts people_per_shift
                    <$> seq k m))
    = staff_entry <$> take (m * Z.to_nat people_per_shift)
                        (drop (k * Z.to_nat people_per_shift) active_employees).
Proof.
  intros Hpps. induction m as [|m IH]; intros k Hroom; [done|].
  cbn [seq fmap list_fmap mjoin list_join emergency_entry assigned_staff].
  rewrite IH by nia. rewrite emergency_shift_team_take by (done || nia).
  rewrite <- fmap_app. f_equal.
  replace (S k * Z.to_nat people_per_shift)%nat
    with (k * Z.to_nat people_per_shift + Z.to_nat people_per_shift)%nat by lia.
  rewrite <- drop_drop, take_take_drop. reflexivity.
Qed.

(** The floaters of consecutive shifts are the members that follow the fixed
    positions, one per shift while there are any. *)
Lemma emergency_entries_floaters active_employees num_shifts people_per_shift :
  ∀ m k,
    mjoin (floaters
             <$> (emergency_entry active_employees num_shifts people_per_shift
                    <$> seq k m))
    = staff_entry
        <$> take m (drop (Z.to_nat (Z.of_nat num_shifts * people_per_shift) + k)
                      active_employees).
Proof.
  induction m as [|m IH]; intros k; [done|].
  cbn [seq fmap list_fmap mjoin list_join emergency_entry floaters]. rewrite IH.
  set (start := Z.to_nat (Z.of_nat num_shifts * people_per_shift)).
  destruct (active_employees !! (start + k)%nat) as [e|] eqn:He.
  - rewrite (drop_S active_employees e (start + k) He).
    by replace (start + S k)%nat with (S (start + k)) by lia.
  - apply lookup_ge_None in He.
    rewrite !drop_ge by lia. by rewrite !take_nil.
Qed.

Lemma month_entries_split (month : MonthlyAssignment) :
  month_entries month ≡ₚ month_fixed month ++ month_floaters month.
Proof.
  unfold month_entries, month_fixed, month_floaters.
  induction month as [|[shift data] month IH]; [done|].
  cbn [fmap list_fmap mjoin list_join snd]. rewrite IH.
  rewrite <- !app_assoc. apply Permutation_app_head.
  rewrite !app_assoc. apply Permutation_app_tail, Permutation_app_comm.
Qed.

(** With enough active members to fill the fixed positions, the emergency
    route hands out the positions in the order of the list: the fixed staff of
    the shifts, read shift by shift, are the first shifts times
    [people_per_shift] active members, and the floaters are the members that
    follow, at most one per shift. The month lists the first shifts times
    ([people_per_shift] + 1) active members, each position once, and nobody
    after them. *)
Theorem emergency_schedule_takes_members_in_order (today : Z * Z) (team_id : Z) (db : Db)
    (team : Team)
    (Hteam : team_get db team_id = Some team)
    (Hactive : (3 ≤ length (filter (λ e, e_is_active e = true) (members team)))%nat)
    (Hpps : 0 ≤ people_per_shift team)
    (Henough :
       Z.of_nat (length (emergency_shifts (shift_template team))) * people_per_shift team
       ≤ Z.of_nat (length (filter (λ e, e_is_active e = true) (members team)))) :
  let active := filter (λ e, e_is_active e = true) (members team) in
  let n := length (emergency_shifts (shift_template team)) in
  let p := Z.to_nat (people_per_shift team) in
  ∃ month,
    (emergency_schedule today team_id db).1
    = Ok (EmergencySaved [(strftime_B_Y today.1 today.2, month)])
    ∧ month_fixed month = staff_entry <$> take (n * p) active
    ∧ month_floaters month = staff_entry <$> take n (drop (n * p) active)
    ∧ month_entries month ≡ₚ staff_entry <$> take (n * p + n) active.
Proof.
  intros active n p.
  rewrite (emergency_schedule_run today team_id db team Hteam Hactive Hpps).
  fold active n. cbn [fst].
  set (shifts := emergency_shifts (shift_template team)).
  set (datas := emergency_entry active n (people_per_shift team) <$> seq 0 n).
  assert (Hlen : length shifts = length datas).
  { unfold datas. by rewrite length_fmap, length_seq. }
  assert (Hfixed : month_fixed (zip shifts datas) = staff_entry <$> take (n * p) active).
  { rewrite month_fixed_zip by done. unfold datas.
    rewrite emergency_entries_fixed; [done|done|]. unfold active, n. lia. }
  assert (Hfloaters : month_floaters (zip shifts datas)
                      = staff_entry <$> take n (drop (n * p) active)).
  { rewrite month_floaters_zip by done. unfold datas.
    rewrite emergency_entries_floaters. do 3 f_equal. unfold p.
    rewrite Z2Nat.inj_mul, Nat2Z.id by lia. lia. }
  eexists. split; [done|]. split; [done|]. split; [done|].
  rewrite month_entries_split, Hfixed, Hfloaters, <- fmap_app.
  by rewrite take_take_drop.
Qed.

Lemma emergency_schedule_takes_members_in_order_witness :
  let roster := [ada; lin; ann; bob; cy] in
  let team := mkTeam 8 "Desk" "3-shift" 1 roster in
  let db := mkDb roster [team] [] [] [] [] [] [] in
  ∃ month,
    (emergency_schedule (2026, 11) 8 db).1
    = Ok (EmergencySaved [("November 2026"%string, month)])
    ∧ month_fixed month = staff_entry <$> [ada; lin; ann]
    ∧ month_floaters month = staff_entry <$> [bob; cy].
Proof.
  cbv zeta.
  destruct (emergency_schedule_takes_members_in_order (2026, 11) 8
              (mkDb [ada; lin; ann; bob; cy]
                 [mkTeam 8 "Desk" "3-shift" 1 [ada; lin; ann; bob; cy]] [] [] [] [] [] [])
              (mkTeam 8 "Desk" "3-shift" 1 [ada; lin; ann; bob; cy]) eq_refl)
    as (month & Hrun & Hfixed & Hfloaters & _).
  - vm_compute. lia.
  - done.
  - by vm_compute.
  - exists month. split; [exact Hrun|]. split; [exact Hfixed|exact Hfloaters].
Defined.

Lemma delete_first_saved_others team_id table :
  filter (λ s, s_team_id s ≠ team_id) (delete_first_saved team_id table)
  = filter (λ s, s_team_id s ≠ team_id) table.
Proof.
  induction table as [|row table IH]; cbn [delete_first_saved]; [done|].
  destruct (decide (s_team_id row = team_id)) as [Hrow|Hrow].
  - by rewrite filter_cons_False by (by intros ?).
  - rewrite !filter_cons_True by done. by rewrite IH.
Qed.

Lemma delete_first_saved_gone team_id table :
  NoDup (s_team_id <$> table) →
  team_id ∉ s_team_id <$> delete_first_saved team_id table.
Proof.
  induction table as [|row table IH]; cbn [delete_first_saved]; intros Hnodup.
  { apply not_elem_of_nil. }
  change (s_team_id <$> row :: table) with (s_team_id row :: (s_team_id <$> table))
    in Hnodup.
  apply NoDup_cons in Hnodup as [Hhead Hnodup].
  destruct (decide (s_team_id row = team_id)) as [Hrow|Hrow].
  - by rewrite <- Hrow.
  - change (s_team_id <$> row :: delete_first_saved team_id table)
      with (s_team_id row :: (s_team_id <$> delete_first_saved team_id table)).
    intros [?|?]%elem_of_cons; [done|]. by apply IH.
Qed.

(** Deleting the schedule of a team removes its saved schedule together with
    the validation log and the rule violations of the team, and nothing else:
    the rows of other teams, the assignment history, the cache and the usage
    log stay. Without a saved schedule nothing is deleted at all, so validation
    rows of the team that are left stay too. *)
Theorem delete_schedule_removes_schedule_and_reports (team_id : Z) (db : Db) :
  let run := delete_schedule team_id db in
  (has_saved_schedule db team_id = false → run = (Ok false, db))
  ∧ (has_saved_schedule db team_id = true →
     run.1 = Ok true
     ∧ (NoDup (s_team_id <$> saved_schedule_table db) →
        has_saved_schedule run.2 team_id = false)
     ∧ filter (λ s, s_team_id s ≠ team_id) (saved_schedule_table run.2)
       = filter (λ s, s_team_id s ≠ team_id) (saved_schedule_table db)
     ∧ validation_log_table run.2
       = filter (λ v, v_team_id v ≠ team_id) (validation_log_table db)
     ∧ rule_violation_table run.2
       = filter (λ r, r_team_id r ≠ team_id) (rule_violation_table db)
     ∧ history_table run.2 = history_table db
     ∧ cache_table run.2 = cache_table db
     ∧ usage_table run.2 = usage_table db
     ∧ team_table run.2 = team_table db
     ∧ employee_table run.2 = employee_table db).
Proof.
  intros run. subst run. unfold delete_schedule, has_saved_schedule, mbind, M_bind, get_db.
  split; intros Hsaved; rewrite Hsaved; [done|].
  cbn [fst snd commit mret M_ret saved_schedule_table validation_log_table
       rule_violation_table history_table cache_table usage_table team_table
       employee_table set_saved_schedules set_rule_violations set_validation_log].
  unfold commit, mret, M_ret.
  cbn [fst snd saved_schedule_table validation_log_table
       rule_violation_table history_table cache_table usage_table team_table
       employee_table set_saved_schedules set_rule_violations set_validation_log].
  split; [done|]. split.
  { intros Hnodup. apply bool_decide_eq_false. by apply delete_first_saved_gone. }
  split; [apply delete_first_saved_others|]. done.
Qed.

(** What generation leaves alone. *)
Lemma generate_run_frame (strptime : string → option (Z * Z))
    (generate_cache_key : Z → Z → nat → string → Z → string) (str_len : Schedule → Z)
    (now : Z) (today : Z * Z) (team : Team) (months : Z) (user_id : option Z) (db : Db) :
  let run := generate_monthly_assignments_enhanced strptime generate_cache_key str_len
               now today team months user_id db in
  saved_schedule_table run.2 = saved_schedule_table db
  ∧ team_table run.2 = team_table db
  ∧ employee_table run.2 = employee_table db
  ∧ validation_log_table run.2 = validation_log_table db
  ∧ rule_violation_table run.2 = rule_violation_table db.
Proof.
  intros run. subst run.
  destruct (generate_run_cases strptime generate_cache_key str_len now today team months
              user_id db) as (r & db0 & _ & Hdb0 & Hrun).
  assert (H0 : saved_schedule_table db0 = saved_schedule_table db
               ∧ team_table db0 = team_table db
               ∧ employee_table db0 = employee_table db
               ∧ validation_log_table db0 = validation_log_table db
               ∧ rule_violation_table db0 = rule_violation_table db).
  { by destruct Hdb0 as [-> | ->]. }
  destruct Hrun as [(m & ms & _ & ->)|[->|[(e & _ & ->)|(schedule & dbh & _ & _ & Hcommit & ->)]]];
    try exact H0.
  assert (Hh : saved_schedule_table dbh = saved_schedule_table db
               ∧ team_table dbh = team_table db
               ∧ employee_table dbh = employee_table db
               ∧ validation_log_table dbh = validation_log_table db
               ∧ rule_violation_table dbh = rule_violation_table db).
  { destruct Hcommit as (-> & _). by destruct db0. }
  by case_decide.
Qed.

(** A request for a team that has a saved schedule never reaches the
    generator. *)
Lemma generate_schedule_post_blocked (strptime : string → option (Z * Z))
    (generate_cache_key : Z → Z → nat → string → Z → string) (str_len : Schedule → Z)
    (sql_sum : list float → float) (now : Z) (today : Z * Z)
    (current_user team_id months : Z) (db : Db) :
  has_saved_schedule db team_id = true →
  ∃ outcome,
    generate_schedule_post strptime generate_cache_key str_len sql_sum now today
      current_user team_id months db = (Ok outcome, db)
    ∧ (outcome = AlreadyExists ∨ ∃ message, outcome = CostDenied message).
Proof.
  intros Hsaved. unfold generate_schedule_post, mbind, M_bind, get_db.
  rewrite check_rate_limit_generate. cbn [negb].
  destruct (check_cost_limits sql_sum (usage_table db) now current_user)
    as [[] cost_message]; cbn [negb].
  - rewrite Hsaved. eauto.
  - eauto.
Qed.

(** The POST branch of [generate_schedule] stores a schedule only for a team
    that has none, and then exactly one row with the non-empty schedule it
    answers with; in every other case the saved schedules stay as they are, so
    the table keeps one row per team. A request for a team that has a saved
    schedule leaves the whole database untouched; in particular, once a
    schedule has been saved, every later request for that team, at any time,
    by any user and for any number of months, is turned down without a
    change. *)
Theorem generate_schedule_post_saves_one_schedule_per_team
    (strptime : string → option (Z * Z))
    (generate_cache_key : Z → Z → nat → string → Z → string) (str_len : Schedule → Z)
    (sql_sum : list float → float) (now : Z) (today : Z * Z)
    (current_user team_id months : Z) (db : Db) :
  let run := generate_schedule_post strptime generate_cache_key str_len sql_sum now today
               current_user team_id months db in
  (∀ schedule, run.1 = Ok (Saved schedule) →
     schedule ≠ [] ∧ has_saved_schedule db team_id = false
     ∧ saved_schedule_table run.2
       = saved_schedule_table db ++ [mkSavedSchedule team_id schedule]
     ∧ ∀ now' today' user' months',
         let again := generate_schedule_post strptime generate_cache_key str_len sql_sum
                        now' today' user' team_id months' run.2 in
         again.2 = run.2
         ∧ (again.1 = Ok AlreadyExists ∨ ∃ message, again.1 = Ok (CostDenied message)))
  ∧ ((∀ schedule, run.1 ≠ Ok (Saved schedule)) →
     saved_schedule_table run.2 = saved_schedule_table db)
  ∧ (NoDup (s_team_id <$> saved_schedule_table db) →
     NoDup (s_team_id <$> saved_schedule_table run.2))
  ∧ (has_saved_schedule db team_id = true → run.2 = db).
Proof.
  intros run.
  assert (Hcases :
    (saved_schedule_table run.2 = saved_schedule_table db
     ∧ ∀ schedule, run.1 ≠ Ok (Saved schedule))
    ∨ ∃ schedule, run.1 = Ok (Saved schedule) ∧ schedule ≠ []
                  ∧ has_saved_schedule db team_id = false
                  ∧ saved_schedule_table run.2
                    = saved_schedule_table db ++ [mkSavedSchedule team_id schedule]).
  { subst run. unfold generate_schedule_post, mbind, M_bind, get_db.
    rewrite check_rate_limit_generate. cbn [negb].
    destruct (check_cost_limits sql_sum (usage_table db) now current_user)
      as [[] cost_message]; cbn [negb]; [|by left].
    destruct (has_saved_schedule db team_id) eqn:Hsaved; [by left|].
    destruct (team_get db team_id) as [team|]; [|by left].
    pose proof (generate_run_frame strptime generate_cache_key str_len now today team
                  months (Some current_user) db) as (Hframe & _).
    destruct (generate_monthly_assignments_enhanced _ _ _ _ _ _ _ _ db)
      as [[[|m ms]|e] db1]; cbn [snd] in Hframe.
    - by left.
    - right. exists (m :: ms). unfold commit, mret, M_ret.
      cbn [fst snd saved_schedule_table set_saved_schedules]. by rewrite Hframe.
    - by left. }
  split_and!.
  - intros schedule Hrun.
    destruct Hcases as [[_ Hnot]|(schedule' & Hrun' & Hne & Hnone & Htable)];
      [by destruct (Hnot schedule)|].
    rewrite Hrun in Hrun'. injection Hrun' as <-.
    split; [done|]. split; [done|]. split; [done|].
    intros now' today' user' months' again.
    destruct (generate_schedule_post_blocked strptime generate_cache_key str_len sql_sum
                now' today' user' team_id months' run.2) as (outcome & Hagain & Houtcome).
    { unfold has_saved_schedule. apply bool_decide_eq_true. rewrite Htable, fmap_app.
      apply elem_of_app. right. by left. }
    subst again. rewrite Hagain. cbn [fst snd]. split; [done|].
    destruct Houtcome as [->|[message ->]]; eauto.
  - intros Hnot. destruct Hcases as [[Htable _]|(schedule & Hrun & _)]; [done|].
    by destruct (Hnot schedule).
  - intros Hnodup. destruct Hcases as [[-> _]|(schedule & _ & _ & Hnone & ->)]; [done|].
    rewrite fmap_app. apply NoDup_app. split_and!; [done| |apply NoDup_singleton].
    intros id Hid ->%list_elem_of_singleton.
    unfold has_saved_schedule in Hnone. by apply bool_decide_eq_false in Hnone.
  - intros Hsaved.
    destruct (generate_schedule_post_blocked strptime generate_cache_key str_len sql_sum
                now today current_user team_id months db Hsaved) as (outcome & Hrun & _).
    subst run. by rewrite Hrun.
Qed.

Lemma delete_schedule_removes_schedule_and_reports_witness :
  let log team := mkScheduleValidationLog team JNull (JNum 0) (JBool true) 5 in
  let db := mkDb [] [] [mkSavedSchedule 7 []] [] [] [] [log 7; log 8] [] in
  has_saved_schedule (delete_schedule 7 db).2 7 = false
  ∧ validation_log_table (delete_schedule 7 db).2 = [log 8]
  ∧ delete_schedule 9 db = (Ok false, db).
Proof.
  cbv zeta.
  destruct (proj2 (delete_schedule_removes_schedule_and_reports 7
                     (mkDb [] [] [mkSavedSchedule 7 []] [] [] []
                        [mkScheduleValidationLog 7 JNull (JNum 0) (JBool true) 5;
                         mkScheduleValidationLog 8 JNull (JNum 0) (JBool true) 5] []))
              eq_refl) as (_ & Hgone & _ & Hlogs & _).
  split; [apply Hgone; apply NoDup_singleton|]. split; [by rewrite Hlogs|].
  by apply (proj1 (delete_schedule_removes_schedule_and_reports 9 _)).
Defined.

Lemma generate_schedule_post_saves_one_schedule_per_team_witness :
  let db := mkDb [ann; bob; cy] [interns_team] [] [] [] [] [] [] in
  let post now :=
    generate_schedule_post (λ _, Some (2026, 11)) (λ _ _ _ _ _, "fp"%string) (λ _, 120)
      (foldl PrimFloat.add 0.0%float) now (2026, 11) 1 7 1 in
  (∃ schedule, (post 1793810000000000 db).1 = Ok (Saved schedule))
  ∧ (post 1793990000000000 (post 1793810000000000 db).2).2 = (post 1793810000000000 db).2.
Proof.
  cbv zeta.
  assert (Hrun : ∃ schedule,
            (generate_schedule_post (λ _, Some (2026, 11)) (λ _ _ _ _ _, "fp"%string)
               (λ _, 120) (foldl PrimFloat.add 0.0%float) 1793810000000000 (2026, 11) 1 7 1
               (mkDb [ann; bob; cy] [interns_team] [] [] [] [] [] [])).1
            = Ok (Saved schedule)).
  { eexists. by vm_compute. }
  split; [exact Hrun|]. destruct Hrun as [schedule Hrun].
  destruct (proj1 (generate_schedule_post_saves_one_schedule_per_team
                     (λ _, Some (2026, 11)) (λ _ _ _ _ _, "fp"%string) (λ _, 120)
                     (foldl PrimFloat.add 0.0%float) 1793810000000000 (2026, 11) 1 7 1
                     (mkDb [ann; bob; cy] [interns_team] [] [] [] [] [] []))
              schedule Hrun) as (_ & _ & _ & Hagain).
  apply (Hagain 1793990000000000 (2026, 11) 1 1).
Defined.

(** A lookup that finds an unexpired entry with a schedule ends the call:
    the schedule is returned and only the hit count changes. *)
Lemma generate_served_from_cache (strptime : string → option (Z * Z))
    (generate_cache_key : Z → Z → nat → string → Z → string) (str_len : Schedule → Z)
    (now : Z) (today : Z * Z) (team : Team) (months : Z) (user_id : option Z) (db : Db)
    (c : ScheduleCache) :
  let key := generate_cache_key (t_id team) months
               (length (filter (λ e, e_is_active e = true) (members team)))
               (shift_template team) (people_per_shift team) in
  cache_first (cache_table db) key = Some c → now < expires_at c → cached_data c ≠ [] →
  generate_monthly_assignments_enhanced strptime generate_cache_key str_len
    now today team months user_id db
  = (Ok (cached_data c), set_cache (bump_first key) db).
Proof.
  intros key Hfirst Hfresh Hdata.
  unfold generate_monthly_assignments_enhanced. fold key.
  unfold mbind at 1. unfold M_bind at 1.
  assert (Hhit : get_cached_schedule now key db
                 = (Ok (Some (cached_data c)), set_cache (bump_first key) db)).
  { unfold get_cached_schedule, mbind, M_bind, get_db. rewrite Hfirst.
    destruct (Z.gtb_spec (expires_at c) now); [done|lia]. }
  rewrite Hhit. by destruct (cached_data c).
Qed.

Lemma delete_first_saved_last team_id schedule table :
  team_id ∉ s_team_id <$> table →
  delete_first_saved team_id (table ++ [mkSavedSchedule team_id schedule]) = table.
Proof.
  induction table as [|row table IH]; intros Hfresh; cbn [app delete_first_saved].
  { by rewrite decide_True. }
  rewrite decide_False.
  - f_equal. apply IH. intros Hin. apply Hfresh. by right.
  - intros Hrow. apply Hfresh. apply list_elem_of_fmap. exists row. split; [done|by left].
Qed.

(** The POST branch of [generate_schedule] when nothing turns the request
    down and the generator answers with a schedule. *)
Lemma generate_schedule_post_saved (strptime : string → option (Z * Z))
    (generate_cache_key : Z → Z → nat → string → Z → string) (str_len : Schedule → Z)
    (sql_sum : list float → float) (now : Z) (today : Z * Z)
    (current_user team_id months : Z) (db db1 : Db) (team : Team) (schedule : Schedule) :
  (check_cost_limits sql_sum (usage_table db) now current_user).1 = true →
  has_saved_schedule db team_id = false →
  team_get db team_id = Some team →
  generate_monthly_assignments_enhanced strptime generate_cache_key str_len
    now today team months (Some current_user) db = (Ok schedule, db1) →
  schedule ≠ [] →
  generate_schedule_post strptime generate_cache_key str_len sql_sum now today
    current_user team_id months db
  = (Ok (Saved schedule),
     set_saved_schedules (λ t, t ++ [mkSavedSchedule team_id schedule]) db1).
Proof.
  intros Hcost Hnone Hteam Hgen Hne.
  unfold generate_schedule_post, mbind, M_bind, get_db.
  rewrite check_rate_limit_generate. cbn [negb].
  destruct (check_cost_limits sql_sum (usage_table db) now current_user)
    as [cost_ok cost_message]. cbn [fst] in Hcost. subst cost_ok. cbn [negb].
  rewrite Hnone, Hteam, Hgen. by destruct schedule.
Qed.

(** Deleting a schedule does not make room for a new one straight away: the
    cache entry of the generation stays. When a schedule has been generated
    and saved for a team, is deleted, and is requested again less than 24
    hours after the generation, with the same number of months and the cost
    check passing, the request answers with the schedule that was deleted and
    saves it again; nothing is generated, and no history or usage row is
    written. *)
Theorem deleted_schedule_comes_back_from_the_cache
    (strptime : string → option (Z * Z))
    (generate_cache_key : Z → Z → nat → string → Z → string) (str_len : Schedule → Z)
    (sql_sum : list float → float) (now now2 : Z) (today today2 : Z * Z)
    (user user2 team_id months : Z) (db : Db) (team : Team)
    (Hteam : team_get db team_id = Some team)
    (Hnone : has_saved_schedule db team_id = false)
    (Hknown : is_Some (team_shifts_map !! shift_template team))
    (Hmonths : 0 < months)
    (Hdates : months_in_range today months)
    (Hactive : filter (λ e, e_is_active e = true) (members team) ≠ [])
    (Hfresh :
       generate_cache_key (t_id team) months
         (length (filter (λ e, e_is_active e = true) (members team)))
         (shift_template team) (people_per_shift team)
       ∉ cache_key <$> cache_table db)
    (Hsoon : now2 - now < timedelta_hours 24)
    (Hcost : (check_cost_limits sql_sum (usage_table db) now user).1 = true)
    (Hcost2 :
       (check_cost_limits sql_sum
          (usage_table
             (generate_schedule_post strptime generate_cache_key str_len sql_sum now today
                user team_id months db).2) now2 user2).1 = true) :
  let first := generate_schedule_post strptime generate_cache_key str_len sql_sum now today
                 user team_id months db in
  let deleted := delete_schedule team_id first.2 in
  let second := generate_schedule_post strptime generate_cache_key str_len sql_sum now2
                  today2 user2 team_id months deleted.2 in
  ∃ schedule,
    schedule ≠ []
    ∧ first.1 = Ok (Saved schedule)
    ∧ deleted.1 = Ok true
    ∧ has_saved_schedule deleted.2 team_id = false
    ∧ second.1 = Ok (Saved schedule)
    ∧ history_table second.2 = history_table first.2
    ∧ usage_table second.2 = usage_table first.2.
Proof.
  cbv zeta.
  set (key := generate_cache_key (t_id team) months
                (length (filter (λ e, e_is_active e = true) (members team)))
                (shift_template team) (people_per_shift team)) in *.
  destruct (generate_with_constraints_nonempty (history_table db) today team
              (sorted (λ a b, level_of a <=? level_of b)
                 (filter (λ e, e_is_active e = true) (members team))) months
              Hknown Hmonths Hdates) as (schedule & Hgen & Hschedule & _).
  destruct (generate_after_miss strptime generate_cache_key str_len now today team months
              (Some user) db db None schedule (get_cached_schedule_fresh now key db Hfresh))
    as (dbh & _ & Hcommit & Hrun); [by left|done|done|done|].
  fold key in Hrun. rewrite decide_False in Hrun by done.
  set (db1 := set_usage _ (set_cache _ dbh)) in Hrun.
  assert (Hfirst := generate_schedule_post_saved strptime generate_cache_key str_len sql_sum
                      now today user team_id months db db1 team schedule Hcost Hnone Hteam
                      Hrun Hschedule).
  rewrite Hfirst in Hcost2 |- *. cbn [fst snd] in Hcost2 |- *.
  set (db2 := set_saved_schedules _ db1) in *.
  assert (Hdbh : dbh = set_history (λ _, history_table dbh) db).
  { by destruct Hcommit as (? & _). }
  assert (Hsaved2 : saved_schedule_table db2
                    = saved_schedule_table db ++ [mkSavedSchedule team_id schedule]).
  { subst db2 db1. cbn [saved_schedule_table set_saved_schedules set_usage set_cache].
    rewrite Hdbh. by destruct db. }
  assert (Hfresh_id : team_id ∉ s_team_id <$> saved_schedule_table db).
  { unfold has_saved_schedule in Hnone. by apply bool_decide_eq_false in Hnone. }
  assert (Hhas : has_saved_schedule db2 team_id = true).
  { unfold has_saved_schedule. apply bool_decide_eq_true. rewrite Hsaved2, fmap_app.
    apply elem_of_app. right. by left. }
  assert (Hdeleted : delete_schedule team_id db2
                     = (Ok true,
                        set_saved_schedules (delete_first_saved team_id)
                          (set_rule_violations (filter (λ r, r_team_id r ≠ team_id))
                             (set_validation_log (filter (λ v, v_team_id v ≠ team_id))
                                db2)))).
  { unfold delete_schedule, mbind, M_bind, get_db.
    unfold has_saved_schedule in Hhas. by rewrite Hhas. }
  rewrite Hdeleted. cbn [fst snd].
  set (db3 := set_saved_schedules (delete_first_saved team_id) _).
  assert (Hsaved3 : saved_schedule_table db3 = saved_schedule_table db).
  { subst db3. cbn [saved_schedule_table set_saved_schedules set_rule_violations
      set_validation_log]. rewrite Hsaved2. by apply delete_first_saved_last. }
  assert (Hnone3 : has_saved_schedule db3 team_id = false).
  { unfold has_saved_schedule. by rewrite Hsaved3. }
  assert (Hteam3 : team_get db3 team_id = Some team).
  { rewrite <- Hteam. unfold team_get. subst db3 db2 db1.
    cbn [team_table set_saved_schedules set_rule_violations set_validation_log set_usage
         set_cache]. rewrite Hdbh. by destruct db. }
  assert (Hcache3 : cache_table db3
                    = cache_table db ++ [new_cache_entry now key schedule "schedule" 24]).
  { subst db3 db2 db1.
    cbn [cache_table set_saved_schedules set_rule_violations set_validation_log set_usage
         set_cache]. rewrite Hdbh. by destruct db. }
  assert (Hhit : generate_monthly_assignments_enhanced strptime generate_cache_key str_len
                   now2 today2 team months (Some user2) db3
                 = (Ok schedule, set_cache (bump_first key) db3)).
  { apply (generate_served_from_cache strptime generate_cache_key str_len now2 today2 team
             months (Some user2) db3 (new_cache_entry now key schedule "schedule" 24)).
    - fold key. rewrite Hcache3.
      by apply (cache_first_fresh_key (cache_table db)
                  (new_cache_entry now key schedule "schedule" 24)).
    - cbn [expires_at new_cache_entry]. lia.
    - done. }
  assert (Hcost3 : (check_cost_limits sql_sum (usage_table db3) now2 user2).1 = true).
  { rewrite <- Hcost2. by subst db3. }
  rewrite (generate_schedule_post_saved strptime generate_cache_key str_len sql_sum
             now2 today2 user2 team_id months db3 _ team schedule Hcost3 Hnone3 Hteam3 Hhit
             Hschedule).
  exists schedule. cbn [fst snd]. split_and!; try done.
Qed.

Lemma deleted_schedule_comes_back_from_the_cache_witness :
  let db := mkDb [ann; bob; cy] [interns_team] [] [] [] [] [] [] in
  let post now :=
    generate_schedule_post (λ _, Some (2026, 11)) (λ _ _ _ _ _, "fp"%string) (λ _, 120)
      (foldl PrimFloat.add 0.0%float) now (2026, 11) 1 7 1 in
  let first := post 1793810000000000 db in
  let deleted := delete_schedule 7 first.2 in
  let second := post 1793813600000000 deleted.2 in
  ∃ schedule,
    schedule ≠ []
    ∧ first.1 = Ok (Saved schedule)
    ∧ deleted.1 = Ok true
    ∧ has_saved_schedule deleted.2 7 = false
    ∧ second.1 = Ok (Saved schedule)
    ∧ history_table second.2 = history_table first.2
    ∧ usage_table second.2 = usage_table first.2.
Proof.
  apply (deleted_schedule_comes_back_from_the_cache (λ _, Some (2026, 11))
           (λ _ _ _ _ _, "fp"%string) (λ _, 120) (foldl PrimFloat.add 0.0%float)
           1793810000000000 1793813600000000 (2026, 11) (2026, 11) 1 1 7 1
           (mkDb [ann; bob; cy] [interns_team] [] [] [] [] [] []) interns_team
           eq_refl eq_refl (mk_is_Some _ _ eq_refl) eq_refl).
  - by vm_compute.
  - done.
  - apply not_elem_of_nil.
  - unfold timedelta_hours. lia.
  - by vm_compute.
  - by vm_compute.
Defined.

(** What the loop of [batch_generate] has saved when it ends without an
    exception. *)
Lemma batch_loop_saves strptime key_of str_len now today user months ids :
  ∀ count failed db r db',
    batch_loop strptime key_of str_len now today user months ids count failed db
      = (Ok r, db') →
    ∃ rows,
      saved_schedule_table db' = saved_schedule_table db ++ rows
      ∧ r.1 = count + Z.of_nat (length rows)
      ∧ Forall (λ row, schedule_data row ≠ []) rows
      ∧ (NoDup (s_team_id <$> saved_schedule_table db) →
         NoDup (s_team_id <$> saved_schedule_table db'))
      ∧ (length rows + length r.2 ≤ length ids + length failed)%nat.
Proof.
  induction ids as [|team_id ids IH]; intros count failed db r db' Hrun.
  - injection Hrun as <- <-. exists []. rewrite app_nil_r. cbn.
    split_and!; [done|lia|done|done|lia].
  - cbn [batch_loop] in Hrun. unfold mbind, M_bind, get_db in Hrun.
    destruct (team_get db team_id) as [team|].
    2: { destruct (IH _ _ _ _ _ Hrun) as (rows & ? & ? & ? & ? & ?). exists rows.
         split_and!; try done. cbn [length]. lia. }
    destruct (has_saved_schedule db (t_id team)) eqn:Hsaved.
    { destruct (IH _ _ _ _ _ Hrun) as (rows & ? & ? & ? & ? & Hlen). exists rows.
      split_and!; try done. rewrite length_app in Hlen. cbn [length] in *. lia. }
    rewrite check_rate_limit_generate in Hrun. cbn [negb] in Hrun.
    pose proof (generate_run_frame strptime key_of str_len now today team months
                  (Some user) db) as (Hframe & _).
    destruct (generate_monthly_assignments_enhanced _ _ _ _ _ _ _ _ db)
      as [[[|m ms]|e] db1]; cbn [snd] in Hframe; [| |done].
    + destruct (IH _ _ _ _ _ Hrun) as (rows & Htable & ? & ? & Hnodup & Hlen).
      exists rows. rewrite Hframe in Htable, Hnodup.
      split_and!; try done. rewrite length_app in Hlen. cbn [length] in *. lia.
    + unfold commit in Hrun.
      destruct (IH _ _ _ _ _ Hrun) as (rows & Htable & Hcount & Hall & Hnodup & Hlen).
      cbn [saved_schedule_table set_saved_schedules] in Htable, Hnodup.
      rewrite Hframe in Htable, Hnodup.
      exists (mkSavedSchedule (t_id team) (m :: ms) :: rows).
      split_and!.
      * by rewrite Htable, <- app_assoc.
      * rewrite Hcount. cbn [length]. lia.
      * by constructor.
      * intros Hunique. apply Hnodup. rewrite fmap_app. apply NoDup_app.
        split_and!; [done| |apply NoDup_singleton].
        intros id Hid ->%list_elem_of_singleton.
        unfold has_saved_schedule in Hsaved. by apply bool_decide_eq_false in Hsaved.
      * cbn [length]. lia.
Qed.

(** [batch_generate] counts what it saves. When the cost check blocks the
    batch, the database is left as it was. Otherwise, when the batch ends
    without an exception, the saved schedules are the former ones followed by
    one new row per success counted, each with a schedule that is not empty;
    the table keeps one row per team; and successes and failures together are
    no more than the teams selected. *)
Theorem batch_generate_counts_what_it_saves
    (strptime : string → option (Z * Z))
    (generate_cache_key : Z → Z → nat → string → Z → string) (str_len : Schedule → Z)
    (sql_sum : list float → float) (now : Z) (today : Z * Z) (current_user months : Z)
    (selected_team_ids : list Z) (db db' : Db)
    (r : option (Z * list (string * FailReason)))
    (Hrun : batch_generate strptime generate_cache_key str_len sql_sum now today
              current_user months selected_team_ids db = (Ok r, db')) :
  match r with
  | None => db' = db
  | Some (success_count, failed_teams) =>
      ∃ rows,
        saved_schedule_table db' = saved_schedule_table db ++ rows
        ∧ success_count = Z.of_nat (length rows)
        ∧ Forall (λ row, schedule_data row ≠ []) rows
        ∧ (NoDup (s_team_id <$> saved_schedule_table db) →
           NoDup (s_team_id <$> saved_schedule_table db'))
        ∧ (length rows + length failed_teams ≤ length selected_team_ids)%nat
  end.
Proof.
  unfold batch_generate, mbind, M_bind, get_db in Hrun.
  destruct (check_cost_limits sql_sum (usage_table db) now current_user)
    as [[] cost_message]; cbn [negb] in Hrun.
  - destruct (batch_loop _ _ _ _ _ _ _ _ _ _ db) as [[[n failed]|e] db1] eqn:Hloop;
      [|done].
    injection Hrun as <- <-.
    destruct (batch_loop_saves _ _ _ _ _ _ _ _ _ _ _ _ _ Hloop)
      as (rows & Htable & Hcount & Hall & Hnodup & Hlen).
    exists rows. cbn [fst snd length] in *. split_and!; try done; lia.
  - by injection Hrun as <- <-.
Qed.

Lemma batch_generate_counts_what_it_saves_witness :
  let desk := mkTeam 8 "Desk" "3-shift" 1 [ada; lin] in
  let db := mkDb [ann; bob; cy; lin; ada] [interns_team; desk] [mkSavedSchedule 8 []]
              [] [] [] [] [] in
  let run :=
    batch_generate (λ _, Some (2026, 11)) (λ team _ _ _ _, pretty team) (λ _, 120)
      (foldl PrimFloat.add 0.0%float) 1793810000000000 (2026, 11) 1 1 [8; 7; 99] db in
  ∃ rows,
    saved_schedule_table run.2 = mkSavedSchedule 8 [] :: rows
    ∧ length rows = 1%nat.
Proof.
  cbv zeta.
  set (db := mkDb [ann; bob; cy; lin; ada]
               [interns_team; mkTeam 8 "Desk" "3-shift" 1 [ada; lin]]
               [mkSavedSchedule 8 []] [] [] [] [] []).
  set (run := batch_generate _ _ _ _ _ _ _ _ _ db).
  assert (Hresult : run.1 = Ok (Some (1, [("Desk"%string, ScheduleExists)])))
    by (by vm_compute).
  assert (Hrun : run = (Ok (Some (1, [("Desk"%string, ScheduleExists)])), run.2)).
  { rewrite <- Hresult. by destruct run. }
  destruct (batch_generate_counts_what_it_saves _ _ _ _ _ _ _ _ _ _ _ _ Hrun)
    as (rows & Htable & Hcount & _).
  exists rows. split; [exact Htable|]. lia.
Defined.
